(** * The memo application: a shallow embedding and its properties

    The repository holds two variants of one Fastify server that keeps a
    list of memos in a JSON file:

    - the improved server (cache, identifier counter, schema validation,
      backup on save), embedded in the section [Improved];
    - the basic server ([index.js]), embedded in module [Basic].

    Besides the handlers of the API the embedding covers [escapeHtml], the
    template both servers map over the memos to build the list of the main
    page ([memo_item_html]), the requests the script of the improved page
    sends ([submit_form], [updateMemo], [deleteMemo]), and the reading of
    the configuration from the environment ([config_of_env]).  The fixed
    text around the memo list, the style sheet and what the script does to
    the document are not embedded.

    Modelling conventions.

    - A JavaScript string is the list of its UTF-16 code units ([jsstring]).
    - A JavaScript value that came out of [JSON.parse] is a [json] tree.  An
      object is the list of its own properties in enumeration order.
    - Numbers are integers ([Z]); this is exact for JavaScript on the safe
      range (magnitude below 2^53), which is where the identifiers live.  The
      additions the code makes on ids, [++lastId], [lastId--] and the
      [Math.max(...) + 1] of the basic server, are those of doubles
      ([js_succ], [js_pred]): beyond the safe range they round.  A statement
      that needs ids to be exact says so ([safe], [room]).  A numeric literal
      that does not denote an integer is kept as [JFrac] with the text it was
      read from.
    - [JSON.stringify (v, null, 2)] and [JSON.parse] are library functions;
      they are written out here after ECMA-262 ([JSON_stringify],
      [JSON_parse]) so that what is saved and what is loaded can be related.
    - The data file holds text: [fs.writeFile (.., 'utf8')] followed by
      [fs.readFile (.., 'utf8')] is the identity on the text [JSON.stringify]
      produces, which never contains an unpaired surrogate.
    - A write that fails is one that leaves the file as it was
      ([writeFile_fails]).  A write that fails half-way and leaves the file
      cut short is not modelled: the statements about runs of requests
      suppose that every write is carried out ([writes_complete]).
    - Handlers run one at a time, to completion.  What a handler reads from
      its environment (the clock, whether an I/O call fails) is the [env]
      argument of the step. *)

From Stdlib Require Import List ZArith NArith Lia Bool Ascii String Sorted.
From Stdlib Require DecimalFacts DecimalPos DecimalN.
Import ListNotations.

Local Open Scope N_scope.

(* [String] is loaded for literals only; lengths are those of lists. *)
Abbreviation length := Datatypes.length (only parsing).

(** ** JavaScript strings *)

Definition jsstring : Type := list N.

Definition lit (s : string) : jsstring := map N_of_ascii (list_ascii_of_string s).
Arguments lit s%_string.

Fixpoint jsstring_eqb (a b : jsstring) : bool :=
  match a, b with
  | [], [] => true
  | x :: a', y :: b' => (x =? y) && jsstring_eqb a' b'
  | _, _ => false
  end.

(** [WhiteSpace] and [LineTerminator] of ECMA-262, the code points that
    [String.prototype.trim] strips. *)
Definition isWhiteSpace (c : N) : bool :=
  (c =? 9) || (c =? 10) || (c =? 11) || (c =? 12) || (c =? 13) || (c =? 32)
  || (c =? 160) || (c =? 5760) || ((8192 <=? c) && (c <=? 8202))
  || (c =? 8232) || (c =? 8233) || (c =? 8239) || (c =? 8287)
  || (c =? 12288) || (c =? 65279).

Fixpoint trimStart (s : jsstring) : jsstring :=
  match s with
  | c :: r => if isWhiteSpace c then trimStart r else s
  | [] => []
  end.

Definition trim (s : jsstring) : jsstring := rev (trimStart (rev (trimStart s))).

(** Surrogate code units. *)
Definition is_lead (c : N) : bool := (55296 <=? c) && (c <=? 56319).
Definition is_trail (c : N) : bool := (56320 <=? c) && (c <=? 57343).

(** ** JSON values *)

#[local] Unset Elimination Schemes.
Inductive json : Type :=
| JNull
| JBool (b : bool)
| JNum (n : Z)
| JFrac (text : jsstring)
| JStr (s : jsstring)
| JArr (xs : list json)
| JObj (fs : list (jsstring * json)).
#[local] Set Elimination Schemes.

(** *** JSON.stringify (value, null, 2) *)

(** Code units that appear as numbers below: 10 line feed, 32 space,
    34 double quote, 44 comma, 45 minus, 46 point, 48 to 57 the digits,
    58 colon, 69 and 101 the exponent letters, 91 and 93 brackets,
    92 backslash, 117 the letter u, 123 and 125 braces. *)

Fixpoint uint_units (d : Decimal.uint) : jsstring :=
  match d with
  | Decimal.Nil => []
  | Decimal.D0 d => 48 :: uint_units d
  | Decimal.D1 d => 49 :: uint_units d
  | Decimal.D2 d => 50 :: uint_units d
  | Decimal.D3 d => 51 :: uint_units d
  | Decimal.D4 d => 52 :: uint_units d
  | Decimal.D5 d => 53 :: uint_units d
  | Decimal.D6 d => 54 :: uint_units d
  | Decimal.D7 d => 55 :: uint_units d
  | Decimal.D8 d => 56 :: uint_units d
  | Decimal.D9 d => 57 :: uint_units d
  end.

(** [Number::toString] on an integer (of magnitude below 10^21). *)
Definition number_to_string (n : Z) : jsstring :=
  match n with
  | Z0 => [48]
  | Zpos p => uint_units (Pos.to_uint p)
  | Zneg p => 45 :: uint_units (Pos.to_uint p)
  end.

Definition hexdigit (x : N) : N := if x <? 10 then 48 + x else 87 + x.

(** [UnicodeEscape]: a backslash, [u] and four lower-case hexadecimal digits. *)
Definition unicode_escape (c : N) : jsstring :=
  [92; 117; hexdigit (c / 4096); hexdigit ((c / 256) mod 16);
   hexdigit ((c / 16) mod 16); hexdigit (c mod 16)].

(** One code unit that is not the first half of a surrogate pair: the
    short escapes for backspace, tab, line feed, form feed, carriage return,
    the quote and the backslash; a unicode escape for the other control
    characters and for a lone surrogate. *)
Definition escape_unit (c : N) : jsstring :=
  if c =? 8 then [92; 98]
  else if c =? 9 then [92; 116]
  else if c =? 10 then [92; 110]
  else if c =? 12 then [92; 102]
  else if c =? 13 then [92; 114]
  else if c =? 34 then [92; 34]
  else if c =? 92 then [92; 92]
  else if (c <? 32) || is_lead c || is_trail c then unicode_escape c
  else [c].

(** The characters between the quotes of [QuoteJSONString]: a surrogate pair
    goes through as it is, an unpaired surrogate is escaped. *)
Fixpoint quote_chars (s : jsstring) : jsstring :=
  match s with
  | [] => []
  | c :: r =>
      if is_lead c then
        match r with
        | d :: r' =>
            if is_trail d then c :: d :: quote_chars r'
            else unicode_escape c ++ quote_chars r
        | [] => unicode_escape c
        end
      else escape_unit c ++ quote_chars r
  end.

Definition quote (s : jsstring) : jsstring := 34 :: quote_chars s ++ [34].

Definition spaces (n : nat) : jsstring := repeat 32 n.

(** The lines of a non-empty array or object: every part on a line of its
    own at indentation [ind], separated by commas. *)
Fixpoint lines (ind : nat) (parts : list jsstring) : jsstring :=
  match parts with
  | [] => []
  | [p] => 10 :: spaces ind ++ p
  | p :: ps => 10 :: spaces ind ++ p ++ 44 :: lines ind ps
  end.

Fixpoint stringify_at (ind : nat) (v : json) {struct v} : jsstring :=
  match v with
  | JNull => lit "null"
  | JBool true => lit "true"
  | JBool false => lit "false"
  | JNum n => number_to_string n
  | JFrac text => text
  | JStr s => quote s
  | JArr [] => lit "[]"
  | JArr xs =>
      91 :: lines (2 + ind) (map (stringify_at (2 + ind)) xs)
         ++ 10 :: spaces ind ++ [93]
  | JObj [] => lit "{}"
  | JObj fs =>
      123 :: lines (2 + ind)
               (map (fun kv => quote (fst kv) ++ 58 :: 32 :: stringify_at (2 + ind) (snd kv)) fs)
          ++ 10 :: spaces ind ++ [125]
  end.

Definition JSON_stringify (v : json) : jsstring := stringify_at 0 v.

(** *** JSON.parse *)

Inductive presult (A : Type) : Type :=
| Parsed (a : A) (rest : jsstring)
| SyntaxError
| OutOfFuel.
Arguments Parsed {A} a rest.
Arguments SyntaxError {A}.
Arguments OutOfFuel {A}.

Definition presult_map {A B : Type} (f : A -> B) (p : presult A) : presult B :=
  match p with
  | Parsed a rest => Parsed (f a) rest
  | SyntaxError => SyntaxError
  | OutOfFuel => OutOfFuel
  end.

(** JSON white space: tab, line feed, carriage return, space. *)
Definition is_json_ws (c : N) : bool :=
  (c =? 9) || (c =? 10) || (c =? 13) || (c =? 32).

Fixpoint skip_ws (s : jsstring) : jsstring :=
  match s with
  | c :: r => if is_json_ws c then skip_ws r else s
  | [] => []
  end.

Definition hexval (c : N) : option N :=
  if (48 <=? c) && (c <=? 57) then Some (c - 48)
  else if (97 <=? c) && (c <=? 102) then Some (c - 87)
  else if (65 <=? c) && (c <=? 70) then Some (c - 55)
  else None.

Definition hex4 (a b c d : N) : option N :=
  match hexval a, hexval b, hexval c, hexval d with
  | Some x, Some y, Some z, Some w => Some (4096 * x + 256 * y + 16 * z + w)
  | _, _, _, _ => None
  end.

Definition simple_escape (e : N) : option N :=
  if e =? 34 then Some 34
  else if e =? 92 then Some 92
  else if e =? 47 then Some 47
  else if e =? 98 then Some 8
  else if e =? 102 then Some 12
  else if e =? 110 then Some 10
  else if e =? 114 then Some 13
  else if e =? 116 then Some 9
  else None.

Definition cons_fst (c : N) (p : option (jsstring * jsstring)) : option (jsstring * jsstring) :=
  match p with
  | Some (str, rest) => Some (c :: str, rest)
  | None => None
  end.

(** The characters of a string literal after its opening quote, up to and
    including the closing quote. *)
Fixpoint parse_chars (s : jsstring) : option (jsstring * jsstring) :=
  match s with
  | [] => None
  | c :: r =>
      if c =? 34 then Some ([], r)
      else if c =? 92 then
        match r with
        | e :: r1 =>
            if e =? 117 then
              match r1 with
              | h1 :: h2 :: h3 :: h4 :: r2 =>
                  match hex4 h1 h2 h3 h4 with
                  | Some u => cons_fst u (parse_chars r2)
                  | None => None
                  end
              | _ => None
              end
            else
              match simple_escape e with
              | Some u => cons_fst u (parse_chars r1)
              | None => None
              end
        | [] => None
        end
      else if c <? 32 then None
      else cons_fst c (parse_chars r)
  end.

Definition is_digit (c : N) : bool := (48 <=? c) && (c <=? 57).

Definition push_digit (c : N) (d : Decimal.uint) : Decimal.uint :=
  if c =? 48 then Decimal.D0 d
  else if c =? 49 then Decimal.D1 d
  else if c =? 50 then Decimal.D2 d
  else if c =? 51 then Decimal.D3 d
  else if c =? 52 then Decimal.D4 d
  else if c =? 53 then Decimal.D5 d
  else if c =? 54 then Decimal.D6 d
  else if c =? 55 then Decimal.D7 d
  else if c =? 56 then Decimal.D8 d
  else Decimal.D9 d.

Fixpoint read_digits (s : jsstring) : Decimal.uint * jsstring :=
  match s with
  | c :: r =>
      if is_digit c then
        let (d, r') := read_digits r in (push_digit c d, r')
      else (Decimal.Nil, s)
  | [] => (Decimal.Nil, [])
  end.

(** [0], or a digit from 1 to 9 followed by digits. *)
Definition read_int (s : jsstring) : option (Decimal.uint * jsstring) :=
  match s with
  | c :: r =>
      if c =? 48 then Some (Decimal.D0 Decimal.Nil, r)
      else if is_digit c then Some (read_digits s)
      else None
  | [] => None
  end.

Definition read_fraction (s : jsstring) : option (Decimal.uint * jsstring) :=
  match s with
  | c :: r =>
      if c =? 46 then
        match read_digits r with
        | (Decimal.Nil, _) => None
        | (d, r') => Some (d, r')
        end
      else Some (Decimal.Nil, s)
  | [] => Some (Decimal.Nil, s)
  end.

Definition read_sign (s : jsstring) : bool * jsstring :=
  match s with
  | c :: r => if c =? 45 then (true, r) else if c =? 43 then (false, r) else (false, s)
  | [] => (false, s)
  end.

Definition read_exponent (s : jsstring) : option (option Z * jsstring) :=
  match s with
  | c :: r =>
      if (c =? 101) || (c =? 69) then
        let (neg, r1) := read_sign r in
        match read_digits r1 with
        | (Decimal.Nil, _) => None
        | (d, r2) =>
            let x := Z.of_N (N.of_uint d) in
            Some (Some (if neg then (- x)%Z else x), r2)
        end
      else Some (None, s)
  | [] => Some (None, s)
  end.

(** The value of a literal: an integer where it denotes one. *)
Definition number_value (neg : bool) (i f : Decimal.uint) (e : option Z)
    (text : jsstring) : json :=
  let sign := fun z : Z => if neg then (- z)%Z else z in
  match f, e with
  | Decimal.Nil, None => JNum (sign (Z.of_N (N.of_uint i)))
  | _, _ =>
      let m := Z.of_N (N.of_uint (Decimal.app i f)) in
      let x := ((match e with Some x => x | None => 0 end)
                - Z.of_nat (Decimal.nb_digits f))%Z in
      if (0 <=? x)%Z then JNum (sign (m * 10 ^ x)%Z)
      else if (m mod 10 ^ (- x) =? 0)%Z then JNum (sign (m / 10 ^ (- x))%Z)
      else JFrac text
  end.

Definition parse_number (s : jsstring) : option (json * jsstring) :=
  let (neg, s1) :=
    match s with
    | c :: r => if c =? 45 then (true, r) else (false, s)
    | [] => (false, s)
    end in
  match read_int s1 with
  | None => None
  | Some (i, s2) =>
      match read_fraction s2 with
      | None => None
      | Some (f, s3) =>
          match read_exponent s3 with
          | None => None
          | Some (e, s4) =>
              Some (number_value neg i f e (firstn (length s - length s4) s), s4)
          end
      end
  end.

Fixpoint strip_prefix (p s : jsstring) : option jsstring :=
  match p, s with
  | [], _ => Some s
  | a :: p', b :: s' => if a =? b then strip_prefix p' s' else None
  | _ :: _, [] => None
  end.

Definition parse_literal (word : jsstring) (v : json) (s : jsstring) : presult json :=
  match strip_prefix word s with
  | Some r => Parsed v r
  | None => SyntaxError
  end.

(** *** Own properties of an object

    Keys that are array indices come first, in ascending order; the other
    keys follow in the order in which they were created. *)

Definition array_index (k : jsstring) : option N :=
  match k with
  | [] => None
  | c :: r =>
      if forallb is_digit k && (negb (c =? 48) || (length r =? 0)%nat) then
        let n := N.of_uint (fst (read_digits k)) in
        if n <? 4294967295 then Some n else None
      else None
  end.

Fixpoint obj_get (k : jsstring) (fs : list (jsstring * json)) : option json :=
  match fs with
  | [] => None
  | (k', v) :: r => if jsstring_eqb k k' then Some v else obj_get k r
  end.

Fixpoint obj_replace (k : jsstring) (v : json) (fs : list (jsstring * json))
    : list (jsstring * json) :=
  match fs with
  | [] => []
  | (k', v') :: r =>
      if jsstring_eqb k k' then (k', v) :: r else (k', v') :: obj_replace k v r
  end.

Fixpoint obj_insert_index (i : N) (k : jsstring) (v : json)
    (fs : list (jsstring * json)) : list (jsstring * json) :=
  match fs with
  | [] => [(k, v)]
  | (k', v') :: r =>
      match array_index k' with
      | Some j => if j <? i then (k', v') :: obj_insert_index i k v r else (k, v) :: fs
      | None => (k, v) :: fs
      end
  end.

(** Defining or assigning the own data property [k]. *)
Definition obj_define (k : jsstring) (v : json) (fs : list (jsstring * json))
    : list (jsstring * json) :=
  match obj_get k fs with
  | Some _ => obj_replace k v fs
  | None =>
      match array_index k with
      | Some i => obj_insert_index i k v fs
      | None => fs ++ [(k, v)]
      end
  end.

Fixpoint parse_value (fuel : nat) (s : jsstring) {struct fuel} : presult json :=
  match fuel with
  | O => OutOfFuel
  | S fuel' =>
      match skip_ws s with
      | [] => SyntaxError
      | c :: r =>
          if is_digit c || (c =? 45) then
            match parse_number (c :: r) with
            | Some (v, r') => Parsed v r'
            | None => SyntaxError
            end
          else if c =? 34 then
            match parse_chars r with
            | Some (str, r') => Parsed (JStr str) r'
            | None => SyntaxError
            end
          else if c =? 91 then
            match skip_ws r with
            | c2 :: r2 =>
                if c2 =? 93 then Parsed (JArr []) r2
                else presult_map JArr (parse_elements fuel' [] r)
            | [] => SyntaxError
            end
          else if c =? 123 then
            match skip_ws r with
            | c2 :: r2 =>
                if c2 =? 125 then Parsed (JObj []) r2
                else presult_map JObj (parse_members fuel' [] r)
            | [] => SyntaxError
            end
          else if c =? 116 then parse_literal (lit "true") (JBool true) (c :: r)
          else if c =? 102 then parse_literal (lit "false") (JBool false) (c :: r)
          else if c =? 110 then parse_literal (lit "null") JNull (c :: r)
          else SyntaxError
      end
  end

with parse_elements (fuel : nat) (acc : list json) (s : jsstring) {struct fuel}
    : presult (list json) :=
  match fuel with
  | O => OutOfFuel
  | S fuel' =>
      match parse_value fuel' s with
      | Parsed v r =>
          match skip_ws r with
          | c :: r' =>
              if c =? 44 then parse_elements fuel' (v :: acc) r'
              else if c =? 93 then Parsed (rev (v :: acc)) r'
              else SyntaxError
          | [] => SyntaxError
          end
      | SyntaxError => SyntaxError
      | OutOfFuel => OutOfFuel
      end
  end

with parse_members (fuel : nat) (acc : list (jsstring * json)) (s : jsstring)
    {struct fuel} : presult (list (jsstring * json)) :=
  match fuel with
  | O => OutOfFuel
  | S fuel' =>
      match skip_ws s with
      | c :: r =>
          if c =? 34 then
            match parse_chars r with
            | Some (k, r1) =>
                match skip_ws r1 with
                | c1 :: r2 =>
                    if c1 =? 58 then
                      match parse_value fuel' r2 with
                      | Parsed v r3 =>
                          match skip_ws r3 with
                          | c3 :: r4 =>
                              if c3 =? 44 then parse_members fuel' (obj_define k v acc) r4
                              else if c3 =? 125 then Parsed (obj_define k v acc) r4
                              else SyntaxError
                          | [] => SyntaxError
                          end
                      | SyntaxError => SyntaxError
                      | OutOfFuel => OutOfFuel
                      end
                    else SyntaxError
                | [] => SyntaxError
                end
            | None => SyntaxError
            end
          else SyntaxError
      | [] => SyntaxError
      end
  end.

(** The fuel is more than any text needs (see [parse_value_fuel]). *)
Definition parse_fuel (s : jsstring) : nat := S (2 * length s).

(** [None] is the [SyntaxError] that [JSON.parse] throws. *)
Definition JSON_parse (s : jsstring) : option json :=
  match parse_value (parse_fuel s) s with
  | Parsed v r => match skip_ws r with [] => Some v | _ :: _ => None end
  | SyntaxError => None
  | OutOfFuel => None
  end.

(** ** Memos *)

Record memo : Type := {
  memo_id : Z;
  memo_title : jsstring;
  memo_content : jsstring;
  memo_createdAt : jsstring;
  memo_updatedAt : jsstring
}.

(** The object literal of the handlers: [{ id, title, content, createdAt,
    updatedAt }], in this order. *)
Definition json_of_memo (m : memo) : json :=
  JObj [(lit "id", JNum (memo_id m));
        (lit "title", JStr (memo_title m));
        (lit "content", JStr (memo_content m));
        (lit "createdAt", JStr (memo_createdAt m));
        (lit "updatedAt", JStr (memo_updatedAt m))].

Definition json_of_memos (ms : list memo) : list json := map json_of_memo ms.

(** ** Errors, the log, replies *)

Inductive error : Type :=
| ErrCorrupt     (* Error('データファイルが破損しています。管理者に連絡してください。') *)
| ErrFormat      (* Error('データファイルの形式が不正です') *)
| ErrIO          (* an error of fs other than ENOENT, thrown on as it is *)
| ErrSave        (* Error('データの保存に失敗しました。') *)
| ErrType        (* TypeError: a property of null was read *)
| ErrNotInteger. (* an id that is not an integer: outside the numbers modelled *)

Inductive result (A : Type) : Type :=
| Ok (a : A)
| Throw (x : error).
Arguments Ok {A} a.
Arguments Throw {A} x.

Inductive log_entry : Type :=
| InfoNoDataFile     (* info  'データファイルが存在しません。新規作成します。' *)
| ErrorBadJson       (* error 'データファイルのJSONが不正です:' *)
| ErrorLoad          (* error 'データ読み込みエラー:' *)
| DebugFromCache     (* debug 'キャッシュからデータを返します' *)
| DebugFromFile      (* debug 'ファイルからデータを読み込みます' *)
| WarnBackup         (* warn  'バックアップの作成に失敗しました:' *)
| DebugSaved         (* debug 'データを保存しました' *)
| ErrorSave          (* error 'データ保存エラー:' *)
| ErrorRequest.      (* error, written by the error handler *)

Inductive message : Type :=
| MsgValidation      (* 'バリデーションエラー' *)
| MsgNotFound        (* 'メモが見つかりません' *)
| MsgServerError     (* 'サーバーエラーが発生しました。' *)
| MsgTitleRequired   (* 'タイトルが必要です' *)
| MsgContentRequired (* '内容が必要です' *)
| MsgInternal.       (* 'Internal Server Error' *)

Inductive payload : Type :=
| Json (v : json)
| ErrorBody (m : message).

Record reply : Type := Reply { code : nat; sent : payload }.

(** ** The process and its environment *)

Record config : Type := {
  cacheEnabled : bool;     (* CACHE_ENABLED !== 'false' *)
  cacheDuration : Z;       (* parseInt(CACHE_DURATION) || 5000 *)
  backupEnabled : bool     (* BACKUP_ENABLED === 'true' *)
}.

(** The two files and the module-level variables. *)
Record state : Type := {
  data_file : option jsstring;      (* DATA_FILE; [None]: it does not exist *)
  backup_file : option jsstring;    (* DATA_FILE.backup *)
  memosCache : option (list json);  (* [None]: null *)
  cacheTimestamp : option Z;        (* [None]: null *)
  lastId : Z;
  log : list log_entry              (* calls to fastify.log, latest first *)
}.

(** What one request reads from outside the process. *)
Record env : Type := {
  Date_now : Z;              (* Date.now() *)
  Date_iso : jsstring;       (* new Date().toISOString() *)
  readFile_fails : bool;     (* fs.readFile rejects, not with ENOENT *)
  copyFile_fails : bool;     (* fs.copyFile rejects *)
  writeFile_fails : bool     (* fs.writeFile rejects and leaves the file as it was *)
}.

Definition set_data_file (d : option jsstring) (st : state) : state :=
  {| data_file := d; backup_file := backup_file st; memosCache := memosCache st;
     cacheTimestamp := cacheTimestamp st; lastId := lastId st; log := log st |}.

Definition set_backup_file (d : option jsstring) (st : state) : state :=
  {| data_file := data_file st; backup_file := d; memosCache := memosCache st;
     cacheTimestamp := cacheTimestamp st; lastId := lastId st; log := log st |}.

Definition set_cache (c : option (list json)) (t : option Z) (st : state) : state :=
  {| data_file := data_file st; backup_file := backup_file st; memosCache := c;
     cacheTimestamp := t; lastId := lastId st; log := log st |}.

Definition set_lastId (n : Z) (st : state) : state :=
  {| data_file := data_file st; backup_file := backup_file st; memosCache := memosCache st;
     cacheTimestamp := cacheTimestamp st; lastId := n; log := log st |}.

Definition add_log (l : log_entry) (st : state) : state :=
  {| data_file := data_file st; backup_file := backup_file st; memosCache := memosCache st;
     cacheTimestamp := cacheTimestamp st; lastId := lastId st; log := l :: log st |}.

(** Computations that read and write the process state and may throw; a
    throw keeps the state reached so far. *)
Definition M (A : Type) : Type := state -> result A * state.

Definition ret {A : Type} (a : A) : M A := fun st => (Ok a, st).

Definition throw {A : Type} (x : error) : M A := fun st => (Throw x, st).

Definition bind {A B : Type} (m : M A) (k : A -> M B) : M B :=
  fun st =>
    match m st with
    | (Ok a, st') => k a st'
    | (Throw x, st') => (Throw x, st')
    end.

Definition lift {A : Type} (r : result A) : M A := fun st => (r, st).

Definition modify (f : state -> state) : M unit := fun st => (Ok tt, f st).

Declare Scope js_scope.
Delimit Scope js_scope with js.
Notation "x <- m ;; k" := (bind m (fun x => k))
  (at level 61, m at next level, right associativity) : js_scope.
Notation "m ;;; k" := (bind m (fun _ => k))
  (at level 61, right associativity) : js_scope.

Local Open Scope js_scope.

(** ** Arrays and property access *)

Fixpoint update_at {A : Type} (i : nat) (f : A -> A) (l : list A) : list A :=
  match l, i with
  | [], _ => []
  | x :: r, O => f x :: r
  | x :: r, S i' => x :: update_at i' f r
  end.

(** [l.splice(i, 1)] leaves this list in [l]. *)
Fixpoint remove_at {A : Type} (i : nat) (l : list A) : list A :=
  match l, i with
  | [], _ => []
  | _ :: r, O => r
  | x :: r, S i' => x :: remove_at i' r
  end.

(** [m.k] for a value read from JSON and a key no prototype defines:
    [None] is undefined, reading a property of null throws. *)
Definition get_prop (k : jsstring) (m : json) : result (option json) :=
  match m with
  | JNull => Throw ErrType
  | JObj fs => Ok (obj_get k fs)
  | _ => Ok None
  end.

(** [m.k = v]: an assignment to a property of a primitive is ignored. *)
Definition set_prop (k : jsstring) (v : json) (m : json) : json :=
  match m with
  | JObj fs => JObj (obj_define k v fs)
  | _ => m
  end.

(** [v === n] for a number [n]; [None] for [n] is NaN, which equals nothing. *)
Definition is_number (n : option Z) (v : option json) : bool :=
  match n, v with
  | Some n, Some (JNum x) => (x =? n)%Z
  | _, _ => false
  end.

(** [memos.findIndex(m => m.id === id)]; [None] is -1. *)
Fixpoint findIndex_id (id : option Z) (memos : list json) : result (option nat) :=
  match memos with
  | [] => Ok None
  | m :: rest =>
      match get_prop (lit "id") m with
      | Throw x => Throw x
      | Ok v =>
          if is_number id v then Ok (Some O)
          else
            match findIndex_id id rest with
            | Ok (Some i) => Ok (Some (S i))
            | other => other
            end
      end
  end.

(** [memos.map(m => m.id)], for ids that are integers.  With an id that is
    missing or is no number, [Math.max] goes on with NaN or with a converted
    value; this is outside the numbers modelled, [ErrNotInteger] marks it,
    and the statements that pass through here suppose a file of memos
    ([holds]). *)
Fixpoint ids_of (memos : list json) : result (list Z) :=
  match memos with
  | [] => Ok []
  | m :: rest =>
      match get_prop (lit "id") m with
      | Throw x => Throw x
      | Ok (Some (JNum n)) =>
          match ids_of rest with
          | Ok ns => Ok (n :: ns)
          | Throw x => Throw x
          end
      | Ok _ => Throw ErrNotInteger
      end
  end.

(** [Math.max(x, ...xs)]. *)
Definition Math_max (x : Z) (xs : list Z) : Z := fold_left Z.max xs x.

(** A number is a double: the exact result of an addition is rounded to 53
    significant bits, a tie going to the even neighbour.  [round53 n] is the
    integer the double holds for the exact integer [n] (of magnitude below
    2^1024): [n] itself up to 2^53, the nearest multiple of a power of two
    beyond. *)
Definition round53 (n : Z) : Z :=
  let a := Z.abs n in
  if (a <=? 2 ^ 53)%Z then n
  else
    let k := (Z.log2 a - 52)%Z in
    let q := (a / 2 ^ k)%Z in
    let r := (a mod 2 ^ k)%Z in
    let half := (2 ^ (k - 1))%Z in
    let q' :=
      if (r <? half)%Z then q
      else if (half <? r)%Z then (q + 1)%Z
      else if Z.even q then q else (q + 1)%Z in
    (Z.sgn n * (q' * 2 ^ k))%Z.

(** [x + 1] and [x - 1] on numbers. *)
Definition js_succ (n : Z) : Z := round53 (n + 1)%Z.

Definition js_pred (n : Z) : Z := round53 (n - 1)%Z.

(** ** The file system *)

Inductive fs_error : Type :=
| ENOENT
| EFAIL.

Definition readFile (e : env) (st : state) : fs_error + jsstring :=
  if readFile_fails e then inl EFAIL
  else
    match data_file st with
    | Some d => inr d
    | None => inl ENOENT
    end.

(** [fs.copyFile(DATA_FILE, DATA_FILE + '.backup')]; [None]: it rejects. *)
Definition copyFile (e : env) (st : state) : option state :=
  if copyFile_fails e then None
  else
    match data_file st with
    | Some d => Some (set_backup_file (Some d) st)
    | None => None
    end.

(** ** Validation schemas *)

Record body : Type := { title : jsstring; content : jsstring }.

(** The length of a string the way the schema validator counts it: in code
    points, a surrogate pair being one. *)
Fixpoint ucs2length (s : jsstring) : nat :=
  match s with
  | [] => O
  | c :: r =>
      S (if is_lead c then
           match r with
           | d :: r' => if is_trail d then ucs2length r' else ucs2length r
           | [] => O
           end
         else ucs2length r)
  end.

(** pattern: '^[^<>]*$' *)
Definition no_angle_bracket (s : jsstring) : bool :=
  forallb (fun c => negb ((c =? 60) || (c =? 62))) s.

Definition memoBodySchema (b : body) : bool :=
  (1 <=? ucs2length (title b))%nat && (ucs2length (title b) <=? 200)%nat
  && no_angle_bracket (title b)
  && (1 <=? ucs2length (content b))%nat && (ucs2length (content b) <=? 5000)%nat.

(** pattern: '^[0-9]+$' *)
Definition idParamSchema (id : jsstring) : bool :=
  match id with
  | [] => false
  | _ :: _ => forallb is_digit id
  end.

(** The value of the longest prefix of hexadecimal digits, if there is one. *)
Fixpoint read_hex (acc : option N) (s : jsstring) : option N :=
  match s with
  | c :: r =>
      match hexval c with
      | Some d => read_hex (Some (16 * (match acc with Some a => a | None => 0 end) + d)) r
      | None => acc
      end
  | [] => acc
  end.

Definition read_decimal (s : jsstring) : option N :=
  match read_digits s with
  | (Decimal.Nil, _) => None
  | (d, _) => Some (N.of_uint d)
  end.

(** [parseInt(s)] without a radix: leading white space, a sign, [0x] or [0X]
    for base sixteen, then the longest prefix of digits; [None] is NaN. *)
Definition parseInt (s : jsstring) : option Z :=
  let (neg, s1) := read_sign (trimStart s) in
  let magnitude :=
    match s1 with
    | c :: x :: r =>
        if (c =? 48) && ((x =? 120) || (x =? 88)) then read_hex None r
        else read_decimal s1
    | _ => read_decimal s1
    end in
  match magnitude with
  | Some n => Some (if neg then (- Z.of_N n)%Z else Z.of_N n)
  | None => None
  end.

(** ** The improved server *)

Inductive request : Type :=
| GetMemos
| PostMemo (b : body)
| PutMemo (id : jsstring) (b : body)
| DeleteMemo (id : jsstring).

Section Improved.

Variable cfg : config.

Definition clearCache (st : state) : state := set_cache None None st.

Definition loadData (e : env) : M (list json) :=
  fun st =>
    match readFile e st with
    | inr data =>
        match JSON_parse data with
        | Some (JArr parsedData) => (Ok parsedData, st)
        | Some _ => (Throw ErrFormat, add_log ErrorLoad st)
        | None => (Throw ErrCorrupt, add_log ErrorBadJson st)
        end
    | inl ENOENT => (Ok [], add_log InfoNoDataFile st)
    | inl EFAIL => (Throw ErrIO, add_log ErrorLoad st)
    end.

(** [memosCache && cacheTimestamp && (now - cacheTimestamp < cacheDuration)]:
    an array is truthy, a number is truthy unless it is 0. *)
Definition cache_hit (now : Z) (st : state) : option (list json) :=
  match memosCache st, cacheTimestamp st with
  | Some c, Some t =>
      if negb (t =? 0)%Z && (now - t <? cacheDuration cfg)%Z then Some c else None
  | _, _ => None
  end.

Definition loadDataWithCache (e : env) : M (list json) :=
  fun st =>
    if negb (cacheEnabled cfg) then loadData e st
    else
      match cache_hit (Date_now e) st with
      | Some c => (Ok c, add_log DebugFromCache st)
      | None =>
          (memos <- loadData e ;;
           modify (set_cache (Some memos) (Some (Date_now e))) ;;;
           ret memos) (add_log DebugFromFile st)
      end.

(** The inner try of [saveData]: a copy that fails is logged, nothing more. *)
Definition backup (e : env) (st : state) : state :=
  if backupEnabled cfg then
    match copyFile e st with
    | Some st' => st'
    | None => add_log WarnBackup st
    end
  else st.

Definition saveData (e : env) (data : list json) : M unit :=
  fun st =>
    let st1 := backup e st in
    if writeFile_fails e then (Throw ErrSave, add_log ErrorSave st1)
    else
      (Ok tt,
       add_log DebugSaved
         (clearCache (set_data_file (Some (JSON_stringify (JArr data))) st1))).

Definition initializeLastId (e : env) : M unit :=
  memos <- loadData e ;;
  match memos with
  | [] => ret tt
  | _ :: _ =>
      ids <- lift (ids_of memos) ;;
      match ids with
      | x :: xs => modify (set_lastId (Math_max x xs))
      | [] => ret tt
      end
  end.

(** [return ++lastId] *)
Definition getNextId : M Z :=
  fun st => (Ok (js_succ (lastId st)), set_lastId (js_succ (lastId st)) st).

(** The error handler set with [setErrorHandler]: a thrown [Error] has no
    status code and is answered with 500. *)
Definition errorHandler (x : error) (st : state) : reply * state :=
  (Reply 500 (ErrorBody MsgServerError), add_log ErrorRequest st).

(** The same handler on a schema violation. *)
Definition validationError (st : state) : reply * state :=
  (Reply 400 (ErrorBody MsgValidation), add_log ErrorRequest st).

Definition handle (m : M reply) (st : state) : reply * state :=
  match m st with
  | (Ok r, st') => (r, st')
  | (Throw x, st') => errorHandler x st'
  end.

(** GET /api/memos *)
Definition get_memos (e : env) : state -> reply * state :=
  handle (memos <- loadDataWithCache e ;; ret (Reply 200 (Json (JArr memos)))).

(** POST /api/memos *)
Definition post_memo (e : env) (b : body) : state -> reply * state :=
  if negb (memoBodySchema b) then validationError
  else
    handle
      (memos <- loadData e ;;
       newId <- getNextId ;;
       let now := Date_iso e in
       let newMemo :=
         json_of_memo {| memo_id := newId;
                         memo_title := trim (title b);
                         memo_content := trim (content b);
                         memo_createdAt := now;
                         memo_updatedAt := now |} in
       saveData e (memos ++ [newMemo]) ;;;
       ret (Reply 201 (Json newMemo))).

(** PUT /api/memos/:id *)
Definition put_memo (e : env) (idParam : jsstring) (b : body) : state -> reply * state :=
  if negb (idParamSchema idParam && memoBodySchema b) then validationError
  else
    handle
      (let id := parseInt idParam in
       memos <- loadData e ;;
       memoIndex <- lift (findIndex_id id memos) ;;
       match memoIndex with
       | None => ret (Reply 404 (ErrorBody MsgNotFound))
       | Some i =>
           let memos' :=
             update_at i
               (fun m =>
                  set_prop (lit "updatedAt") (JStr (Date_iso e))
                    (set_prop (lit "content") (JStr (trim (content b)))
                       (set_prop (lit "title") (JStr (trim (title b))) m)))
               memos in
           saveData e memos' ;;;
           ret (Reply 200 (Json (nth i memos' JNull)))
       end).

(** DELETE /api/memos/:id *)
Definition delete_memo (e : env) (idParam : jsstring) : state -> reply * state :=
  if negb (idParamSchema idParam) then validationError
  else
    handle
      (let id := parseInt idParam in
       memos <- loadData e ;;
       memoIndex <- lift (findIndex_id id memos) ;;
       match memoIndex with
       | None => ret (Reply 404 (ErrorBody MsgNotFound))
       | Some i =>
           let deletedMemo := nth i memos JNull in
           saveData e (remove_at i memos) ;;;
           deletedId <- lift (get_prop (lit "id") deletedMemo) ;;
           (fun st =>
              if is_number (Some (lastId st)) deletedId
              then (Ok tt, set_lastId (js_pred (lastId st)) st)
              else (Ok tt, st)) ;;;
           ret (Reply 200 (Json deletedMemo))
       end).

Definition step (e : env) (rq : request) : state -> reply * state :=
  match rq with
  | GetMemos => get_memos e
  | PostMemo b => post_memo e b
  | PutMemo id b => put_memo e id b
  | DeleteMemo id => delete_memo e id
  end.

(** Requests served one after the other. *)
Fixpoint run (evs : list (env * request)) (st : state) : list reply * state :=
  match evs with
  | [] => ([], st)
  | (e, rq) :: rest =>
      let (r, st1) := step e rq st in
      let (rs, st2) := run rest st1 in
      (r :: rs, st2)
  end.

(** [start]: the counter is initialised before the server listens; [None]
    is [process.exit(1)]. *)
Definition start (e : env) (st : state) : option state :=
  match initializeLastId e st with
  | (Ok _, st') => Some st'
  | (Throw _, _) => None
  end.

End Improved.

(** A process that has just been launched over the given files. *)
Definition fresh (data backup : option jsstring) : state :=
  {| data_file := data; backup_file := backup; memosCache := None;
     cacheTimestamp := None; lastId := 0%Z; log := [] |}.

(** ** The basic server (index.js) *)

Module Basic.

(** Whatever goes wrong, the read or [JSON.parse], the result is []. *)
Definition loadData (e : env) : M json :=
  fun st =>
    match readFile e st with
    | inr data =>
        match JSON_parse data with
        | Some v => (Ok v, st)
        | None => (Ok (JArr []), st)
        end
    | inl _ => (Ok (JArr []), st)
    end.

Definition saveData (e : env) (data : list json) : M unit :=
  fun st =>
    if writeFile_fails e then (Throw ErrIO, st)
    else (Ok tt, set_data_file (Some (JSON_stringify (JArr data))) st).

(** The array methods the handlers call exist on arrays only. *)
Definition as_array (v : json) : result (list json) :=
  match v with
  | JArr xs => Ok xs
  | _ => Throw ErrType
  end.

(** [!s || s.trim() === ''] *)
Definition blank (s : jsstring) : bool :=
  match s with
  | [] => true
  | _ :: _ => match trim s with [] => true | _ :: _ => false end
  end.

(** Every handler catches what it throws and answers 500. *)
Definition handle (m : M reply) (st : state) : reply * state :=
  match m st with
  | (Ok r, st') => (r, st')
  | (Throw _, st') => (Reply 500 (ErrorBody MsgInternal), add_log ErrorRequest st')
  end.

Definition get_memos (e : env) : state -> reply * state :=
  handle (memos <- loadData e ;; ret (Reply 200 (Json memos))).

Definition post_memo (e : env) (b : body) : state -> reply * state :=
  if blank (title b) then fun st => (Reply 400 (ErrorBody MsgTitleRequired), st)
  else if blank (content b) then fun st => (Reply 400 (ErrorBody MsgContentRequired), st)
  else
    handle
      (loaded <- loadData e ;;
       memos <- lift (as_array loaded) ;;
       ids <- lift (ids_of memos) ;;
       let newId := match ids with x :: xs => js_succ (Math_max x xs) | [] => 1%Z end in
       let now := Date_iso e in
       let newMemo :=
         json_of_memo {| memo_id := newId;
                         memo_title := trim (title b);
                         memo_content := trim (content b);
                         memo_createdAt := now;
                         memo_updatedAt := now |} in
       saveData e (memos ++ [newMemo]) ;;;
       ret (Reply 201 (Json newMemo))).

Definition put_memo (e : env) (idParam : jsstring) (b : body) : state -> reply * state :=
  if blank (title b) then fun st => (Reply 400 (ErrorBody MsgTitleRequired), st)
  else if blank (content b) then fun st => (Reply 400 (ErrorBody MsgContentRequired), st)
  else
    handle
      (let id := parseInt idParam in
       loaded <- loadData e ;;
       memos <- lift (as_array loaded) ;;
       memoIndex <- lift (findIndex_id id memos) ;;
       match memoIndex with
       | None => ret (Reply 404 (ErrorBody MsgNotFound))
       | Some i =>
           let memos' :=
             update_at i
               (fun m =>
                  set_prop (lit "updatedAt") (JStr (Date_iso e))
                    (set_prop (lit "content") (JStr (trim (content b)))
                       (set_prop (lit "title") (JStr (trim (title b))) m)))
               memos in
           saveData e memos' ;;;
           ret (Reply 200 (Json (nth i memos' JNull)))
       end).

Definition delete_memo (e : env) (idParam : jsstring) : state -> reply * state :=
  handle
    (let id := parseInt idParam in
     loaded <- loadData e ;;
     memos <- lift (as_array loaded) ;;
     memoIndex <- lift (findIndex_id id memos) ;;
     match memoIndex with
     | None => ret (Reply 404 (ErrorBody MsgNotFound))
     | Some i =>
         let deletedMemo := nth i memos JNull in
         saveData e (remove_at i memos) ;;;
         ret (Reply 200 (Json deletedMemo))
     end).

End Basic.

(** ** Escaping for the page *)

(** [s.replace(/c/g, by)] for a pattern that is the one character [c]. *)
Fixpoint replace_all (c : N) (by_ : jsstring) (s : jsstring) : jsstring :=
  match s with
  | [] => []
  | x :: r => (if x =? c then by_ else [x]) ++ replace_all c by_ r
  end.

(** The five replacements of [escapeHtml], in the order of the source: the
    ampersand first, then the angle brackets, the quotation mark (34) and
    the apostrophe (39). *)
Definition escapeHtml_string (unsafe : jsstring) : jsstring :=
  replace_all 39 (lit "&#039;")
    (replace_all 34 (lit "&quot;")
       (replace_all 62 (lit "&gt;")
          (replace_all 60 (lit "&lt;")
             (replace_all 38 (lit "&amp;") unsafe)))).

(** [escapeHtml]: what is not a string is returned as it is. *)
Definition escapeHtml (unsafe : json) : json :=
  match unsafe with
  | JStr s => JStr (escapeHtml_string s)
  | _ => unsafe
  end.

(** ** The memo list of the page *)

(** The UTF-16 code units of a text given by its UTF-8 bytes, the encoding
    of the source files. *)
Fixpoint utf16_of_utf8 (bytes : list N) : jsstring :=
  match bytes with
  | [] => []
  | b0 :: r0 =>
      if b0 <? 128 then b0 :: utf16_of_utf8 r0
      else
        match r0 with
        | [] => []
        | b1 :: r1 =>
            if b0 <? 224 then ((b0 - 192) * 64 + (b1 - 128)) :: utf16_of_utf8 r1
            else
              match r1 with
              | [] => []
              | b2 :: r2 =>
                  if b0 <? 240 then
                    ((b0 - 224) * 4096 + (b1 - 128) * 64 + (b2 - 128)) :: utf16_of_utf8 r2
                  else
                    match r2 with
                    | [] => []
                    | b3 :: r3 =>
                        let cp := (b0 - 240) * 262144 + (b1 - 128) * 4096
                                  + (b2 - 128) * 64 + (b3 - 128) - 65536 in
                        (55296 + cp / 1024) :: (56320 + cp mod 1024) :: utf16_of_utf8 r3
                    end
              end
        end
  end.

(** The fixed text of a template.  In these literals an apostrophe stands
    for the quotation mark of the source; the fixed text of the templates
    has no apostrophe of its own. *)
Definition html (s : string) : jsstring :=
  map (fun c => if c =? 39 then 34 else c)
      (utf16_of_utf8 (map N_of_ascii (list_ascii_of_string s))).
Arguments html s%_string.

(** The part of the page that depends on the memos: the template the main
    page maps over the collection, for memos as the handlers store them.
    Title and content are strings there, so that [escapeHtml] is
    [escapeHtml_string] on them, and the id is an integer, written as
    [number_to_string] has it.  [toLocaleString s] is
    [new Date(s).toLocaleString('ja-JP')], which depends on the time zone of
    the server. *)
Section Page.

Variable toLocaleString : jsstring -> jsstring.

Definition memo_item_html (m : memo) : jsstring :=
  html "
                    <div class='memo-item' data-id='"
  ++ number_to_string (memo_id m)
  ++ html "'>
                        <div class='memo-title'>"
  ++ escapeHtml_string (memo_title m)
  ++ html "</div>
                        <div class='memo-content'>"
  ++ escapeHtml_string (memo_content m)
  ++ html "</div>
                        <div class='memo-meta'>
                            <span>📅 作成: "
  ++ toLocaleString (memo_createdAt m)
  ++ html "</span>
                            "
  ++ (if jsstring_eqb (memo_updatedAt m) (memo_createdAt m) then []
      else html "<span>🔄 更新: " ++ toLocaleString (memo_updatedAt m) ++ html "</span>")
  ++ html "
                        </div>
                        <div class='memo-actions'>
                            <button class='edit' onclick='toggleEdit("
  ++ number_to_string (memo_id m)
  ++ html ")'>✏️ 編集</button>
                            <button class='delete' onclick='deleteMemo("
  ++ number_to_string (memo_id m)
  ++ html ")'>🗑️ 削除</button>
                        </div>
                        <div class='edit-form' id='edit-"
  ++ number_to_string (memo_id m)
  ++ html "'>
                            <h3>メモを編集</h3>
                            <div class='form-group'>
                                <label>タイトル: <small>(最大200文字)</small></label>
                                <input type='text' id='editTitle-"
  ++ number_to_string (memo_id m)
  ++ html "' value='"
  ++ escapeHtml_string (memo_title m)
  ++ html "' maxlength='200'>
                            </div>
                            <div class='form-group'>
                                <label>内容: <small>(最大5000文字)</small></label>
                                <textarea id='editContent-"
  ++ number_to_string (memo_id m)
  ++ html "' maxlength='5000'>"
  ++ escapeHtml_string (memo_content m)
  ++ html "</textarea>
                            </div>
                            <button onclick='updateMemo("
  ++ number_to_string (memo_id m)
  ++ html ")'>💾 更新</button>
                            <button class='cancel' onclick='toggleEdit("
  ++ number_to_string (memo_id m)
  ++ html ")'>❌ キャンセル</button>
                        </div>
                    </div>
                  ".

(** [memos.length === 0 ? '...' : memos.map(...).join('')] *)
Definition memo_list_html (memos : list memo) : jsstring :=
  match memos with
  | [] =>
      html "<div class='no-memos'>まだメモがありません。上のフォームから最初のメモを作成しましょう！</div>"
  | _ :: _ => List.concat (map memo_item_html memos)
  end.

End Page.

(** The same template in the basic server: title and content are put into
    the page as they are. *)
Module BasicPage.

Section Page.

Variable toLocaleString : jsstring -> jsstring.

Definition memo_item_html (m : memo) : jsstring :=
  html "
                    <div class='memo-item' data-id='"
  ++ number_to_string (memo_id m)
  ++ html "'>
                        <div class='memo-title'>"
  ++ memo_title m
  ++ html "</div>
                        <div class='memo-content'>"
  ++ memo_content m
  ++ html "</div>
                        <div class='memo-meta'>
                            <span>📅 作成: "
  ++ toLocaleString (memo_createdAt m)
  ++ html "</span>
                            "
  ++ (if jsstring_eqb (memo_updatedAt m) (memo_createdAt m) then []
      else html "<span>🔄 更新: " ++ toLocaleString (memo_updatedAt m) ++ html "</span>")
  ++ html "
                        </div>
                        <div class='memo-actions'>
                            <button class='edit' onclick='toggleEdit("
  ++ number_to_string (memo_id m)
  ++ html ")'>✏️ 編集</button>
                            <button class='delete' onclick='deleteMemo("
  ++ number_to_string (memo_id m)
  ++ html ")'>🗑️ 削除</button>
                        </div>
                        <div class='edit-form' id='edit-"
  ++ number_to_string (memo_id m)
  ++ html "'>
                            <h3>メモを編集</h3>
                            <div class='form-group'>
                                <label>タイトル:</label>
                                <input type='text' id='editTitle-"
  ++ number_to_string (memo_id m)
  ++ html "' value='"
  ++ memo_title m
  ++ html "'>
                            </div>
                            <div class='form-group'>
                                <label>内容:</label>
                                <textarea id='editContent-"
  ++ number_to_string (memo_id m)
  ++ html "'>"
  ++ memo_content m
  ++ html "</textarea>
                            </div>
                            <button onclick='updateMemo("
  ++ number_to_string (memo_id m)
  ++ html ")'>💾 更新</button>
                            <button class='cancel' onclick='toggleEdit("
  ++ number_to_string (memo_id m)
  ++ html ")'>❌ キャンセル</button>
                        </div>
                    </div>
                  ".

End Page.

End BasicPage.

(** ** The script of the page *)

(** What the script of the improved page sends to the API, [None] when it
    shows a message and sends nothing.  The arguments of [submit_form] and
    the last two of [updateMemo] are the values of the input fields; the
    argument of [deleteMemo] besides the id is the answer to [confirm]. *)
Definition submit_form (newTitle newContent : jsstring) : option request :=
  match trim newTitle, trim newContent with
  | _ :: _, _ :: _ =>
      Some (PostMemo {| title := trim newTitle; content := trim newContent |})
  | _, _ => None
  end.

Definition updateMemo (id : Z) (editTitle editContent : jsstring) : option request :=
  match trim editTitle, trim editContent with
  | _ :: _, _ :: _ =>
      Some (PutMemo (number_to_string id)
              {| title := trim editTitle; content := trim editContent |})
  | _, _ => None
  end.

Definition deleteMemo (id : Z) (confirmed : bool) : option request :=
  if confirmed then Some (DeleteMemo (number_to_string id)) else None.

(** ** The configuration *)

(** [process.env]: the value of a variable, [None] when it is not set. *)
Definition process_env : Type := jsstring -> option jsstring.

(** [parseInt(v) || d]: NaN and 0 are falsy, and a variable that is not set
    is read as the text undefined, which is no number. *)
Definition parseInt_or (v : option jsstring) (d : Z) : Z :=
  match v with
  | Some s =>
      match parseInt s with
      | Some n => if (n =? 0)%Z then d else n
      | None => d
      end
  | None => d
  end.

(** [v === s] for a string [s]. *)
Definition is_string (v : option jsstring) (s : jsstring) : bool :=
  match v with
  | Some x => jsstring_eqb x s
  | None => false
  end.

(** The fields of [config] the handlers read, and the variable [saveData]
    reads at every call. *)
Definition config_of_env (penv : process_env) : config :=
  {| cacheEnabled := negb (is_string (penv (lit "CACHE_ENABLED")) (lit "false"));
     cacheDuration := parseInt_or (penv (lit "CACHE_DURATION")) 5000%Z;
     backupEnabled := is_string (penv (lit "BACKUP_ENABLED")) (lit "true") |}.

(** [config.port] *)
Definition port_of_env (penv : process_env) : Z :=
  parseInt_or (penv (lit "PORT")) 3000%Z.

(** ** Notions the statements use *)

(** What may follow a value in the text [JSON_stringify] writes. *)
Definition ends_value (rest : jsstring) : Prop :=
  match rest with
  | [] => True
  | c :: _ => c = 44 \/ c = 10
  end.

Section json_induction.

Variable P : json -> Prop.
Hypothesis P_null : P JNull.
Hypothesis P_bool : forall b, P (JBool b).
Hypothesis P_num : forall n, P (JNum n).
Hypothesis P_frac : forall t, P (JFrac t).
Hypothesis P_str : forall s, P (JStr s).
Hypothesis P_arr : forall xs, Forall P xs -> P (JArr xs).
Hypothesis P_obj : forall fs, Forall (fun kv => P (snd kv)) fs -> P (JObj fs).

Fixpoint json_ind (v : json) : P v :=
  match v with
  | JNull => P_null
  | JBool b => P_bool b
  | JNum n => P_num n
  | JFrac t => P_frac t
  | JStr s => P_str s
  | JArr xs =>
      P_arr xs
        ((fix all (l : list json) : Forall P l :=
            match l with
            | [] => Forall_nil P
            | x :: r => Forall_cons x (json_ind x) (all r)
            end) xs)
  | JObj fs =>
      P_obj fs
        ((fix all (l : list (jsstring * json)) : Forall (fun kv => P (snd kv)) l :=
            match l with
            | [] => Forall_nil _
            | kv :: r => Forall_cons kv (json_ind (snd kv)) (all r)
            end) fs)
  end.

End json_induction.

(** The values [JSON.parse] gives back as they were written: no number
    outside the integers, and objects whose keys are distinct and none an
    array index. *)
#[local] Unset Elimination Schemes.
Inductive canonical : json -> Prop :=
| canonical_null : canonical JNull
| canonical_bool b : canonical (JBool b)
| canonical_num n : canonical (JNum n)
| canonical_str s : canonical (JStr s)
| canonical_arr xs : Forall canonical xs -> canonical (JArr xs)
| canonical_obj fs :
    NoDup (map fst fs) ->
    Forall (fun kv => array_index (fst kv) = None /\ canonical (snd kv)) fs ->
    canonical (JObj fs).
#[local] Set Elimination Schemes.

Fixpoint size (v : json) : nat :=
  match v with
  | JArr xs => S (fold_right (fun x n => S (size x + n)) O xs)
  | JObj fs => S (fold_right (fun kv n => S (size (snd kv) + n)) O fs)
  | _ => 1
  end.

(** The first character of a written value tells what it is. *)
Definition opens_value (c : N) : Prop :=
  is_json_ws c = false /\ c <> 93 /\ c <> 125.

(** What follows the last line of an array or an object. *)
Definition closing (ind : nat) (bracket : N) (rest : jsstring) : jsstring :=
  10 :: spaces ind ++ bracket :: rest.

Definition reads_back (x : json) : Prop :=
  forall fuel ind rest, (size x <= fuel)%nat -> ends_value rest ->
    parse_value fuel (stringify_at ind x ++ rest) = Parsed x rest.

Definition member (ind : nat) (kv : jsstring * json) : jsstring :=
  quote (fst kv) ++ 58 :: 32 :: stringify_at ind (snd kv).

(** Whatever is parsed consumes at least one character. *)
Definition consumes (fuel : nat) : Prop :=
  (forall s v r, parse_value fuel s = Parsed v r -> (length r < length s)%nat)
  /\ (forall acc s l r, parse_elements fuel acc s = Parsed l r -> (length r < length s)%nat)
  /\ (forall acc s l r, parse_members fuel acc s = Parsed l r -> (length r < length s)%nat).

(** With fuel beyond twice the length of the text, the parser never stops
    for lack of fuel. *)
Definition enough (fuel : nat) : Prop :=
  (forall s, (2 * length s < fuel)%nat -> parse_value fuel s <> OutOfFuel)
  /\ (forall acc s, (2 * length s + 1 < fuel)%nat -> parse_elements fuel acc s <> OutOfFuel)
  /\ (forall acc s, (2 * length s < fuel)%nat -> parse_members fuel acc s <> OutOfFuel).

(** More fuel does not change a result that was reached. *)
Definition stable (fuel : nat) : Prop :=
  forall fuel', (fuel <= fuel')%nat ->
    (forall s, parse_value fuel s <> OutOfFuel -> parse_value fuel' s = parse_value fuel s)
    /\ (forall acc s, parse_elements fuel acc s <> OutOfFuel ->
          parse_elements fuel' acc s = parse_elements fuel acc s)
    /\ (forall acc s, parse_members fuel acc s <> OutOfFuel ->
          parse_members fuel' acc s = parse_members fuel acc s).

(** The first position of a memo with this id. *)
Fixpoint index_of (id : Z) (ms : list memo) : option nat :=
  match ms with
  | [] => None
  | m :: rest =>
      if (memo_id m =? id)%Z then Some O
      else match index_of id rest with Some i => Some (S i) | None => None end
  end.

(** The data file holds the collection [ms]: it is read as [ms], or it does
    not exist and [ms] is empty. *)
Definition holds (st : state) (ms : list memo) : Prop :=
  match data_file st with
  | Some text => JSON_parse text = Some (JArr (json_of_memos ms))
  | None => ms = []
  end.

Definition memo_of_json (v : json) : option memo :=
  match v with
  | JObj fs =>
      match obj_get (lit "id") fs, obj_get (lit "title") fs, obj_get (lit "content") fs,
            obj_get (lit "createdAt") fs, obj_get (lit "updatedAt") fs with
      | Some (JNum i), Some (JStr t), Some (JStr c), Some (JStr ca), Some (JStr ua) =>
          Some {| memo_id := i; memo_title := t; memo_content := c;
                  memo_createdAt := ca; memo_updatedAt := ua |}
      | _, _, _, _, _ => None
      end
  | _ => None
  end.

(** The three assignments of the update handler, on a memo. *)
Definition edited (e : env) (b : body) (m : memo) : memo :=
  {| memo_id := memo_id m;
     memo_title := trim (title b);
     memo_content := trim (content b);
     memo_createdAt := memo_createdAt m;
     memo_updatedAt := Date_iso e |}.

(** The memo the create handler builds when the counter stands at [last]. *)
Definition created (e : env) (b : body) (last : Z) : memo :=
  {| memo_id := js_succ last;
     memo_title := trim (title b);
     memo_content := trim (content b);
     memo_createdAt := Date_iso e;
     memo_updatedAt := Date_iso e |}.

(** What one request does to the collection in the file and to the counter,
    and what it answers. *)
Inductive effect (e : env) (last : Z) (ms : list memo)
    : request -> reply -> list memo -> Z -> Prop :=
| effect_read r :
    code r = 200%nat \/ code r = 500%nat ->
    effect e last ms GetMemos r ms last
| effect_refused rq r :
    rq <> GetMemos -> code r = 400%nat \/ code r = 404%nat \/ code r = 500%nat ->
    effect e last ms rq r ms last
| effect_skipped b r :
    code r = 500%nat ->
    effect e last ms (PostMemo b) r ms (js_succ last)
| effect_created b :
    effect e last ms (PostMemo b)
      (Reply 201 (Json (json_of_memo (created e b last))))
      (ms ++ [created e b last]) (js_succ last)
| effect_updated p b i m :
    parseInt p = Some (memo_id m) -> index_of (memo_id m) ms = Some i ->
    nth_error ms i = Some m ->
    effect e last ms (PutMemo p b)
      (Reply 200 (Json (json_of_memo (edited e b m))))
      (update_at i (edited e b) ms) last
| effect_deleted p i m :
    parseInt p = Some (memo_id m) -> index_of (memo_id m) ms = Some i ->
    nth_error ms i = Some m ->
    effect e last ms (DeleteMemo p)
      (Reply 200 (Json (json_of_memo m)))
      (remove_at i ms) (if (memo_id m =? last)%Z then js_pred last else last).

(** The state [loadData] leaves when it succeeds. *)
Definition after_load (st : state) : state :=
  match data_file st with
  | Some _ => st
  | None => add_log InfoNoDataFile st
  end.

(** The request was carried out. *)
Definition succeeded (r : reply) : Prop := code r = 200%nat \/ code r = 201%nat.

Definition cache_empty (st : state) : Prop :=
  memosCache st = None /\ cacheTimestamp st = None.

(** The ids in the file are pairwise distinct and none is above the counter. *)
Definition consistent (st : state) : Prop :=
  exists ms, holds st ms /\ NoDup (map memo_id ms)
             /\ Forall (fun m => (memo_id m <= lastId st)%Z) ms.

(** The id of the memo a 201 reply carries. *)
Definition created_id (r : reply) : option Z :=
  if (code r =? 201)%nat then
    match sent r with
    | Json v =>
        match get_prop (lit "id") v with
        | Ok (Some (JNum n)) => Some n
        | _ => None
        end
    | ErrorBody _ => None
    end
  else None.

Fixpoint created_ids (rs : list reply) : list Z :=
  match rs with
  | [] => []
  | r :: rest =>
      match created_id r with
      | Some n => n :: created_ids rest
      | None => created_ids rest
      end
  end.

Definition is_post (rq : request) : Prop :=
  match rq with PostMemo _ => True | _ => False end.

Section Traces.

Variable cfg : config.


End Traces.

(** No surrogate stands alone: every lead is followed by a trail, and every
    trail follows a lead. *)
Fixpoint paired (s : jsstring) : bool :=
  match s with
  | [] => true
  | c :: r =>
      if is_lead c then
        match r with
        | d :: r' => is_trail d && paired r'
        | [] => false
        end
      else negb (is_trail c) && paired r
  end.

Definition not_surrogate (c : N) : Prop := is_lead c = false /\ is_trail c = false.

(** Time stamps compared as strings, code unit by code unit: on the
    fixed-width text [toISOString] gives, this is the order of the instants. *)
Fixpoint stamp_leb (a b : jsstring) : bool :=
  match a, b with
  | [], _ => true
  | _ :: _, [] => false
  | x :: a', y :: b' => (x <? y)%N || ((x =? y)%N && stamp_leb a' b')
  end.

(** What [escapeHtml] writes for one character. *)
Definition entity (c : N) : jsstring :=
  if c =? 38 then lit "&amp;"
  else if c =? 60 then lit "&lt;"
  else if c =? 62 then lit "&gt;"
  else if c =? 34 then lit "&quot;"
  else if c =? 39 then lit "&#039;"
  else [c].

(** The characters that open or close a tag or an attribute value. *)
Definition markup (c : N) : bool :=
  (c =? 60) || (c =? 62) || (c =? 34) || (c =? 39).

(** The characters [escapeHtml] replaces. *)
Definition special (c : N) : bool :=
  (c =? 38) || (c =? 60) || (c =? 62) || (c =? 34) || (c =? 39).

Definition starts_with (p s : jsstring) : bool :=
  match strip_prefix p s with
  | Some _ => true
  | None => false
  end.

(** A reader of the five character references [escapeHtml] writes: the
    text a browser shows for them.  [skip] characters of a reference that
    was recognised are still to be passed over. *)
Fixpoint unescape_from (skip : nat) (s : jsstring) : jsstring :=
  match s with
  | [] => []
  | c :: r =>
      match skip with
      | S k => unescape_from k r
      | O =>
          if c =? 38 then
            if starts_with (lit "amp;") r then 38 :: unescape_from 4 r
            else if starts_with (lit "lt;") r then 60 :: unescape_from 3 r
            else if starts_with (lit "gt;") r then 62 :: unescape_from 3 r
            else if starts_with (lit "quot;") r then 34 :: unescape_from 5 r
            else if starts_with (lit "#039;") r then 39 :: unescape_from 5 r
            else c :: unescape_from 0 r
          else c :: unescape_from 0 r
      end
  end.

Definition unescapeHtml (s : jsstring) : jsstring := unescape_from 0 s.

(** The memo with its title and its content emptied. *)
Definition without_text (m : memo) : memo :=
  {| memo_id := memo_id m; memo_title := []; memo_content := [];
     memo_createdAt := memo_createdAt m; memo_updatedAt := memo_updatedAt m |}.

(** The number a string of decimal digits denotes, read from the left. *)
Fixpoint decimal_value (acc : N) (s : jsstring) : N :=
  match s with
  | [] => acc
  | c :: r => decimal_value (10 * acc + (c - 48)) r
  end.

(** The string is empty or its first character is no white space. *)
Definition starts_clean (s : jsstring) : Prop :=
  match s with
  | [] => True
  | c :: _ => isWhiteSpace c = false
  end.

(** The integers a number holds exactly, with room for one step either way. *)
Definition safe (n : Z) : Prop := (- 2 ^ 53 < n < 2 ^ 53)%Z.

(** The counter stays among them for [k] requests, each of which moves it
    by one at most. *)
Definition room (st : state) (k : nat) : Prop :=
  (- 2 ^ 53 < lastId st - Z.of_nat k)%Z /\ (lastId st + Z.of_nat k < 2 ^ 53)%Z.

(** Every write the run attempts is carried out.  A write that fails may
    leave a file that is cut short; [saveData] has only the failure that
    leaves the file as it was. *)
Definition writes_complete (evs : list (env * request)) : Prop :=
  Forall (fun ev => writeFile_fails (fst ev) = false) evs.

(** What follows the digits of an id does not go on with a digit, nor with
    the letter that would make [0x] of a leading zero. *)
Definition ends_number (rest : jsstring) : Prop :=
  match rest with
  | [] => True
  | c :: _ => is_digit c = false /\ c <> 120 /\ c <> 88
  end.

(** What the schema of the body promises of a stored memo, emptiness apart:
    title and content are trimmed, the title has at most 200 characters and
    no angle bracket, the content at most 5000 characters. *)
Definition within_schema (m : memo) : Prop :=
  trim (memo_title m) = memo_title m
  /\ (ucs2length (memo_title m) <= 200)%nat
  /\ no_angle_bracket (memo_title m) = true
  /\ trim (memo_content m) = memo_content m
  /\ (ucs2length (memo_content m) <= 5000)%nat.

(** ** Sample data *)

Definition calm (now : Z) (iso : jsstring) : env :=
  {| Date_now := now; Date_iso := iso; readFile_fails := false;
     copyFile_fails := false; writeFile_fails := false |}.

Definition default_config : config :=
  {| cacheEnabled := true; cacheDuration := 5000%Z; backupEnabled := false |}.

Definition backup_config : config :=
  {| cacheEnabled := true; cacheDuration := 5000%Z; backupEnabled := true |}.

(** An environment in which the write fails. *)
Definition disk_full (now : Z) (iso : jsstring) : env :=
  {| Date_now := now; Date_iso := iso; readFile_fails := false;
     copyFile_fails := false; writeFile_fails := true |}.

(** An environment in which the read fails. *)
Definition no_read (now : Z) (iso : jsstring) : env :=
  {| Date_now := now; Date_iso := iso; readFile_fails := true;
     copyFile_fails := false; writeFile_fails := false |}.

Definition noon : jsstring := lit "2024-01-01T12:00:00.000Z".

Definition evening : jsstring := lit "2024-01-01T18:00:00.000Z".

(* 買い物 / 牛乳を買う *)
Definition shopping : body :=
  {| title := [36023; 12356; 29289]; content := [29275; 20083; 12434; 36023; 12358] |}.

(* 掃除 / 部屋を掃除する *)
Definition cleaning : body :=
  {| title := [25475; 38500];
     content := [37096; 23627; 12434; 25475; 38500; 12377; 12427] |}.

(* 洗濯 / 服を洗う *)
Definition laundry : body :=
  {| title := [27927; 28655]; content := [26381; 12434; 27927; 12358] |}.

(** A process that created two memos, and the collection its file holds. *)
Definition two_memos : state :=
  snd (run default_config
         [(calm 1000 noon, PostMemo shopping); (calm 2000 noon, PostMemo cleaning)]
         (fresh None None)).

Definition two_list : list memo :=
  [created (calm 1000 noon) shopping 0; created (calm 2000 noon) cleaning 1].

(** The same process after a list request filled the cache. *)
Definition two_memos_cached : state :=
  snd (get_memos default_config (calm 2500 noon) two_memos).

(** Memos whose text needs every kind of escape: a quote, a backslash, a
    line feed, a control character, an unpaired surrogate, a surrogate pair,
    a line separator. *)
Definition awkward : list memo :=
  [ {| memo_id := 7;
       memo_title := [34; 92; 10; 1; 55357; 55357; 56832; 8232];
       memo_content := [56832; 47; 9; 13; 8; 12; 127];
       memo_createdAt := noon;
       memo_updatedAt := evening |};
    {| memo_id := (-3);
       memo_title := [];
       memo_content := lit "{ [ , : ] }";
       memo_createdAt := [];
       memo_updatedAt := [55357] |} ].




(** A body whose title is markup, and a file that was cut short. *)
Definition scripted : body :=
  {| title := lit "<script>alert(1)</script>"; content := lit "a < b & c" |}.

Definition cut_short : state := fresh (Some (lit "[1, 2")) None.

(** A file that holds an object instead of an array. *)
Definition object_file : state := fresh (Some (lit "{}")) None.

(** A stand-in for the locale-dependent rendering of dates. *)
Definition as_written (s : jsstring) : jsstring := s.

(** * Properties *)

(** ** Strings, numbers and values are read back as written *)

Lemma hexval_hexdigit (x : N) : x < 16 -> hexval (hexdigit x) = Some x.
Proof.
  intros H.
  assert (E : x = 0 \/ x = 1 \/ x = 2 \/ x = 3 \/ x = 4 \/ x = 5 \/ x = 6 \/ x = 7 \/
              x = 8 \/ x = 9 \/ x = 10 \/ x = 11 \/ x = 12 \/ x = 13 \/ x = 14 \/ x = 15)
    by lia.
  repeat (destruct E as [E | E]; [subst x; reflexivity | ]).
  subst x; reflexivity.
Qed.

Lemma hex4_unicode_escape (c : N) :
  c < 65536 ->
  hex4 (hexdigit (c / 4096)) (hexdigit ((c / 256) mod 16))
       (hexdigit ((c / 16) mod 16)) (hexdigit (c mod 16)) = Some c.
Proof.
  intros H. unfold hex4.
  rewrite !hexval_hexdigit.
  - f_equal.
    pose proof (N.div_mod c 16) as E1.
    pose proof (N.div_mod (c / 16) 16) as E2.
    pose proof (N.div_mod (c / 256) 16) as E3.
    rewrite N.Div0.div_div in E2, E3. change (16 * 16) with 256 in E2.
    change (256 * 16) with 4096 in E3. lia.
  - apply N.mod_lt; lia.
  - apply N.mod_lt; lia.
  - apply N.mod_lt; lia.
  - apply N.Div0.div_lt_upper_bound; lia.
Qed.

Lemma parse_chars_unicode (h1 h2 h3 h4 : N) (r : jsstring) :
  parse_chars (92 :: 117 :: h1 :: h2 :: h3 :: h4 :: r) =
  match hex4 h1 h2 h3 h4 with
  | Some u => cons_fst u (parse_chars r)
  | None => None
  end.
Proof. reflexivity. Qed.

Lemma parse_chars_plain (c : N) (r : jsstring) :
  c <> 34 -> c <> 92 -> 32 <= c ->
  parse_chars (c :: r) = cons_fst c (parse_chars r).
Proof.
  intros H1 H2 H3. cbn [parse_chars].
  destruct (N.eqb_spec c 34); [congruence | ].
  destruct (N.eqb_spec c 92); [congruence | ].
  destruct (N.ltb_spec c 32); [lia | reflexivity].
Qed.

Lemma parse_chars_unicode_escape (c : N) (r : jsstring) :
  c < 65536 ->
  parse_chars (unicode_escape c ++ r) = cons_fst c (parse_chars r).
Proof.
  intros H. unfold unicode_escape. cbn [app].
  rewrite parse_chars_unicode, hex4_unicode_escape by exact H. reflexivity.
Qed.

Lemma is_lead_bounds (c : N) : is_lead c = true <-> 55296 <= c <= 56319.
Proof. unfold is_lead. rewrite andb_true_iff, !N.leb_le. tauto. Qed.

Lemma is_trail_bounds (c : N) : is_trail c = true <-> 56320 <= c <= 57343.
Proof. unfold is_trail. rewrite andb_true_iff, !N.leb_le. tauto. Qed.

Lemma parse_chars_escape_unit (c : N) (r : jsstring) :
  is_lead c = false ->
  parse_chars (escape_unit c ++ r) = cons_fst c (parse_chars r).
Proof.
  intros L. unfold escape_unit.
  destruct (N.eqb_spec c 8); [subst; reflexivity | ].
  destruct (N.eqb_spec c 9); [subst; reflexivity | ].
  destruct (N.eqb_spec c 10); [subst; reflexivity | ].
  destruct (N.eqb_spec c 12); [subst; reflexivity | ].
  destruct (N.eqb_spec c 13); [subst; reflexivity | ].
  destruct (N.eqb_spec c 34); [subst; reflexivity | ].
  destruct (N.eqb_spec c 92); [subst; reflexivity | ].
  rewrite L. cbn [orb].
  destruct (N.ltb_spec c 32) as [Hlt | Hge]; cbn [orb].
  - apply parse_chars_unicode_escape. lia.
  - destruct (is_trail c) eqn:T.
    + apply parse_chars_unicode_escape. apply is_trail_bounds in T. lia.
    + apply parse_chars_plain; assumption.
Qed.

Lemma parse_chars_quote_chars_aux (n : nat) :
  forall s rest, (length s <= n)%nat ->
    parse_chars (quote_chars s ++ 34 :: rest) = Some (s, rest).
Proof.
  induction n as [| n IH]; intros s rest Hn.
  - destruct s; [reflexivity | cbn in Hn; lia].
  - destruct s as [| c r]; [reflexivity | ].
    cbn in Hn. cbn [quote_chars].
    destruct (is_lead c) eqn:L.
    + apply is_lead_bounds in L.
      destruct r as [| d r'].
      * rewrite parse_chars_unicode_escape by lia. reflexivity.
      * destruct (is_trail d) eqn:T.
        -- apply is_trail_bounds in T. cbn [app].
           rewrite parse_chars_plain by lia.
           rewrite parse_chars_plain by lia.
           rewrite IH by (cbn in Hn; lia). reflexivity.
        -- rewrite <- app_assoc, parse_chars_unicode_escape by lia.
           rewrite IH by lia. reflexivity.
    + rewrite <- app_assoc, parse_chars_escape_unit by exact L.
      rewrite IH by lia. reflexivity.
Qed.

Lemma parse_chars_quote_chars (s rest : jsstring) :
  parse_chars (quote_chars s ++ 34 :: rest) = Some (s, rest).
Proof. apply (parse_chars_quote_chars_aux (length s)). lia. Qed.

Lemma read_digits_uint_units (d : Decimal.uint) (rest : jsstring) :
  ends_value rest ->
  read_digits (uint_units d ++ rest) = (d, rest).
Proof.
  intros E. induction d; cbn [uint_units app];
    try (cbn [read_digits]; change (is_digit _) with true; cbv iota;
         rewrite IHd; reflexivity).
  destruct rest as [| c r]; [reflexivity | ].
  cbn [read_digits]. cbn in E.
  destruct E as [-> | ->]; reflexivity.
Qed.

Lemma nzhead_not_D0 (d d' : Decimal.uint) : Decimal.nzhead d <> Decimal.D0 d'.
Proof. induction d; cbn; try discriminate. exact IHd. Qed.

Lemma to_uint_head (p : positive) :
  exists c r, uint_units (Pos.to_uint p) = c :: r /\ is_digit c = true /\ c <> 48.
Proof.
  assert (U : Decimal.unorm (Pos.to_uint p) = Pos.to_uint p).
  { rewrite <- (DecimalPos.Unsigned.to_of (Pos.to_uint p)).
    rewrite DecimalPos.Unsigned.of_to. reflexivity. }
  pose proof (DecimalPos.Unsigned.to_uint_nonzero p) as NZ.
  destruct (Pos.to_uint p) as [| d | d | d | d | d | d | d | d | d | d] eqn:E;
    try (cbn [uint_units]; eexists _, _; split; [reflexivity | split; [reflexivity | lia]]).
  - exfalso. apply (DecimalPos.Unsigned.to_uint_nonnil p). exact E.
  - exfalso. unfold Decimal.unorm in U. cbn [Decimal.nzhead] in U.
    destruct (Decimal.nzhead d) eqn:Hd; try discriminate U.
    + apply NZ. rewrite <- U. reflexivity.
    + exact (nzhead_not_D0 _ _ Hd).
Qed.

Lemma read_fraction_ends (rest : jsstring) :
  ends_value rest -> read_fraction rest = Some (Decimal.Nil, rest).
Proof.
  destruct rest as [| c r]; [reflexivity | ].
  cbn. intros [-> | ->]; reflexivity.
Qed.

Lemma read_exponent_ends (rest : jsstring) :
  ends_value rest -> read_exponent rest = Some (None, rest).
Proof.
  destruct rest as [| c r]; [reflexivity | ].
  cbn. intros [-> | ->]; reflexivity.
Qed.

Lemma parse_number_unsigned (neg : bool) (p : positive) (s0 rest : jsstring) :
  ends_value rest ->
  match read_int (uint_units (Pos.to_uint p) ++ rest) with
  | None => None
  | Some (i, s2) =>
      match read_fraction s2 with
      | None => None
      | Some (f, s3) =>
          match read_exponent s3 with
          | None => None
          | Some (e, s4) =>
              Some (number_value neg i f e (firstn (length s0 - length s4) s0), s4)
          end
      end
  end = Some (JNum (if neg then Zneg p else Zpos p), rest).
Proof.
  intros E.
  destruct (to_uint_head p) as (c & r & Hd & Hc & H48).
  assert (RI : read_int (uint_units (Pos.to_uint p) ++ rest) = Some (Pos.to_uint p, rest)).
  { rewrite <- (read_digits_uint_units _ _ E).
    rewrite Hd. cbn [app]. unfold read_int.
    destruct (N.eqb_spec c 48); [contradiction | ].
    rewrite Hc. reflexivity. }
  rewrite RI, read_fraction_ends, read_exponent_ends by exact E.
  unfold number_value.
  change (N.of_uint (Pos.to_uint p)) with (Pos.of_uint (Pos.to_uint p)).
  rewrite DecimalPos.Unsigned.of_to. destruct neg; reflexivity.
Qed.

Lemma parse_number_to_string (n : Z) (rest : jsstring) :
  ends_value rest ->
  parse_number (number_to_string n ++ rest) = Some (JNum n, rest).
Proof.
  intros E. destruct n as [| p | p].
  - cbn [number_to_string app]. unfold parse_number.
    change (48 =? 45) with false. cbv iota.
    unfold read_int. change (48 =? 48) with true. cbv iota.
    rewrite read_fraction_ends, read_exponent_ends by exact E. reflexivity.
  - unfold parse_number. cbn [number_to_string].
    destruct (to_uint_head p) as (c & r & Hd & Hc & H48).
    rewrite Hd. cbn [app].
    assert ((c =? 45) = false) as ->.
    { apply N.eqb_neq. unfold is_digit in Hc.
      apply andb_true_iff in Hc. rewrite !N.leb_le in Hc. lia. }
    change (c :: r ++ rest) with ((c :: r) ++ rest). rewrite <- Hd.
    apply (parse_number_unsigned false). exact E.
  - unfold parse_number. cbn [number_to_string app].
    change (45 =? 45) with true. cbv iota.
    apply (parse_number_unsigned true). exact E.
Qed.

Lemma number_to_string_head (n : Z) :
  exists c r, number_to_string n = c :: r /\ (is_digit c || (c =? 45)) = true.
Proof.
  destruct n as [| p | p]; cbn [number_to_string].
  - eexists _, _; split; reflexivity.
  - destruct (to_uint_head p) as (c & r & Hd & Hc & _).
    exists c, r. rewrite Hc. auto.
  - eexists _, _; split; reflexivity.
Qed.

Lemma skip_ws_spaces (n : nat) (s : jsstring) : skip_ws (spaces n ++ s) = skip_ws s.
Proof. induction n; [reflexivity | exact IHn]. Qed.

Lemma skip_ws_newline (n : nat) (s : jsstring) : skip_ws (10 :: spaces n ++ s) = skip_ws s.
Proof. cbn [skip_ws]. change (is_json_ws 10) with true. cbv iota. apply skip_ws_spaces. Qed.

Lemma parse_value_skip_ws (fuel : nat) (s s' : jsstring) :
  skip_ws s = skip_ws s' -> parse_value fuel s = parse_value fuel s'.
Proof. intros E. destruct fuel; [reflexivity | ]. cbn [parse_value]. rewrite E. reflexivity. Qed.

Lemma skip_ws_head (c : N) (r : jsstring) : is_json_ws c = false -> skip_ws (c :: r) = c :: r.
Proof. intros H. cbn [skip_ws]. rewrite H. reflexivity. Qed.

Lemma digit_not_ws (c : N) : (is_digit c || (c =? 45)) = true -> is_json_ws c = false.
Proof.
  unfold is_digit, is_json_ws. rewrite orb_true_iff, andb_true_iff, !N.leb_le, N.eqb_eq.
  intros H.
  destruct (N.eqb_spec c 9), (N.eqb_spec c 10), (N.eqb_spec c 13), (N.eqb_spec c 32);
    try reflexivity; lia.
Qed.


Lemma stringify_head (ind : nat) (v : json) :
  canonical v -> exists c r, stringify_at ind v = c :: r /\ opens_value c.
Proof.
  intros C. destruct C as [| b | n | s | xs _ | fs _ _].
  - eexists _, _; split; [reflexivity | repeat split; discriminate].
  - destruct b; eexists _, _; (split; [reflexivity | repeat split; discriminate]).
  - destruct (number_to_string_head n) as (c & r & E & D).
    exists c, r. split; [exact E | ]. split; [apply digit_not_ws, D | ].
    unfold is_digit in D. rewrite orb_true_iff, andb_true_iff, !N.leb_le, N.eqb_eq in D. lia.
  - eexists _, _; split; [reflexivity | repeat split; discriminate].
  - destruct xs; eexists _, _; (split; [reflexivity | repeat split; discriminate]).
  - destruct fs; eexists _, _; (split; [reflexivity | repeat split; discriminate]).
Qed.

Lemma parse_value_number (fuel : nat) (n : Z) (rest : jsstring) :
  ends_value rest ->
  parse_value (S fuel) (number_to_string n ++ rest) = Parsed (JNum n) rest.
Proof.
  intros E. destruct (number_to_string_head n) as (c & r & Hs & D).
  cbn [parse_value]. rewrite Hs. cbn [app].
  rewrite (skip_ws_head _ _ (digit_not_ws _ D)), D.
  change (c :: r ++ rest) with ((c :: r) ++ rest). rewrite <- Hs.
  rewrite parse_number_to_string by exact E. reflexivity.
Qed.

Lemma parse_value_string (fuel : nat) (s rest : jsstring) :
  parse_value (S fuel) (quote s ++ rest) = Parsed (JStr s) rest.
Proof.
  unfold quote. cbn [parse_value app]. rewrite skip_ws_head by reflexivity.
  change (is_digit 34 || (34 =? 45)) with false. change (34 =? 34) with true. cbv iota.
  rewrite <- app_assoc. cbn [app]. rewrite parse_chars_quote_chars. reflexivity.
Qed.


Lemma skip_ws_closing (ind : nat) (b : N) (rest : jsstring) :
  is_json_ws b = false -> skip_ws (closing ind b rest) = b :: rest.
Proof. intros H. unfold closing. rewrite skip_ws_newline. apply skip_ws_head, H. Qed.


Lemma lines_one (ind : nat) (p t : jsstring) :
  lines ind [p] ++ t = 10 :: spaces ind ++ (p ++ t).
Proof. cbn [lines app]. rewrite <- app_assoc. reflexivity. Qed.

Lemma lines_more (ind : nat) (p q : jsstring) (ps : list jsstring) (t : jsstring) :
  lines ind (p :: q :: ps) ++ t
  = 10 :: spaces ind ++ (p ++ 44 :: (lines ind (q :: ps) ++ t)).
Proof.
  change (lines ind (p :: q :: ps)) with (10 :: spaces ind ++ p ++ 44 :: lines ind (q :: ps)).
  cbn [app]. rewrite <- !app_assoc. reflexivity.
Qed.

Lemma ends_value_closing (ind : nat) (b : N) (rest : jsstring) :
  ends_value (closing ind b rest).
Proof. cbn. auto. Qed.

Lemma parse_elements_lines (xs : list json) :
  Forall reads_back xs -> xs <> [] ->
  forall fuel acc ind ind0 rest,
    (fold_right (fun x n => S (size x + n)) O xs <= fuel)%nat ->
    parse_elements fuel acc
      (lines ind (map (stringify_at ind) xs) ++ closing ind0 93 rest)
    = Parsed (rev acc ++ xs) rest.
Proof.
  intros R. induction xs as [| x xs IH]; intros NE fuel acc ind ind0 rest F;
    [congruence | ].
  inversion R as [| ? ? Rx Rxs]; subst.
  cbn [fold_right] in F. destruct fuel as [| fuel]; [lia | ].
  cbn [parse_elements]. destruct xs as [| y ys].
  - cbn [map]. rewrite lines_one.
    rewrite (parse_value_skip_ws _ _ (stringify_at ind x ++ closing ind0 93 rest))
      by apply skip_ws_newline.
    rewrite Rx by (try lia; apply ends_value_closing).
    rewrite skip_ws_closing by reflexivity.
    change (93 =? 44) with false. change (93 =? 93) with true. cbv iota.
    cbn [rev]. reflexivity.
  - cbn [map]. rewrite lines_more.
    match goal with
    | |- context [parse_value fuel (10 :: spaces ind ++ ?t)] =>
        rewrite (parse_value_skip_ws _ _ t) by apply skip_ws_newline
    end.
    rewrite Rx by (try lia; cbn; auto).
    rewrite skip_ws_head by reflexivity.
    change (44 =? 44) with true. cbv iota.
    change (stringify_at ind y :: map (stringify_at ind) ys)
      with (map (stringify_at ind) (y :: ys)).
    rewrite IH by (try assumption; try discriminate; cbn [fold_right] in *; lia).
    cbn [rev]. rewrite <- app_assoc. reflexivity.
Qed.

Lemma jsstring_eqb_eq (a b : jsstring) : jsstring_eqb a b = true <-> a = b.
Proof.
  revert b. induction a as [| x a IH]; intros [| y b]; cbn; split;
    try congruence; try reflexivity.
  - rewrite andb_true_iff, N.eqb_eq, IH. intros [-> ->]. reflexivity.
  - intros E. injection E as -> ->. rewrite andb_true_iff, N.eqb_eq, IH. auto.
Qed.

Lemma obj_get_None (k : jsstring) (fs : list (jsstring * json)) :
  ~ In k (map fst fs) -> obj_get k fs = None.
Proof.
  induction fs as [| [k' v] fs IH]; cbn; intros H; [reflexivity | ].
  destruct (jsstring_eqb k k') eqn:E.
  - apply jsstring_eqb_eq in E. subst. tauto.
  - apply IH. tauto.
Qed.

Lemma obj_define_new (k : jsstring) (v : json) (fs : list (jsstring * json)) :
  ~ In k (map fst fs) -> array_index k = None ->
  obj_define k v fs = fs ++ [(k, v)].
Proof. intros H I. unfold obj_define. rewrite obj_get_None, I by exact H. reflexivity. Qed.


Lemma member_text (ind : nat) (k : jsstring) (v : json) (t : jsstring) :
  member ind (k, v) ++ t = 34 :: quote_chars k ++ 34 :: 58 :: 32 :: (stringify_at ind v ++ t).
Proof.
  unfold member, quote. cbn [fst snd app]. rewrite <- !app_assoc. reflexivity.
Qed.

Lemma parse_member (fuel : nat) (ind : nat) (k : jsstring) (v : json) (t : jsstring)
    (acc : list (jsstring * json)) :
  reads_back v -> (size v <= fuel)%nat -> ends_value t ->
  parse_members (S fuel) acc (10 :: spaces ind ++ (member ind (k, v) ++ t))
  = match skip_ws t with
    | c3 :: r4 =>
        if c3 =? 44 then parse_members fuel (obj_define k v acc) r4
        else if c3 =? 125 then Parsed (obj_define k v acc) r4
        else SyntaxError
    | [] => SyntaxError
    end.
Proof.
  intros R F E. cbn [parse_members].
  rewrite skip_ws_newline, member_text, skip_ws_head by reflexivity.
  change (34 =? 34) with true. cbv iota.
  rewrite parse_chars_quote_chars.
  rewrite skip_ws_head by reflexivity.
  change (58 =? 58) with true. cbv iota.
  rewrite (parse_value_skip_ws _ _ (stringify_at ind v ++ t)) by reflexivity.
  rewrite R by assumption. reflexivity.
Qed.

Lemma parse_members_lines (fs : list (jsstring * json)) :
  Forall (fun kv => reads_back (snd kv)) fs -> fs <> [] ->
  Forall (fun kv => array_index (fst kv) = None) fs ->
  forall fuel acc ind ind0 rest,
    NoDup (map fst (acc ++ fs)) ->
    (fold_right (fun kv n => S (size (snd kv) + n)) O fs <= fuel)%nat ->
    parse_members fuel acc
      (lines ind (map (member ind) fs) ++ closing ind0 125 rest)
    = Parsed (acc ++ fs) rest.
Proof.
  intros R. induction fs as [| [k v] fs IH]; intros NE I fuel acc ind ind0 rest D F;
    [congruence | ].
  inversion R as [| ? ? Rv Rfs]; inversion I as [| ? ? Ik Ifs]; subst.
  cbn [fst snd] in *.
  cbn [fold_right snd] in F. destruct fuel as [| fuel]; [lia | ].
  assert (New : obj_define k v acc = acc ++ [(k, v)]).
  { apply obj_define_new; [ | exact Ik].
    rewrite map_app in D. cbn [map fst] in D.
    apply NoDup_remove_2 in D. intros H. apply D, in_or_app. auto. }
  destruct fs as [| kv fs'].
  - cbn [map]. rewrite lines_one.
    rewrite parse_member by (try assumption; try lia; apply ends_value_closing).
    rewrite skip_ws_closing by reflexivity.
    change (125 =? 44) with false. change (125 =? 125) with true. cbv iota.
    rewrite New. reflexivity.
  - cbn [map]. rewrite lines_more.
    rewrite parse_member by (try assumption; try lia; cbn; auto).
    rewrite skip_ws_head by reflexivity.
    change (44 =? 44) with true. cbv iota.
    change (member ind kv :: map (member ind) fs') with (map (member ind) (kv :: fs')).
    rewrite New, IH; try assumption; try discriminate.
    + rewrite <- app_assoc. reflexivity.
    + rewrite <- app_assoc. exact D.
    + cbn [fold_right] in *. lia.
Qed.

Lemma Forall_and_inv {A : Type} (P Q : A -> Prop) (l : list A) :
  Forall (fun x => P x /\ Q x) l -> Forall P l /\ Forall Q l.
Proof. induction 1 as [| x l [Hp Hq] _ [IHp IHq]]; split; constructor; assumption. Qed.

Lemma Forall_impl2 {A : Type} (P Q R : A -> Prop) (l : list A) :
  (forall x, P x -> Q x -> R x) -> Forall P l -> Forall Q l -> Forall R l.
Proof. intros H Hp. induction Hp; intros Hq; inversion Hq; subst; constructor; auto. Qed.

(** A canonical value is read back from the text written for it, whatever
    the indentation, as soon as the fuel covers its size. *)
Lemma parse_value_stringify (v : json) : canonical v -> reads_back v.
Proof.
  induction v as [| b | n | t | s | xs IH | fs IH] using json_ind;
    intros C fuel ind rest F E; inversion C as [| | | | ? Cxs | ? D Cfs]; subst;
    (destruct fuel as [| fuel]; [cbn in F; lia | ]).
  - reflexivity.
  - destruct b; reflexivity.
  - apply parse_value_number, E.
  - apply parse_value_string.
  - destruct xs as [| x xs]; [reflexivity | ].
    assert (R : Forall reads_back (x :: xs))
      by (apply (Forall_impl2 _ _ _ _ (fun x H1 H2 => H1 H2) IH Cxs)).
    destruct (stringify_head (2 + ind) x) as (c & r & Hs & W & N93 & _);
      [inversion Cxs; assumption | ].
    change (stringify_at ind (JArr (x :: xs)))
      with (91 :: lines (2 + ind) (map (stringify_at (2 + ind)) (x :: xs))
               ++ 10 :: spaces ind ++ [93]).
    cbn [app parse_value]. rewrite skip_ws_head by reflexivity.
    change (is_digit 91 || (91 =? 45)) with false.
    change (91 =? 34) with false. change (91 =? 91) with true. cbv iota.
    rewrite <- app_assoc.
    change ((10 :: spaces ind ++ [93]) ++ rest) with (10 :: (spaces ind ++ [93]) ++ rest).
    rewrite <- app_assoc. cbn [app]. fold (closing ind 93 rest).
    assert (Hd : skip_ws (lines (2 + ind) (map (stringify_at (2 + ind)) (x :: xs))
                           ++ closing ind 93 rest)
                 = c :: r ++ match xs with
                             | [] => closing ind 93 rest
                             | y :: ys => 44 :: (lines (2 + ind) (map (stringify_at (2 + ind)) (y :: ys))
                                                   ++ closing ind 93 rest)
                             end).
    { destruct xs as [| y ys]; cbn [map].
      - rewrite lines_one, skip_ws_newline, Hs. cbn [app]. apply skip_ws_head, W.
      - rewrite lines_more, skip_ws_newline, Hs. cbn [app]. apply skip_ws_head, W. }
    rewrite Hd. destruct (N.eqb_spec c 93); [contradiction | ].
    rewrite parse_elements_lines; [reflexivity | exact R | discriminate | ].
    cbn [size] in F. lia.
  - destruct fs as [| [k x] fs]; [reflexivity | ].
    apply Forall_and_inv in Cfs. destruct Cfs as [I Cv].
    assert (R : Forall (fun kv => reads_back (snd kv)) ((k, x) :: fs))
      by (apply (Forall_impl2 _ _ _ _ (fun x H1 H2 => H1 H2) IH Cv)).
    change (stringify_at ind (JObj ((k, x) :: fs)))
      with (123 :: lines (2 + ind) (map (member (2 + ind)) ((k, x) :: fs))
                ++ 10 :: spaces ind ++ [125]).
    cbn [app parse_value]. rewrite skip_ws_head by reflexivity.
    change (is_digit 123 || (123 =? 45)) with false.
    change (123 =? 34) with false. change (123 =? 91) with false.
    change (123 =? 123) with true. cbv iota.
    rewrite <- app_assoc.
    change ((10 :: spaces ind ++ [125]) ++ rest) with (10 :: (spaces ind ++ [125]) ++ rest).
    rewrite <- app_assoc. cbn [app]. fold (closing ind 125 rest).
    assert (Hd : exists t, skip_ws (lines (2 + ind) (map (member (2 + ind)) ((k, x) :: fs))
                           ++ closing ind 125 rest) = 34 :: t).
    { destruct fs as [| y ys]; cbn [map].
      - rewrite lines_one, skip_ws_newline, member_text. eexists. apply skip_ws_head. reflexivity.
      - rewrite lines_more, skip_ws_newline, member_text. eexists. apply skip_ws_head. reflexivity. }
    destruct Hd as [t Hd]. rewrite Hd.
    change (34 =? 125) with false. cbv iota.
    rewrite parse_members_lines; [reflexivity | exact R | discriminate | exact I | exact D | ].
    cbn [size] in F. lia.
Qed.

(** *** The fuel of the parser *)

Lemma skip_ws_length (s : jsstring) : (length (skip_ws s) <= length s)%nat.
Proof.
  induction s as [| c r IH]; cbn [skip_ws]; [lia | ].
  destruct (is_json_ws c); cbn [length] in *; lia.
Qed.

Lemma cons_fst_Some (c : N) (p : option (jsstring * jsstring)) (str r : jsstring) :
  cons_fst c p = Some (str, r) -> exists str', p = Some (str', r).
Proof. destruct p as [[str' r'] | ]; cbn; [ | discriminate]. intros E. injection E as _ ->. eauto. Qed.

Lemma parse_chars_length_aux (n : nat) :
  forall s str r, (length s <= n)%nat -> parse_chars s = Some (str, r) ->
    (length r < length s)%nat.
Proof.
  induction n as [| n IH]; intros s str r Hn E.
  - destruct s; [discriminate E | cbn in Hn; lia].
  - destruct s as [| c s1]; [discriminate E | ].
    cbn [parse_chars] in E. cbn [length] in *.
    destruct (c =? 34); [injection E as _ ->; lia | ].
    destruct (c =? 92).
    + destruct s1 as [| e s2]; [discriminate E | ].
      destruct (e =? 117).
      * destruct s2 as [| h1 [| h2 [| h3 [| h4 s3]]]]; try discriminate E.
        destruct (hex4 h1 h2 h3 h4); [ | discriminate E].
        apply cons_fst_Some in E. destruct E as [str' E].
        apply IH in E; cbn [length] in *; lia.
      * destruct (simple_escape e); [ | discriminate E].
        apply cons_fst_Some in E. destruct E as [str' E].
        apply IH in E; cbn [length] in *; lia.
    + destruct (c <? 32); [discriminate E | ].
      apply cons_fst_Some in E. destruct E as [str' E].
      apply IH in E; lia.
Qed.

Lemma parse_chars_length (s str r : jsstring) :
  parse_chars s = Some (str, r) -> (length r < length s)%nat.
Proof. apply (parse_chars_length_aux (length s)). lia. Qed.

Lemma read_digits_length (s : jsstring) :
  (length (snd (read_digits s)) <= length s)%nat.
Proof.
  induction s as [| c r IH]; cbn [read_digits]; [cbn; lia | ].
  destruct (is_digit c); [ | cbn; lia].
  destruct (read_digits r). cbn [snd length] in *. lia.
Qed.

Lemma read_int_length (s : jsstring) (i : Decimal.uint) (r : jsstring) :
  read_int s = Some (i, r) -> (length r < length s)%nat.
Proof.
  destruct s as [| c s1]; [discriminate | ]. unfold read_int.
  destruct (c =? 48); [intros E; injection E as _ <-; cbn; lia | ].
  destruct (is_digit c) eqn:D; [ | discriminate].
  intros E. injection E as E. cbn [read_digits] in E. rewrite D in E.
  pose proof (read_digits_length s1) as L. destruct (read_digits s1).
  injection E as _ <-. cbn [snd length] in *. lia.
Qed.

Lemma read_fraction_length (s : jsstring) (f : Decimal.uint) (r : jsstring) :
  read_fraction s = Some (f, r) -> (length r <= length s)%nat.
Proof.
  destruct s as [| c s1]; [intros E; injection E as _ <-; lia | ]. unfold read_fraction.
  destruct (c =? 46); [ | intros E; injection E as _ <-; lia].
  pose proof (read_digits_length s1) as L. destruct (read_digits s1) as [d r'].
  cbn [snd] in L. intros E.
  assert (r' = r) as <- by (destruct d; congruence). cbn [length]. lia.
Qed.

Lemma read_sign_length (s : jsstring) : (length (snd (read_sign s)) <= length s)%nat.
Proof.
  destruct s as [| c r]; cbn; [lia | ].
  destruct (c =? 45); [cbn; lia | ]. destruct (c =? 43); cbn; lia.
Qed.

Lemma read_exponent_length (s : jsstring) (e : option Z) (r : jsstring) :
  read_exponent s = Some (e, r) -> (length r <= length s)%nat.
Proof.
  destruct s as [| c s1]; [intros E; injection E as _ <-; lia | ]. unfold read_exponent.
  destruct ((c =? 101) || (c =? 69)); [ | intros E; injection E as _ <-; lia].
  pose proof (read_sign_length s1) as L1. destruct (read_sign s1) as [neg r1].
  pose proof (read_digits_length r1) as L2. destruct (read_digits r1) as [d r2].
  cbn [snd] in *. intros E.
  assert (r2 = r) as <- by (destruct d; congruence). cbn [length]. lia.
Qed.

Lemma parse_number_length (s : jsstring) (v : json) (r : jsstring) :
  parse_number s = Some (v, r) -> (length r < length s)%nat.
Proof.
  unfold parse_number.
  set (p := match s with
            | c :: r0 => if c =? 45 then (true, r0) else (false, s)
            | [] => (false, s)
            end).
  assert (L : (length (snd p) <= length s)%nat).
  { subst p. destruct s as [| c r0]; [cbn; lia | ]. destruct (c =? 45); cbn; lia. }
  destruct p as [neg s1]. cbn [snd] in L.
  destruct (read_int s1) as [[i s2] | ] eqn:E1; [ | discriminate].
  destruct (read_fraction s2) as [[f s3] | ] eqn:E2; [ | discriminate].
  destruct (read_exponent s3) as [[e s4] | ] eqn:E3; [ | discriminate].
  intros E. injection E as _ <-.
  apply read_int_length in E1. apply read_fraction_length in E2.
  apply read_exponent_length in E3. lia.
Qed.

Lemma strip_prefix_length (p s r : jsstring) :
  strip_prefix p s = Some r -> (length r + length p = length s)%nat.
Proof.
  revert s. induction p as [| a p IH]; intros s; cbn [strip_prefix].
  - intros E. injection E as <-. cbn. lia.
  - destruct s as [| b s']; [discriminate | ]. destruct (a =? b); [ | discriminate].
    intros E. apply IH in E. cbn [length]. lia.
Qed.

Lemma parse_literal_length (w : jsstring) (v : json) (s : jsstring) (x : json) (r : jsstring) :
  w <> [] -> parse_literal w v s = Parsed x r -> (length r < length s)%nat.
Proof.
  intros NE. unfold parse_literal.
  destruct (strip_prefix w s) eqn:E; [ | discriminate].
  intros P. injection P as _ <-. apply strip_prefix_length in E.
  destruct w; [congruence | cbn [length] in E; lia].
Qed.

Lemma presult_map_Parsed {A B : Type} (f : A -> B) (p : presult A) (b : B) (r : jsstring) :
  presult_map f p = Parsed b r -> exists a, p = Parsed a r.
Proof. destruct p; cbn; try discriminate. intros E. injection E as _ ->. eauto. Qed.


Lemma parse_consumes (fuel : nat) : consumes fuel.
Proof.
  induction fuel as [| fuel (IHv & IHe & IHm)]; [repeat split; discriminate | ].
  repeat split.
  - intros s v r. cbn [parse_value].
    pose proof (skip_ws_length s) as L.
    destruct (skip_ws s) as [| c s1]; [discriminate | ]. cbn [length] in L.
    destruct (is_digit c || (c =? 45)).
    { destruct (parse_number (c :: s1)) as [[v' r'] | ] eqn:E; [ | discriminate].
      intros P. injection P as _ <-. apply parse_number_length in E. cbn [length] in E. lia. }
    destruct (c =? 34).
    { destruct (parse_chars s1) as [[str r'] | ] eqn:E; [ | discriminate].
      intros P. injection P as _ <-. apply parse_chars_length in E. lia. }
    destruct (c =? 91).
    { pose proof (skip_ws_length s1) as L1.
      destruct (skip_ws s1) as [| c2 s2]; [discriminate | ]. cbn [length] in L1.
      destruct (c2 =? 93); [intros P; injection P as _ <-; lia | ].
      intros P. apply presult_map_Parsed in P. destruct P as [a P].
      apply IHe in P. lia. }
    destruct (c =? 123).
    { pose proof (skip_ws_length s1) as L1.
      destruct (skip_ws s1) as [| c2 s2]; [discriminate | ]. cbn [length] in L1.
      destruct (c2 =? 125); [intros P; injection P as _ <-; lia | ].
      intros P. apply presult_map_Parsed in P. destruct P as [a P].
      apply IHm in P. lia. }
    destruct (c =? 116);
      [intros P; apply parse_literal_length in P; [cbn [length] in P; lia | discriminate] | ].
    destruct (c =? 102);
      [intros P; apply parse_literal_length in P; [cbn [length] in P; lia | discriminate] | ].
    destruct (c =? 110);
      [intros P; apply parse_literal_length in P; [cbn [length] in P; lia | discriminate] | ].
    discriminate.
  - intros acc s l r. cbn [parse_elements].
    destruct (parse_value fuel s) as [v r1 | | ] eqn:E; try discriminate.
    apply IHv in E. pose proof (skip_ws_length r1) as L.
    destruct (skip_ws r1) as [| c r2]; [discriminate | ]. cbn [length] in L.
    destruct (c =? 44); [intros P; apply IHe in P; lia | ].
    destruct (c =? 93); [intros P; injection P as _ <-; lia | discriminate].
  - intros acc s l r. cbn [parse_members].
    pose proof (skip_ws_length s) as L.
    destruct (skip_ws s) as [| c s1]; [discriminate | ]. cbn [length] in L.
    destruct (c =? 34); [ | discriminate].
    destruct (parse_chars s1) as [[k r1] | ] eqn:E1; [ | discriminate].
    apply parse_chars_length in E1. pose proof (skip_ws_length r1) as L1.
    destruct (skip_ws r1) as [| c1 r2]; [discriminate | ]. cbn [length] in L1.
    destruct (c1 =? 58); [ | discriminate].
    destruct (parse_value fuel r2) as [v r3 | | ] eqn:E2; try discriminate.
    apply IHv in E2. pose proof (skip_ws_length r3) as L3.
    destruct (skip_ws r3) as [| c3 r4]; [discriminate | ]. cbn [length] in L3.
    destruct (c3 =? 44); [intros P; apply IHm in P; lia | ].
    destruct (c3 =? 125); [intros P; injection P as _ <-; lia | discriminate].
Qed.


Lemma presult_map_fuel {A B : Type} (f : A -> B) (p : presult A) :
  p <> OutOfFuel -> presult_map f p <> OutOfFuel.
Proof. destruct p; cbn; congruence. Qed.

Lemma parse_literal_fuel (w : jsstring) (v : json) (s : jsstring) :
  parse_literal w v s <> OutOfFuel.
Proof. unfold parse_literal. destruct (strip_prefix w s); discriminate. Qed.

Lemma parse_enough (fuel : nat) : enough fuel.
Proof.
  induction fuel as [| fuel (IHv & IHe & IHm)]; [repeat split; intros; lia | ].
  destruct (parse_consumes fuel) as (Cv & Ce & Cm).
  repeat split.
  - intros s F. cbn [parse_value].
    pose proof (skip_ws_length s) as L.
    destruct (skip_ws s) as [| c s1]; [discriminate | ]. cbn [length] in L.
    destruct (is_digit c || (c =? 45)); [destruct (parse_number (c :: s1)) as [[? ?] | ]; discriminate | ].
    destruct (c =? 34); [destruct (parse_chars s1) as [[? ?] | ]; discriminate | ].
    destruct (c =? 91).
    { destruct (skip_ws s1) as [| c2 s2]; [discriminate | ].
      destruct (c2 =? 93); [discriminate | ]. apply presult_map_fuel, IHe. lia. }
    destruct (c =? 123).
    { destruct (skip_ws s1) as [| c2 s2]; [discriminate | ].
      destruct (c2 =? 125); [discriminate | ]. apply presult_map_fuel, IHm. lia. }
    destruct (c =? 116); [apply parse_literal_fuel | ].
    destruct (c =? 102); [apply parse_literal_fuel | ].
    destruct (c =? 110); [apply parse_literal_fuel | discriminate].
  - intros acc s F. cbn [parse_elements].
    pose proof (IHv s ltac:(lia)) as V.
    destruct (parse_value fuel s) as [v r1 | | ] eqn:E; try congruence.
    apply Cv in E. pose proof (skip_ws_length r1) as L.
    destruct (skip_ws r1) as [| c r2]; [discriminate | ]. cbn [length] in L.
    destruct (c =? 44); [apply IHe; lia | ].
    destruct (c =? 93); discriminate.
  - intros acc s F. cbn [parse_members].
    pose proof (skip_ws_length s) as L.
    destruct (skip_ws s) as [| c s1]; [discriminate | ]. cbn [length] in L.
    destruct (c =? 34); [ | discriminate].
    destruct (parse_chars s1) as [[k r1] | ] eqn:E1; [ | discriminate].
    apply parse_chars_length in E1. pose proof (skip_ws_length r1) as L1.
    destruct (skip_ws r1) as [| c1 r2]; [discriminate | ]. cbn [length] in L1.
    destruct (c1 =? 58); [ | discriminate].
    pose proof (IHv r2 ltac:(lia)) as V.
    destruct (parse_value fuel r2) as [v r3 | | ] eqn:E2; try congruence.
    apply Cv in E2. pose proof (skip_ws_length r3) as L3.
    destruct (skip_ws r3) as [| c3 r4]; [discriminate | ]. cbn [length] in L3.
    destruct (c3 =? 44); [apply IHm; lia | ].
    destruct (c3 =? 125); discriminate.
Qed.


Lemma presult_map_fuel_inv {A B : Type} (f : A -> B) (p : presult A) :
  presult_map f p <> OutOfFuel -> p <> OutOfFuel.
Proof. destruct p; cbn; congruence. Qed.

Lemma parse_stable (fuel : nat) : stable fuel.
Proof.
  induction fuel as [| fuel IH]; intros fuel' F.
  - repeat split; intros; cbn in *; congruence.
  - destruct fuel' as [| fuel']; [lia | ].
    destruct (IH fuel' ltac:(lia)) as (IHv & IHe & IHm).
    repeat split.
    + intros s H. cbn [parse_value] in *.
      destruct (skip_ws s) as [| c s1]; [reflexivity | ].
      destruct (is_digit c || (c =? 45)); [reflexivity | ].
      destruct (c =? 34); [reflexivity | ].
      destruct (c =? 91).
      { destruct (skip_ws s1) as [| c2 s2]; [reflexivity | ].
        destruct (c2 =? 93); [reflexivity | ].
        rewrite IHe; [reflexivity | ]. apply presult_map_fuel_inv in H. exact H. }
      destruct (c =? 123).
      { destruct (skip_ws s1) as [| c2 s2]; [reflexivity | ].
        destruct (c2 =? 125); [reflexivity | ].
        rewrite IHm; [reflexivity | ]. apply presult_map_fuel_inv in H. exact H. }
      reflexivity.
    + intros acc s H. cbn [parse_elements] in *.
      destruct (parse_value fuel s) as [v r1 | | ] eqn:E; try congruence.
      * rewrite IHv, E by (rewrite E; discriminate).
        destruct (skip_ws r1) as [| c r2]; [reflexivity | ].
        destruct (c =? 44); [apply IHe, H | reflexivity].
      * rewrite IHv, E by (rewrite E; discriminate). reflexivity.
    + intros acc s H. cbn [parse_members] in *.
      destruct (skip_ws s) as [| c s1]; [reflexivity | ].
      destruct (c =? 34); [ | reflexivity].
      destruct (parse_chars s1) as [[k r1] | ]; [ | reflexivity].
      destruct (skip_ws r1) as [| c1 r2]; [reflexivity | ].
      destruct (c1 =? 58); [ | reflexivity].
      destruct (parse_value fuel r2) as [v r3 | | ] eqn:E; try congruence.
      * rewrite IHv, E by (rewrite E; discriminate).
        destruct (skip_ws r3) as [| c3 r4]; [reflexivity | ].
        destruct (c3 =? 44); [apply IHm, H | reflexivity].
      * rewrite IHv, E by (rewrite E; discriminate). reflexivity.
Qed.

(** [JSON_parse] never runs out of fuel: [None] is a syntax error. *)
Lemma parse_value_fuel (s : jsstring) : parse_value (parse_fuel s) s <> OutOfFuel.
Proof. apply (parse_enough (parse_fuel s)). unfold parse_fuel. lia. Qed.

Lemma JSON_parse_stringify_at (ind : nat) (v : json) :
  canonical v -> JSON_parse (stringify_at ind v) = Some v.
Proof.
  intros C. unfold JSON_parse.
  set (s := stringify_at ind v).
  pose proof (parse_value_fuel s) as NF.
  pose proof (proj1 (parse_stable (parse_fuel s) (Nat.max (parse_fuel s) (size v))
                       (Nat.le_max_l _ _)) s NF) as St.
  rewrite <- St.
  pose proof (parse_value_stringify v C (Nat.max (parse_fuel s) (size v)) ind []
                (Nat.le_max_r _ _) I) as R.
  rewrite app_nil_r in R. subst s. rewrite R. reflexivity.
Qed.

(** JSON.parse (JSON.stringify (v, null, 2)) is [v]. *)
Lemma JSON_parse_stringify (v : json) :
  canonical v -> JSON_parse (JSON_stringify v) = Some v.
Proof. apply JSON_parse_stringify_at. Qed.

(** *** The text written is well-formed UTF-16 *)

Lemma paired_cons (c : N) (s : jsstring) :
  not_surrogate c -> paired (c :: s) = paired s.
Proof. intros [L T]. cbn [paired]. rewrite L, T. reflexivity. Qed.

Lemma paired_app_aux (n : nat) :
  forall a b, (length a <= n)%nat -> paired a = true -> paired b = true ->
    paired (a ++ b) = true.
Proof.
  induction n as [| n IH]; intros a b Hn Pa Pb.
  - destruct a; [exact Pb | cbn in Hn; lia].
  - destruct a as [| c r]; [exact Pb | ]. cbn [length] in Hn.
    cbn [app paired] in *. destruct (is_lead c).
    + destruct r as [| d r']; [discriminate | ]. cbn [app length] in *.
      apply andb_true_iff in Pa. destruct Pa as [T Pa]. rewrite T. cbn [andb].
      apply IH; [lia | assumption | assumption].
    + apply andb_true_iff in Pa. destruct Pa as [T Pa]. rewrite T. cbn [andb].
      apply IH; [lia | assumption | assumption].
Qed.

Lemma paired_app (a b : jsstring) :
  paired a = true -> paired b = true -> paired (a ++ b) = true.
Proof. apply (paired_app_aux (length a)). lia. Qed.

Lemma paired_plain (s : jsstring) : Forall not_surrogate s -> paired s = true.
Proof. induction 1 as [| c s H _ IH]; [reflexivity | ]. rewrite paired_cons; assumption. Qed.

Lemma small_not_surrogate (c : N) : c < 55296 -> not_surrogate c.
Proof.
  intros H. unfold not_surrogate, is_lead, is_trail.
  split; apply andb_false_iff; left; apply N.leb_gt; lia.
Qed.

Lemma uint_units_plain (d : Decimal.uint) : Forall not_surrogate (uint_units d).
Proof.
  induction d; cbn [uint_units]; constructor; try assumption;
    apply small_not_surrogate; lia.
Qed.

Lemma number_to_string_paired (n : Z) : paired (number_to_string n) = true.
Proof.
  apply paired_plain. destruct n; cbn [number_to_string].
  - repeat constructor; apply small_not_surrogate; lia.
  - apply uint_units_plain.
  - constructor; [apply small_not_surrogate; lia | apply uint_units_plain].
Qed.

Lemma spaces_plain (n : nat) : Forall not_surrogate (spaces n).
Proof.
  induction n; cbn; constructor; [apply small_not_surrogate; lia | assumption].
Qed.

Lemma hexdigit_small (x : N) : x < 16 -> hexdigit x < 128.
Proof. intros H. unfold hexdigit. destruct (x <? 10); lia. Qed.

Lemma unicode_escape_paired (c : N) : c < 65536 -> paired (unicode_escape c) = true.
Proof.
  intros H. apply paired_plain. unfold unicode_escape.
  assert (c / 4096 < 16) by (apply N.Div0.div_lt_upper_bound; lia).
  assert ((c / 256) mod 16 < 16) by (apply N.mod_lt; lia).
  assert ((c / 16) mod 16 < 16) by (apply N.mod_lt; lia).
  assert (c mod 16 < 16) by (apply N.mod_lt; lia).
  repeat constructor; apply small_not_surrogate;
    try lia; (eapply N.lt_trans; [apply hexdigit_small; eassumption | lia]).
Qed.

Lemma escape_unit_paired (c : N) : is_lead c = false -> paired (escape_unit c) = true.
Proof.
  intros L. unfold escape_unit.
  repeat match goal with
         | |- context [if ?c =? ?k then _ else _] =>
             destruct (c =? k); [reflexivity | ]
         end.
  rewrite L. cbn [orb].
  destruct (N.ltb_spec c 32); cbn [orb].
  - apply unicode_escape_paired. lia.
  - destruct (is_trail c) eqn:T.
    + apply unicode_escape_paired. unfold is_trail in T.
      apply andb_true_iff in T. rewrite !N.leb_le in T. lia.
    + cbn [paired]. rewrite L, T. reflexivity.
Qed.

Lemma quote_chars_paired_aux (n : nat) :
  forall s, (length s <= n)%nat -> paired (quote_chars s) = true.
Proof.
  induction n as [| n IH]; intros s Hn.
  - destruct s; [reflexivity | cbn in Hn; lia].
  - destruct s as [| c r]; [reflexivity | ]. cbn [length] in Hn. cbn [quote_chars].
    destruct (is_lead c) eqn:L.
    + assert (c < 65536)
        by (unfold is_lead in L; apply andb_true_iff in L; rewrite !N.leb_le in L; lia).
      destruct r as [| d r']; [apply unicode_escape_paired; assumption | ].
      cbn [length] in Hn. destruct (is_trail d) eqn:T.
      * cbn [paired]. rewrite L, T. cbn [andb]. apply IH. lia.
      * apply paired_app; [apply unicode_escape_paired; assumption | apply IH; cbn; lia].
    + apply paired_app; [apply escape_unit_paired, L | apply IH; lia].
Qed.

Lemma quote_paired (s : jsstring) : paired (quote s) = true.
Proof.
  unfold quote. rewrite paired_cons by (apply small_not_surrogate; lia).
  apply paired_app; [apply (quote_chars_paired_aux (length s)); lia | reflexivity].
Qed.

Lemma lines_paired (ind : nat) (parts : list jsstring) :
  Forall (fun p => paired p = true) parts -> paired (lines ind parts) = true.
Proof.
  induction 1 as [| p ps Hp _ IH]; [reflexivity | ].
  assert (Line : forall t, paired t = true -> paired (10 :: spaces ind ++ p ++ t) = true).
  { intros t Ht. rewrite paired_cons by (apply small_not_surrogate; lia).
    apply paired_app; [apply paired_plain, spaces_plain | ].
    apply paired_app; assumption. }
  destruct ps as [| q ps].
  - cbn [lines]. rewrite <- (app_nil_r p). apply Line. reflexivity.
  - change (lines ind (p :: q :: ps)) with (10 :: spaces ind ++ p ++ 44 :: lines ind (q :: ps)).
    apply Line. rewrite paired_cons by (apply small_not_surrogate; lia). exact IH.
Qed.

Lemma closing_paired (ind : nat) (b : N) :
  b < 128 -> paired (10 :: spaces ind ++ [b]) = true.
Proof.
  intros H. rewrite paired_cons by (apply small_not_surrogate; lia).
  apply paired_app; [apply paired_plain, spaces_plain | ].
  apply paired_plain. constructor; [apply small_not_surrogate; lia | constructor].
Qed.

(** The text written for a canonical value has no unpaired surrogate: it is
    well-formed UTF-16, which the UTF-8 encoding of the file stores and gives
    back as it is. *)
Lemma stringify_paired (v : json) :
  canonical v -> forall ind, paired (stringify_at ind v) = true.
Proof.
  induction v as [| b | n | t | s | xs IH | fs IH] using json_ind;
    intros C ind; inversion C as [| | | | ? Cxs | ? D Cfs]; subst.
  - reflexivity.
  - destruct b; reflexivity.
  - apply number_to_string_paired.
  - apply quote_paired.
  - destruct xs as [| x xs]; [reflexivity | ].
    change (stringify_at ind (JArr (x :: xs)))
      with (91 :: lines (2 + ind) (map (stringify_at (2 + ind)) (x :: xs))
               ++ 10 :: spaces ind ++ [93]).
    rewrite paired_cons by (apply small_not_surrogate; lia).
    apply paired_app; [ | apply closing_paired; lia].
    apply lines_paired. apply Forall_map.
    apply (Forall_impl2 _ _ _ _ (fun x H1 H2 => H1 H2 (2 + ind)%nat) IH Cxs).
  - destruct fs as [| kv fs]; [reflexivity | ].
    change (stringify_at ind (JObj (kv :: fs)))
      with (123 :: lines (2 + ind) (map (member (2 + ind)) (kv :: fs))
                ++ 10 :: spaces ind ++ [125]).
    rewrite paired_cons by (apply small_not_surrogate; lia).
    apply paired_app; [ | apply closing_paired; lia].
    apply lines_paired. apply Forall_map.
    apply Forall_and_inv in Cfs. destruct Cfs as [_ Cv].
    assert (P : Forall (fun kv => paired (stringify_at (2 + ind) (snd kv)) = true) (kv :: fs))
      by (apply (Forall_impl2 _ _ _ _ (fun kv H1 H2 => H1 H2 (2 + ind)%nat) IH Cv)).
    eapply Forall_impl; [ | exact P]. clear. intros [k x] P. unfold member. cbn [fst snd] in *.
    apply paired_app; [apply quote_paired | ].
    rewrite !paired_cons by (apply small_not_surrogate; lia). exact P.
Qed.

Lemma memo_of_json_of_memo (m : memo) : memo_of_json (json_of_memo m) = Some m.
Proof. destruct m. reflexivity. Qed.

Lemma json_of_memo_inj (m m' : memo) : json_of_memo m = json_of_memo m' -> m = m'.
Proof.
  intros E. apply (f_equal memo_of_json) in E.
  rewrite !memo_of_json_of_memo in E. congruence.
Qed.

Lemma canonical_memo (m : memo) : canonical (json_of_memo m).
Proof.
  apply canonical_obj.
  - cbn [map fst]. repeat constructor; cbn; intuition discriminate.
  - repeat constructor.
Qed.

Lemma canonical_memos (ms : list memo) : canonical (JArr (json_of_memos ms)).
Proof.
  apply canonical_arr. unfold json_of_memos. apply Forall_map.
  apply Forall_forall. intros m _. apply canonical_memo.
Qed.

Lemma JSON_parse_memos (ms : list memo) :
  JSON_parse (JSON_stringify (JArr (json_of_memos ms))) = Some (JArr (json_of_memos ms)).
Proof. apply JSON_parse_stringify, canonical_memos. Qed.

Lemma saved_text_paired (ms : list memo) :
  paired (JSON_stringify (JArr (json_of_memos ms))) = true.
Proof. apply stringify_paired, canonical_memos. Qed.

Lemma findIndex_id_memos (id : Z) (ms : list memo) :
  findIndex_id (Some id) (json_of_memos ms) = Ok (index_of id ms).
Proof.
  unfold json_of_memos. induction ms as [| m ms IH]; [reflexivity | ].
  cbn [map findIndex_id index_of].
  change (get_prop (lit "id") (json_of_memo m)) with (@Ok (option json) (Some (JNum (memo_id m)))).
  cbn [is_number]. destruct (memo_id m =? id)%Z; [reflexivity | ].
  rewrite IH. destruct (index_of id ms); reflexivity.
Qed.

Lemma findIndex_id_NaN (ms : list memo) :
  findIndex_id None (json_of_memos ms) = Ok None.
Proof.
  unfold json_of_memos. induction ms as [| m ms IH]; [reflexivity | ].
  cbn [map findIndex_id].
  change (get_prop (lit "id") (json_of_memo m)) with (@Ok (option json) (Some (JNum (memo_id m)))).
  cbn [is_number]. rewrite IH. reflexivity.
Qed.

Lemma index_of_Some (id : Z) (ms : list memo) (i : nat) :
  index_of id ms = Some i ->
  exists m, nth_error ms i = Some m /\ memo_id m = id.
Proof.
  revert i. induction ms as [| m ms IH]; intros i; cbn [index_of]; [discriminate | ].
  destruct (Z.eqb_spec (memo_id m) id).
  - intros E. injection E as <-. exists m. auto.
  - destruct (index_of id ms) as [j | ]; [ | discriminate].
    intros E. injection E as <-. apply IH. reflexivity.
Qed.

Lemma index_of_None (id : Z) (ms : list memo) :
  index_of id ms = None -> ~ In id (map memo_id ms).
Proof.
  induction ms as [| m ms IH]; cbn [index_of map]; [tauto | ].
  destruct (Z.eqb_spec (memo_id m) id); [discriminate | ].
  destruct (index_of id ms); [discriminate | ].
  intros _ [H | H]; [contradiction | ]. apply IH; auto.
Qed.

Lemma update_at_map {A B : Type} (g : A -> B) (f : B -> B) (f' : A -> A) (i : nat) (l : list A) :
  (forall x, f (g x) = g (f' x)) ->
  update_at i f (map g l) = map g (update_at i f' l).
Proof.
  intros H. revert i. induction l as [| x l IH]; intros [| i]; cbn; try reflexivity.
  - rewrite H. reflexivity.
  - rewrite IH. reflexivity.
Qed.

Lemma remove_at_map {A B : Type} (g : A -> B) (i : nat) (l : list A) :
  remove_at i (map g l) = map g (remove_at i l).
Proof.
  revert i. induction l as [| x l IH]; intros [| i]; cbn; try reflexivity.
  rewrite IH. reflexivity.
Qed.

Lemma nth_map_memo (i : nat) (ms : list memo) (m : memo) :
  nth_error ms i = Some m -> nth i (json_of_memos ms) JNull = json_of_memo m.
Proof.
  revert i. induction ms as [| x ms IH]; intros [| i]; cbn; try discriminate.
  - congruence.
  - apply IH.
Qed.

Lemma update_at_nth_error {A : Type} (f : A -> A) (i : nat) (l : list A) (x : A) :
  nth_error l i = Some x -> nth_error (update_at i f l) i = Some (f x).
Proof.
  revert i. induction l as [| y l IH]; intros [| i]; cbn; try discriminate.
  - congruence.
  - apply IH.
Qed.

Lemma update_at_other {A : Type} (f : A -> A) (i j : nat) (l : list A) :
  i <> j -> nth_error (update_at i f l) j = nth_error l j.
Proof.
  revert i j. induction l as [| y l IH]; intros [| i] [| j] H; cbn; try reflexivity.
  - congruence.
  - apply IH. congruence.
Qed.

Lemma update_at_length {A : Type} (f : A -> A) (i : nat) (l : list A) :
  length (update_at i f l) = length l.
Proof. revert i. induction l as [| y l IH]; intros [| i]; cbn; auto. Qed.


Lemma set_props_memo (e : env) (b : body) (m : memo) :
  set_prop (lit "updatedAt") (JStr (Date_iso e))
    (set_prop (lit "content") (JStr (trim (content b)))
       (set_prop (lit "title") (JStr (trim (title b))) (json_of_memo m)))
  = json_of_memo (edited e b m).
Proof. reflexivity. Qed.

Ltac fields :=
  cbn [data_file backup_file memosCache cacheTimestamp lastId log
       add_log set_cache set_lastId set_data_file set_backup_file clearCache] in *.

Lemma loadData_holds (e : env) (st : state) (ms : list memo) :
  holds st ms ->
  loadData e st =
  if readFile_fails e then (Throw ErrIO, add_log ErrorLoad st)
  else (Ok (json_of_memos ms), after_load st).
Proof.
  unfold holds, loadData, readFile, after_load. intros H.
  destruct (readFile_fails e); [reflexivity | ].
  destruct (data_file st) as [text | ].
  - rewrite H. reflexivity.
  - subst ms. reflexivity.
Qed.

Lemma after_load_same (st : state) :
  data_file (after_load st) = data_file st
  /\ memosCache (after_load st) = memosCache st
  /\ cacheTimestamp (after_load st) = cacheTimestamp st
  /\ lastId (after_load st) = lastId st.
Proof. unfold after_load. destruct (data_file st) eqn:E; fields; auto. Qed.

Lemma holds_after_load (st : state) (ms : list memo) :
  holds st ms -> holds (after_load st) ms.
Proof. unfold holds. rewrite (proj1 (after_load_same st)). auto. Qed.

Ltac refuse H :=
  split;
  [ apply effect_refused; [discriminate | cbn; auto]
  | split; [exact H | intros [C | C]; discriminate C] ].

Section HandlerFacts.

Variable cfg : config.

Lemma backup_same (e : env) (st : state) :
  data_file (backup cfg e st) = data_file st
  /\ memosCache (backup cfg e st) = memosCache st
  /\ cacheTimestamp (backup cfg e st) = cacheTimestamp st
  /\ lastId (backup cfg e st) = lastId st.
Proof.
  unfold backup, copyFile.
  destruct (backupEnabled cfg); [ | auto].
  destruct (copyFile_fails e); [fields; auto | ].
  destruct (data_file st) eqn:E; fields; auto.
Qed.

Lemma holds_backup (e : env) (st : state) (ms : list memo) :
  holds st ms -> holds (backup cfg e st) ms.
Proof. unfold holds. rewrite (proj1 (backup_same e st)). auto. Qed.

Lemma saveData_eq (e : env) (data : list json) (st : state) :
  saveData cfg e data st =
  if writeFile_fails e then (Throw ErrSave, add_log ErrorSave (backup cfg e st))
  else (Ok tt,
        add_log DebugSaved
          (clearCache (set_data_file (Some (JSON_stringify (JArr data))) (backup cfg e st)))).
Proof. reflexivity. Qed.

Lemma holds_saved (ms : list memo) (st : state) :
  holds (add_log DebugSaved
           (clearCache (set_data_file (Some (JSON_stringify (JArr (json_of_memos ms)))) st)))
        ms.
Proof. unfold holds. fields. apply JSON_parse_memos. Qed.

Lemma post_memo_effect (e : env) (b : body) (st : state) (ms : list memo) :
  holds st ms ->
  exists ms',
    effect e (lastId st) ms (PostMemo b) (fst (post_memo cfg e b st)) ms'
      (lastId (snd (post_memo cfg e b st)))
    /\ holds (snd (post_memo cfg e b st)) ms'
    /\ (succeeded (fst (post_memo cfg e b st)) -> cache_empty (snd (post_memo cfg e b st))).
Proof.
  intros H. unfold post_memo.
  destruct (memoBodySchema b); cbn [negb]; [ | exists ms; refuse H].
  unfold handle, bind, getNextId, ret. rewrite (loadData_holds e st ms H).
  destruct (readFile_fails e); [exists ms; refuse H | ].
  pose proof (after_load_same st) as (_ & _ & _ & L).
  pose proof (backup_same e (set_lastId (js_succ (lastId (after_load st))) (after_load st)))
    as (_ & _ & _ & L').
  rewrite saveData_eq. destruct (writeFile_fails e); cbn [fst snd].
  - exists ms. unfold errorHandler. cbn [fst snd]. fields. rewrite L'. fields. rewrite L.
    split; [apply effect_skipped; reflexivity | ].
    split; [ | intros [C | C]; discriminate C].
    unfold holds. fields. apply holds_backup. unfold holds. fields.
    apply holds_after_load, H.
  - exists (ms ++ [created e b (lastId st)]). fields. rewrite L'. fields. rewrite L.
    change (json_of_memo _) with (json_of_memo (created e b (lastId st))).
    split; [apply effect_created | ].
    split; [ | intros _; split; reflexivity].
    change [json_of_memo (created e b (lastId st))]
      with (json_of_memos [created e b (lastId st)]).
    unfold json_of_memos. rewrite <- map_app.
    unfold holds. fields. apply JSON_parse_memos.
Qed.

Lemma edit_memos (e : env) (b : body) (i : nat) (ms : list memo) :
  update_at i
    (fun m =>
       set_prop (lit "updatedAt") (JStr (Date_iso e))
         (set_prop (lit "content") (JStr (trim (content b)))
            (set_prop (lit "title") (JStr (trim (title b))) m)))
    (json_of_memos ms)
  = json_of_memos (update_at i (edited e b) ms).
Proof. unfold json_of_memos. apply update_at_map. intros m. apply set_props_memo. Qed.

Lemma remove_memos (i : nat) (ms : list memo) :
  remove_at i (json_of_memos ms) = json_of_memos (remove_at i ms).
Proof. apply remove_at_map. Qed.

Lemma put_memo_effect (e : env) (p : jsstring) (b : body) (st : state) (ms : list memo) :
  holds st ms ->
  exists ms',
    effect e (lastId st) ms (PutMemo p b) (fst (put_memo cfg e p b st)) ms'
      (lastId (snd (put_memo cfg e p b st)))
    /\ holds (snd (put_memo cfg e p b st)) ms'
    /\ (succeeded (fst (put_memo cfg e p b st)) -> cache_empty (snd (put_memo cfg e p b st))).
Proof.
  intros H. unfold put_memo.
  destruct (idParamSchema p && memoBodySchema b); cbn [negb]; [ | exists ms; refuse H].
  unfold handle, bind, lift, ret. rewrite (loadData_holds e st ms H).
  destruct (readFile_fails e); [exists ms; refuse H | ].
  pose proof (after_load_same st) as (_ & _ & _ & L).
  pose proof (holds_after_load st ms H) as H1.
  assert (NF : exists ms',
             effect e (lastId st) ms (PutMemo p b) (Reply 404 (ErrorBody MsgNotFound)) ms'
               (lastId (after_load st))
             /\ holds (after_load st) ms'
             /\ (succeeded (Reply 404 (ErrorBody MsgNotFound)) -> cache_empty (after_load st))).
  { exists ms. rewrite L. refuse H1. }
  destruct (parseInt p) as [id | ] eqn:P; [ | rewrite findIndex_id_NaN; exact NF].
  rewrite findIndex_id_memos.
  destruct (index_of id ms) as [i | ] eqn:I; [ | exact NF].
  destruct (index_of_Some _ _ _ I) as (m & Hm & <-).
  rewrite edit_memos, saveData_eq.
  pose proof (backup_same e (after_load st)) as (_ & _ & _ & L').
  destruct (writeFile_fails e); cbn [fst snd].
  - exists ms. unfold errorHandler. cbn [fst snd]. fields. rewrite L', L.
    refuse (holds_backup e _ _ H1).
  - exists (update_at i (edited e b) ms). fields. rewrite L', L.
    rewrite (nth_map_memo i _ (edited e b m)) by (apply update_at_nth_error, Hm).
    split; [apply effect_updated; assumption | ].
    split; [ | intros _; split; reflexivity].
    unfold holds. fields. apply JSON_parse_memos.
Qed.

Lemma delete_memo_effect (e : env) (p : jsstring) (st : state) (ms : list memo) :
  holds st ms ->
  exists ms',
    effect e (lastId st) ms (DeleteMemo p) (fst (delete_memo cfg e p st)) ms'
      (lastId (snd (delete_memo cfg e p st)))
    /\ holds (snd (delete_memo cfg e p st)) ms'
    /\ (succeeded (fst (delete_memo cfg e p st)) -> cache_empty (snd (delete_memo cfg e p st))).
Proof.
  intros H. unfold delete_memo.
  destruct (idParamSchema p); cbn [negb]; [ | exists ms; refuse H].
  unfold handle, bind, lift, ret. rewrite (loadData_holds e st ms H).
  destruct (readFile_fails e); [exists ms; refuse H | ].
  pose proof (after_load_same st) as (_ & _ & _ & L).
  pose proof (holds_after_load st ms H) as H1.
  assert (NF : exists ms',
             effect e (lastId st) ms (DeleteMemo p) (Reply 404 (ErrorBody MsgNotFound)) ms'
               (lastId (after_load st))
             /\ holds (after_load st) ms'
             /\ (succeeded (Reply 404 (ErrorBody MsgNotFound)) -> cache_empty (after_load st))).
  { exists ms. rewrite L. refuse H1. }
  destruct (parseInt p) as [id | ] eqn:P; [ | rewrite findIndex_id_NaN; exact NF].
  rewrite findIndex_id_memos.
  destruct (index_of id ms) as [i | ] eqn:I; [ | exact NF].
  destruct (index_of_Some _ _ _ I) as (m & Hm & <-).
  rewrite remove_memos, saveData_eq, (nth_map_memo i ms m Hm).
  pose proof (backup_same e (after_load st)) as (_ & _ & _ & L').
  destruct (writeFile_fails e); cbn [fst snd].
  - exists ms. unfold errorHandler. cbn [fst snd]. fields. rewrite L', L.
    refuse (holds_backup e _ _ H1).
  - change (get_prop (lit "id") (json_of_memo m))
      with (@Ok (option json) (Some (JNum (memo_id m)))).
    cbn [is_number]. fields. rewrite L', L.
    exists (remove_at i ms).
    pose proof (effect_deleted e (lastId st) ms p i m P I Hm) as Ef.
    destruct (memo_id m =? lastId st)%Z; cbn [fst snd]; fields;
      (split; [ | split; [unfold holds; fields; apply JSON_parse_memos
                         | intros _; split; reflexivity]]).
    + exact Ef.
    + rewrite L', L. exact Ef.
Qed.

Lemma loadData_same (e : env) (st : state) :
  data_file (snd (loadData e st)) = data_file st
  /\ memosCache (snd (loadData e st)) = memosCache st
  /\ cacheTimestamp (snd (loadData e st)) = cacheTimestamp st
  /\ lastId (snd (loadData e st)) = lastId st.
Proof.
  unfold loadData, readFile. destruct (readFile_fails e); [cbn; auto | ].
  destruct (data_file st) as [text | ] eqn:E; [ | cbn; auto].
  destruct (JSON_parse text) as [[] | ]; cbn; auto.
Qed.

Lemma loadDataWithCache_same (e : env) (st : state) :
  data_file (snd (loadDataWithCache cfg e st)) = data_file st
  /\ lastId (snd (loadDataWithCache cfg e st)) = lastId st.
Proof.
  unfold loadDataWithCache.
  destruct (cacheEnabled cfg); cbn [negb].
  - destruct (cache_hit cfg (Date_now e) st); [cbn; auto | ].
    unfold bind, modify, ret.
    pose proof (loadData_same e (add_log DebugFromFile st)) as (D & _ & _ & L).
    destruct (loadData e (add_log DebugFromFile st)) as [[xs | x] st1];
      cbn [fst snd] in *; fields; auto.
  - pose proof (loadData_same e st) as (D & _ & _ & L). auto.
Qed.

Lemma get_memos_same (e : env) (st : state) :
  data_file (snd (get_memos cfg e st)) = data_file st
  /\ lastId (snd (get_memos cfg e st)) = lastId st
  /\ (code (fst (get_memos cfg e st)) = 200%nat \/ code (fst (get_memos cfg e st)) = 500%nat).
Proof.
  unfold get_memos, handle, bind, ret, errorHandler.
  pose proof (loadDataWithCache_same e st) as (D & L).
  destruct (loadDataWithCache cfg e st) as [[xs | x] st1]; cbn [fst snd] in *; fields; auto.
Qed.

(** Every request acts on the stored collection and on the counter as
    [effect] says, and a write that was carried out leaves the cache empty. *)
Lemma step_effect (e : env) (rq : request) (st : state) (ms : list memo) :
  holds st ms ->
  exists ms',
    effect e (lastId st) ms rq (fst (step cfg e rq st)) ms' (lastId (snd (step cfg e rq st)))
    /\ holds (snd (step cfg e rq st)) ms'
    /\ (rq <> GetMemos -> succeeded (fst (step cfg e rq st)) ->
        cache_empty (snd (step cfg e rq st))).
Proof.
  intros H. destruct rq as [| b | p b | p]; cbn [step].
  - destruct (get_memos_same e st) as (D & L & C).
    exists ms. rewrite L. split; [apply effect_read, C | ].
    split; [ | congruence]. unfold holds. rewrite D. exact H.
  - destruct (post_memo_effect e b st ms H) as (ms' & Ef & H' & C). eauto.
  - destruct (put_memo_effect e p b st ms H) as (ms' & Ef & H' & C). eauto.
  - destruct (delete_memo_effect e p st ms H) as (ms' & Ef & H' & C). eauto.
Qed.

End HandlerFacts.

Local Close Scope N_scope.
Local Open Scope Z_scope.





(** Within the safe range the counter moves as the integers do. *)
Lemma round53_exact (n : Z) : Z.abs n <= 2 ^ 53 -> round53 n = n.
Proof. intros H. unfold round53. apply Z.leb_le in H. rewrite H. reflexivity. Qed.

Ltac bounds :=
  unfold safe, room in *; change (2 ^ 53) with 9007199254740992 in *.

Lemma js_succ_safe (n : Z) : safe n -> js_succ n = n + 1.
Proof. intros H. apply round53_exact. bounds. lia. Qed.






Section RunFacts.

Variable cfg : config.









End RunFacts.

Lemma ids_of_memos (ms : list memo) : ids_of (json_of_memos ms) = Ok (map memo_id ms).
Proof.
  unfold json_of_memos. induction ms as [| m ms IH]; [reflexivity | ].
  cbn [map ids_of].
  change (get_prop (lit "id") (json_of_memo m)) with (@Ok (option json) (Some (JNum (memo_id m)))).
  cbv iota. rewrite IH. reflexivity.
Qed.

Lemma Math_max_ge (x : Z) (xs : list Z) :
  x <= Math_max x xs /\ Forall (fun y => y <= Math_max x xs) xs.
Proof.
  unfold Math_max. revert x. induction xs as [| y ys IH]; intros x; cbn [fold_left].
  - split; [lia | constructor].
  - destruct (IH (Z.max x y)) as (A & B). split; [lia | ].
    constructor; [lia | exact B].
Qed.

(** [start] leaves the counter at the largest id, or where it was when the
    collection is empty. *)
Lemma start_consistent (e : env) (st : state) (ms : list memo) :
  holds st ms -> NoDup (map memo_id ms) -> readFile_fails e = false ->
  exists st', start e st = Some st' /\ consistent st'
              /\ lastId st' = match map memo_id ms with
                              | x :: xs => Math_max x xs
                              | [] => lastId st
                              end.
Proof.
  intros H D R. unfold start, initializeLastId, bind, lift, modify, ret.
  rewrite (loadData_holds e st ms H), R.
  pose proof (holds_after_load st ms H) as H1.
  pose proof (after_load_same st) as (_ & _ & _ & L).
  destruct ms as [| m ms].
  - cbn [json_of_memos map]. eexists. split; [reflexivity | ].
    split; [ | exact L]. exists []. split; [exact H1 | split; constructor].
  - change (json_of_memos (m :: ms)) with (json_of_memo m :: json_of_memos ms) at 1.
    cbv iota. change (json_of_memo m :: json_of_memos ms) with (json_of_memos (m :: ms)).
    rewrite ids_of_memos. cbn [map]. eexists. split; [reflexivity | ].
    split; [ | reflexivity].
    exists (m :: ms). split; [exact H1 | ]. split; [exact D | ].
    destruct (Math_max_ge (memo_id m) (map memo_id ms)) as (A & B).
    constructor; [exact A | ]. rewrite Forall_map in B. exact B.
Qed.

Section Allocation.

Variable cfg : config.




End Allocation.

Section CacheAndBackup.

Variable cfg : config.

Lemma get_memos_uncached (e : env) (st : state) (ms : list memo) :
  cache_empty st -> holds st ms -> readFile_fails e = false ->
  fst (get_memos cfg e st) = Reply 200 (Json (JArr (json_of_memos ms))).
Proof.
  intros (C & _) H R.
  unfold get_memos, handle, loadDataWithCache, cache_hit.
  unfold bind, ret, modify.
  destruct (cacheEnabled cfg); cbn [negb].
  - rewrite C. cbv iota.
    rewrite (loadData_holds e (add_log DebugFromFile st) ms) by exact H.
    rewrite R. reflexivity.
  - rewrite (loadData_holds e st ms H), R. reflexivity.
Qed.

Lemma effect_succeeded (e : env) (last : Z) (ms : list memo) (rq : request) (r : reply)
    (ms' : list memo) (last' : Z) :
  effect e last ms rq r ms' last' -> rq <> GetMemos -> succeeded r ->
  match rq with
  | GetMemos => False
  | PostMemo b =>
      r = Reply 201 (Json (json_of_memo (created e b last)))
      /\ ms' = ms ++ [created e b last]
  | PutMemo p b =>
      exists i m, parseInt p = Some (memo_id m) /\ index_of (memo_id m) ms = Some i
                  /\ nth_error ms i = Some m
                  /\ r = Reply 200 (Json (json_of_memo (edited e b m)))
                  /\ ms' = update_at i (edited e b) ms
  | DeleteMemo p =>
      exists i m, parseInt p = Some (memo_id m) /\ index_of (memo_id m) ms = Some i
                  /\ nth_error ms i = Some m
                  /\ r = Reply 200 (Json (json_of_memo m))
                  /\ ms' = remove_at i ms
  end.
Proof.
  intros Ef W S. unfold succeeded in S.
  destruct Ef; try congruence; try (exfalso; intuition congruence); eauto 10.
Qed.

(** C5.  When a create, update or delete request is answered 201 or 200, the
    cached snapshot and its time stamp are gone, the file holds the changed
    collection, and the next list request, whatever the clock reads and
    however recently the cache was filled, answers with that collection. *)
Theorem list_after_write_is_fresh (e : env) (rq : request) (st : state) (ms : list memo) :
  holds st ms -> rq <> GetMemos -> succeeded (fst (step cfg e rq st)) ->
  cache_empty (snd (step cfg e rq st))
  /\ exists ms',
       holds (snd (step cfg e rq st)) ms'
       /\ match rq with
          | GetMemos => False
          | PostMemo b =>
              fst (step cfg e rq st) = Reply 201 (Json (json_of_memo (created e b (lastId st))))
              /\ ms' = ms ++ [created e b (lastId st)]
          | PutMemo p b =>
              exists i m, parseInt p = Some (memo_id m) /\ index_of (memo_id m) ms = Some i
                          /\ nth_error ms i = Some m
                          /\ fst (step cfg e rq st) = Reply 200 (Json (json_of_memo (edited e b m)))
                          /\ ms' = update_at i (edited e b) ms
          | DeleteMemo p =>
              exists i m, parseInt p = Some (memo_id m) /\ index_of (memo_id m) ms = Some i
                          /\ nth_error ms i = Some m
                          /\ fst (step cfg e rq st) = Reply 200 (Json (json_of_memo m))
                          /\ ms' = remove_at i ms
          end
       /\ forall e', readFile_fails e' = false ->
            fst (get_memos cfg e' (snd (step cfg e rq st)))
            = Reply 200 (Json (JArr (json_of_memos ms'))).
Proof.
  intros H W S.
  destruct (step_effect cfg e rq st ms H) as (ms' & Ef & H' & C).
  specialize (C W S). split; [exact C | ].
  exists ms'. split; [exact H' | ]. split.
  - apply (effect_succeeded _ _ _ _ _ _ _ Ef W S).
  - intros e' R. apply get_memos_uncached; assumption.
Qed.

(** C10.  When the write of [saveData] fails, [saveData] throws and leaves
    the cached snapshot, its time stamp and the file as they were; with the
    cache enabled, a read within the cache duration still returns the
    snapshot that was cached, not the data whose save failed. *)
Theorem failed_save_keeps_cache (e : env) (data : list json) (st : state) :
  writeFile_fails e = true ->
  fst (saveData cfg e data st) = Throw ErrSave
  /\ memosCache (snd (saveData cfg e data st)) = memosCache st
  /\ cacheTimestamp (snd (saveData cfg e data st)) = cacheTimestamp st
  /\ data_file (snd (saveData cfg e data st)) = data_file st
  /\ forall e' c t,
       cacheEnabled cfg = true -> memosCache st = Some c -> cacheTimestamp st = Some t ->
       t <> 0 -> Date_now e' - t < cacheDuration cfg ->
       fst (loadDataWithCache cfg e' (snd (saveData cfg e data st))) = Ok c
       /\ fst (get_memos cfg e' (snd (saveData cfg e data st))) = Reply 200 (Json (JArr c)).
Proof.
  intros W. rewrite saveData_eq, W. cbn [fst snd]. fields.
  destruct (backup_same cfg e st) as (D & C & T & _).
  split; [reflexivity | ]. split; [exact C | ]. split; [exact T | ]. split; [exact D | ].
  intros e' c t En Hc Ht Nz Fresh.
  assert (Hit : cache_hit cfg (Date_now e') (add_log ErrorSave (backup cfg e st)) = Some c).
  { unfold cache_hit. fields. rewrite C, T, Hc, Ht.
    assert ((t =? 0) = false) as -> by (apply Z.eqb_neq; assumption).
    assert ((Date_now e' - t <? cacheDuration cfg) = true) as -> by (apply Z.ltb_lt; assumption).
    reflexivity. }
  split.
  - unfold loadDataWithCache. rewrite En, Hit. reflexivity.
  - unfold get_memos, handle, loadDataWithCache. unfold bind, ret.
    rewrite En, Hit. reflexivity.
Qed.

(** C9.  With backup on save enabled: the copy is made from the file as it
    was before the write; when the copy fails, a warning is logged, the
    backup stays as it was, and the write goes ahead all the same: whether
    [saveData] returns or throws depends on the write alone. *)
Theorem backup_failure_does_not_fail_save (e : env) (data : list json) (st : state) :
  backupEnabled cfg = true ->
  (forall old, copyFile_fails e = false -> data_file st = Some old ->
     backup_file (snd (saveData cfg e data st)) = Some old)
  /\ (copyFile e st = None ->
      In WarnBackup (log (snd (saveData cfg e data st)))
      /\ backup_file (snd (saveData cfg e data st)) = backup_file st)
  /\ (writeFile_fails e = false ->
      fst (saveData cfg e data st) = Ok tt
      /\ data_file (snd (saveData cfg e data st)) = Some (JSON_stringify (JArr data)))
  /\ (writeFile_fails e = true -> fst (saveData cfg e data st) = Throw ErrSave).
Proof.
  intros B. rewrite saveData_eq. unfold backup. rewrite B.
  split; [ | split; [ | split]].
  - intros old F D. unfold copyFile. rewrite F, D.
    destruct (writeFile_fails e); reflexivity.
  - intros F. rewrite F. destruct (writeFile_fails e); cbn; auto.
  - intros W. rewrite W. split; reflexivity.
  - intros W. rewrite W. reflexivity.
Qed.

End CacheAndBackup.

Section UpdateAndRoundTrip.

Variable cfg : config.

Lemma put_memo_ok (e : env) (p : jsstring) (b : body) (st : state) (ms : list memo)
    (i : nat) (m : memo) :
  holds st ms -> idParamSchema p = true -> memoBodySchema b = true ->
  parseInt p = Some (memo_id m) -> index_of (memo_id m) ms = Some i ->
  nth_error ms i = Some m -> readFile_fails e = false -> writeFile_fails e = false ->
  put_memo cfg e p b st =
  (Reply 200 (Json (json_of_memo (edited e b m))),
   add_log DebugSaved
     (clearCache
        (set_data_file
           (Some (JSON_stringify (JArr (json_of_memos (update_at i (edited e b) ms)))))
           (backup cfg e (after_load st))))).
Proof.
  intros H Sp Sb P I Hm R W. unfold put_memo. rewrite Sp, Sb. cbn [andb negb].
  unfold handle, bind, lift, ret. rewrite (loadData_holds e st ms H), R, P.
  rewrite findIndex_id_memos, I, edit_memos, saveData_eq, W.
  rewrite (nth_map_memo i _ (edited e b m)) by (apply update_at_nth_error, Hm).
  reflexivity.
Qed.

(** C6, as the code has it.  An update of a memo that is in the collection
    answers with that memo under the same id and the same createdAt, with the
    trimmed title and content of the request and with updatedAt set to the
    clock reading of the request; the file then holds the collection with
    this memo at the same place and every other memo as it was.  The new
    updatedAt is not below the previous one whenever the clock reading is
    not. *)
Theorem update_keeps_identity (e : env) (p : jsstring) (b : body) (st : state)
    (ms : list memo) (id : Z) (i : nat) :
  holds st ms -> index_of id ms = Some i -> parseInt p = Some id ->
  idParamSchema p = true -> memoBodySchema b = true ->
  readFile_fails e = false -> writeFile_fails e = false ->
  exists m m' ms',
    nth_error ms i = Some m /\ memo_id m = id
    /\ fst (put_memo cfg e p b st) = Reply 200 (Json (json_of_memo m'))
    /\ holds (snd (put_memo cfg e p b st)) ms'
    /\ memo_id m' = memo_id m /\ memo_createdAt m' = memo_createdAt m
    /\ memo_title m' = trim (title b) /\ memo_content m' = trim (content b)
    /\ memo_updatedAt m' = Date_iso e
    /\ length ms' = length ms /\ nth_error ms' i = Some m'
    /\ (forall j, j <> i -> nth_error ms' j = nth_error ms j)
    /\ (stamp_leb (memo_updatedAt m) (Date_iso e) = true ->
        stamp_leb (memo_updatedAt m) (memo_updatedAt m') = true).
Proof.
  intros H I P Sp Sb R W.
  destruct (index_of_Some _ _ _ I) as (m & Hm & <-).
  rewrite (put_memo_ok e p b st ms i m) by assumption. cbn [fst snd].
  exists m, (edited e b m), (update_at i (edited e b) ms).
  split; [exact Hm | ]. split; [reflexivity | ]. split; [reflexivity | ].
  split; [unfold holds; cbn; apply JSON_parse_memos | ].
  do 5 (split; [reflexivity | ]).
  split; [apply update_at_length | ].
  split; [apply update_at_nth_error, Hm | ].
  split; [intros j N; apply update_at_other; congruence | ].
  intros L. exact L.
Qed.

(** C4.  A collection that [saveData] wrote is what [loadData] reads next:
    the same memos in the same order, each with the same five fields. *)
Theorem save_then_load (c : list memo) (e e' : env) (st : state) :
  writeFile_fails e = false -> readFile_fails e' = false ->
  fst (saveData cfg e (json_of_memos c) st) = Ok tt
  /\ data_file (snd (saveData cfg e (json_of_memos c) st))
     = Some (JSON_stringify (JArr (json_of_memos c)))
  /\ fst (loadData e' (snd (saveData cfg e (json_of_memos c) st))) = Ok (json_of_memos c)
  /\ map memo_of_json (json_of_memos c) = map Some c.
Proof.
  intros W R. rewrite saveData_eq, W. cbn [fst snd].
  split; [reflexivity | ]. split; [reflexivity | ]. split.
  - rewrite (loadData_holds e' _ c) by (unfold holds; cbn; apply JSON_parse_memos).
    rewrite R. reflexivity.
  - unfold json_of_memos. rewrite map_map. apply map_ext. apply memo_of_json_of_memo.
Qed.

End UpdateAndRoundTrip.

(** C2, as the code has it.  When the file does not exist, [loadData]
    returns the empty array.  When its text is not JSON, [loadData] throws
    the error that says the file is corrupt; when it is JSON but not an
    array, the error that says its format is wrong.  When it is a JSON array,
    [loadData] returns that array as it is, whatever its elements are; in
    particular it returns the collection the file holds. *)
Theorem loadData_contract (e : env) (st : state) :
  readFile_fails e = false ->
  (data_file st = None -> fst (loadData e st) = Ok [])
  /\ (forall text, data_file st = Some text -> JSON_parse text = None ->
        fst (loadData e st) = Throw ErrCorrupt)
  /\ (forall text v, data_file st = Some text -> JSON_parse text = Some v ->
        (forall xs, v <> JArr xs) -> fst (loadData e st) = Throw ErrFormat)
  /\ (forall text xs, data_file st = Some text -> JSON_parse text = Some (JArr xs) ->
        loadData e st = (Ok xs, st))
  /\ (forall ms, holds st ms -> fst (loadData e st) = Ok (json_of_memos ms)).
Proof.
  intros R. unfold loadData, readFile. rewrite R.
  split; [ | split; [ | split; [ | split]]].
  - intros D. rewrite D. reflexivity.
  - intros text D P. rewrite D, P. reflexivity.
  - intros text v D P N. rewrite D, P. destruct v; try reflexivity.
    exfalso. exact (N xs eq_refl).
  - intros text xs D P. rewrite D, P. reflexivity.
  - intros ms H. unfold holds in H. destruct (data_file st) as [text | ].
    + rewrite H. reflexivity.
    + subst ms. reflexivity.
Qed.

(** C2, where the claim fails: the file holds a JSON array none of whose
    elements is a memo, and [loadData] returns it. *)
Lemma loadData_returns_any_array :
  fst (loadData (calm 0 []) (fresh (Some (lit "[1, true, null]")) None))
  = Ok [JNum 1; JBool true; JNull]
  /\ map memo_of_json [JNum 1; JBool true; JNull] = [None; None; None].
Proof. split; reflexivity. Qed.


(** C8, the failing input: a title that is one space passes the schema, is
    trimmed by the handler, and the memo is stored and returned with the
    empty title (likewise through an update, and for the ideographic space);
    the basic server refuses the same request. *)
Lemma blank_title_is_accepted :
  let e := calm 0 (lit "2024-01-01T00:00:00.000Z") in
  let b := {| title := [32%N]; content := lit "x" |} in
  let m := {| memo_id := 1; memo_title := []; memo_content := lit "x";
              memo_createdAt := Date_iso e; memo_updatedAt := Date_iso e |} in
  memoBodySchema b = true
  /\ fst (post_memo default_config e b (fresh None None)) = Reply 201 (Json (json_of_memo m))
  /\ holds (snd (post_memo default_config e b (fresh None None))) [m]
  /\ fst (put_memo default_config e (lit "1") {| title := [12288%N]; content := lit "y" |}
            (snd (post_memo default_config e b (fresh None None))))
     = Reply 200 (Json (json_of_memo
                          {| memo_id := 1; memo_title := []; memo_content := lit "y";
                             memo_createdAt := Date_iso e; memo_updatedAt := Date_iso e |}))
  /\ fst (Basic.post_memo e b (fresh None None)) = Reply 400 (ErrorBody MsgTitleRequired).
Proof. cbv zeta. repeat split; vm_compute; reflexivity. Qed.

(** C6, where the claim fails: a memo created when the clock read 2 January
    is updated when the clock reads 1 January; its updatedAt goes back. *)
Lemma update_can_lower_updatedAt :
  let late := calm 0 (lit "2024-01-02T00:00:00.000Z") in
  let early := calm 0 (lit "2024-01-01T00:00:00.000Z") in
  let b := {| title := lit "a"; content := lit "b" |} in
  let st1 := snd (post_memo default_config late b (fresh None None)) in
  let m := created late b 0 in
  let m' := edited early b m in
  holds st1 [m]
  /\ fst (put_memo default_config early (lit "1") b st1) = Reply 200 (Json (json_of_memo m'))
  /\ holds (snd (put_memo default_config early (lit "1") b st1)) [m']
  /\ stamp_leb (memo_updatedAt m) (memo_updatedAt m') = false.
Proof. cbv zeta. repeat split; vm_compute; reflexivity. Qed.


(** ** The claims on concrete runs *)



Lemma two_memos_safe : safe (lastId two_memos).
Proof. split; reflexivity. Qed.

Lemma two_memos_holds : holds two_memos two_list.
Proof. vm_compute. reflexivity. Qed.

Lemma two_memos_cached_holds : holds two_memos_cached two_list.
Proof. vm_compute. reflexivity. Qed.






Lemma list_after_write_is_fresh_witness :
  holds two_memos_cached two_list
  /\ cache_hit default_config 2700 two_memos_cached = Some (json_of_memos two_list)
  /\ fst (get_memos default_config (calm 2700 noon)
            (snd (step default_config (calm 2600 noon) (PostMemo laundry) two_memos_cached)))
     = Reply 200 (Json (JArr (json_of_memos
                                (two_list ++ [created (calm 2600 noon) laundry 2])))).
Proof.
  split; [exact two_memos_cached_holds | ]. split; [vm_compute; reflexivity | ].
  destruct (list_after_write_is_fresh default_config (calm 2600 noon) (PostMemo laundry)
              two_memos_cached two_list two_memos_cached_holds)
    as (_ & ms' & _ & (_ & E) & G).
  - discriminate.
  - right. vm_compute. reflexivity.
  - rewrite (G (calm 2700 noon) eq_refl), E. reflexivity.
Defined.

Lemma failed_save_keeps_cache_witness :
  writeFile_fails (disk_full 2600 noon) = true
  /\ fst (saveData default_config (disk_full 2600 noon) [] two_memos_cached) = Throw ErrSave
  /\ fst (get_memos default_config (calm 2700 noon)
            (snd (saveData default_config (disk_full 2600 noon) [] two_memos_cached)))
     = Reply 200 (Json (JArr (json_of_memos two_list))).
Proof.
  split; [reflexivity | ].
  destruct (failed_save_keeps_cache default_config (disk_full 2600 noon) []
              two_memos_cached eq_refl) as (T & _ & _ & _ & G).
  split; [exact T | ].
  apply (G (calm 2700 noon) (json_of_memos two_list) 2500).
  - reflexivity.
  - vm_compute. reflexivity.
  - vm_compute. reflexivity.
  - discriminate.
  - vm_compute. reflexivity.
Defined.

Lemma backup_failure_does_not_fail_save_witness :
  backupEnabled backup_config = true
  /\ copyFile (calm 0 noon) (fresh None None) = None
  /\ In WarnBackup (log (snd (saveData backup_config (calm 0 noon) [] (fresh None None))))
  /\ fst (saveData backup_config (calm 0 noon) [] (fresh None None)) = Ok tt
  /\ data_file (snd (saveData backup_config (calm 0 noon) [] (fresh None None)))
     = Some (lit "[]").
Proof.
  split; [reflexivity | ]. split; [reflexivity | ].
  destruct (backup_failure_does_not_fail_save backup_config (calm 0 noon) []
              (fresh None None) eq_refl) as (_ & W & S & _).
  split; [exact (proj1 (W eq_refl)) | exact (S eq_refl)].
Defined.

Lemma update_keeps_identity_witness :
  holds two_memos two_list
  /\ exists m',
       fst (put_memo default_config (calm 3000 evening) (lit "1") laundry two_memos)
       = Reply 200 (Json (json_of_memo m'))
       /\ memo_id m' = 1 /\ memo_createdAt m' = noon /\ memo_updatedAt m' = evening.
Proof.
  split; [exact two_memos_holds | ].
  destruct (update_keeps_identity default_config (calm 3000 evening) (lit "1") laundry
              two_memos two_list 1 0 two_memos_holds)
    as (m & m' & ms' & Hm & _ & R & _ & I & C & _ & _ & U & _); try reflexivity.
  exists m'. injection Hm as <-. auto.
Defined.

Lemma save_then_load_witness :
  writeFile_fails (calm 0 noon) = false
  /\ fst (loadData (calm 1 noon)
            (snd (saveData default_config (calm 0 noon) (json_of_memos awkward)
                    (fresh None None))))
     = Ok (json_of_memos awkward).
Proof.
  split; [reflexivity | ].
  exact (proj1 (proj2 (proj2 (save_then_load default_config awkward (calm 0 noon)
                                (calm 1 noon) (fresh None None) eq_refl eq_refl)))).
Defined.

Lemma loadData_contract_witness :
  readFile_fails (calm 0 noon) = false
  /\ fst (loadData (calm 0 noon) (fresh (Some (lit "[1, 2")) None)) = Throw ErrCorrupt
  /\ fst (loadData (calm 0 noon) two_memos) = Ok (json_of_memos two_list).
Proof.
  split; [reflexivity | ]. split.
  - apply (proj1 (proj2 (loadData_contract (calm 0 noon) (fresh (Some (lit "[1, 2")) None)
                           eq_refl)) (lit "[1, 2")); reflexivity.
  - apply (proj2 (proj2 (proj2 (proj2 (loadData_contract (calm 0 noon) two_memos eq_refl))))).
    exact two_memos_holds.
Defined.


(** ** The basic server *)

(** Whatever fails, the read or the parse, the basic [loadData] answers with
    the empty array and says nothing. *)
Lemma basic_loadData_swallows (e : env) (st : state) :
  readFile_fails e = true \/ data_file st = None
  \/ (exists text, data_file st = Some text /\ JSON_parse text = None) ->
  Basic.loadData e st = (Ok (JArr []), st).
Proof.
  unfold Basic.loadData, readFile. intros [R | [D | (text & D & P)]].
  - rewrite R. reflexivity.
  - rewrite D. destruct (readFile_fails e); reflexivity.
  - rewrite D. destruct (readFile_fails e); cbv iota beta; [reflexivity | ].
    rewrite P. reflexivity.
Qed.

Lemma basic_loadData_swallows_witness :
  data_file (fresh (Some (lit "[1, 2")) None) = Some (lit "[1, 2")
  /\ JSON_parse (lit "[1, 2") = None
  /\ fst (Basic.get_memos (calm 0 noon) (fresh (Some (lit "[1, 2")) None))
     = Reply 200 (Json (JArr [])).
Proof.
  split; [reflexivity | ]. split; [reflexivity | ].
  unfold Basic.get_memos, Basic.handle, bind, ret.
  rewrite (basic_loadData_swallows (calm 0 noon) (fresh (Some (lit "[1, 2")) None));
    [reflexivity | ].
  right. right. exists (lit "[1, 2"). split; reflexivity.
Defined.

Lemma basic_loadData_holds (e : env) (st : state) (ms : list memo) :
  holds st ms -> readFile_fails e = false ->
  Basic.loadData e st = (Ok (JArr (json_of_memos ms)), st).
Proof.
  unfold holds, Basic.loadData, readFile. intros H R. rewrite R.
  destruct (data_file st) as [text | ]; cbv iota beta.
  - rewrite H. reflexivity.
  - subst ms. reflexivity.
Qed.

(** The update of the basic server keeps id and createdAt, replaces title,
    content and updatedAt, and leaves the other memos as they were. *)
Lemma basic_put_keeps_identity (e : env) (p : jsstring) (b : body) (st : state)
    (ms : list memo) (i : nat) (m : memo) :
  holds st ms -> Basic.blank (title b) = false -> Basic.blank (content b) = false ->
  parseInt p = Some (memo_id m) -> index_of (memo_id m) ms = Some i ->
  nth_error ms i = Some m -> readFile_fails e = false -> writeFile_fails e = false ->
  fst (Basic.put_memo e p b st) = Reply 200 (Json (json_of_memo (edited e b m)))
  /\ holds (snd (Basic.put_memo e p b st)) (update_at i (edited e b) ms)
  /\ (forall j, j <> i ->
        nth_error (update_at i (edited e b) ms) j = nth_error ms j).
Proof.
  intros H Bt Bc P I Hm R W. unfold Basic.put_memo. rewrite Bt, Bc.
  unfold Basic.handle, bind, lift, ret.
  rewrite (basic_loadData_holds e st ms H R). cbn [Basic.as_array].
  rewrite P, findIndex_id_memos, I, edit_memos.
  unfold Basic.saveData. rewrite W.
  rewrite (nth_map_memo i _ (edited e b m)) by (apply update_at_nth_error, Hm).
  cbn [fst snd]. split; [reflexivity | ]. split.
  - unfold holds. cbn. apply JSON_parse_memos.
  - intros j N. apply update_at_other. congruence.
Qed.

Lemma basic_put_keeps_identity_witness :
  holds two_memos two_list
  /\ fst (Basic.put_memo (calm 3000 evening) (lit " 2nd") laundry two_memos)
     = Reply 200 (Json (json_of_memo (edited (calm 3000 evening) laundry
                                        (created (calm 2000 noon) cleaning 1)))).
Proof.
  split; [exact two_memos_holds | ].
  apply (proj1 (basic_put_keeps_identity (calm 3000 evening) (lit " 2nd") laundry two_memos
                  two_list 1 (created (calm 2000 noon) cleaning 1) two_memos_holds
                  eq_refl eq_refl eq_refl eq_refl eq_refl eq_refl eq_refl)).
Defined.


(** ** A run of the improved server *)

(** Two memos are created with ids 1 and 2; memo 2 is deleted and the next
    memo created gets id 2 again; the list then holds ids 1 and 2. *)
Lemma reuse_of_the_highest_id :
  let rs :=
    fst (run default_config
           [(calm 1000 noon, PostMemo shopping); (calm 2000 noon, PostMemo cleaning);
            (calm 3000 noon, DeleteMemo (lit "2")); (calm 4000 evening, PostMemo laundry);
            (calm 5000 evening, GetMemos)]
           (fresh None None)) in
  created_ids rs = [1; 2; 2]
  /\ nth 0 rs (Reply 0 (ErrorBody MsgInternal))
     = Reply 201 (Json (json_of_memo (created (calm 1000 noon) shopping 0)))
  /\ nth 4 rs (Reply 0 (ErrorBody MsgInternal))
     = Reply 200 (Json (JArr (json_of_memos
                                [created (calm 1000 noon) shopping 0;
                                 created (calm 4000 evening) laundry 1]))).
Proof. cbv zeta. repeat split; vm_compute; reflexivity. Qed.

(** ** Further properties of the embedding *)

(** What [JSON.stringify (v, null, 2)] writes for a canonical value is read
    back by [JSON.parse] as that value, and [JSON_parse] never answers [None]
    for lack of fuel. *)
Theorem JSON_round_trip (v : json) :
  canonical v ->
  JSON_parse (JSON_stringify v) = Some v
  /\ forall s, parse_value (parse_fuel s) s <> OutOfFuel.
Proof. intros C. split; [apply JSON_parse_stringify, C | apply parse_value_fuel]. Qed.

Lemma JSON_round_trip_witness :
  let v := JArr [JObj [(lit "a", JArr []); (lit "b", JObj [(lit "c", JNum (-12))])];
                 JStr [34; 55357; 10]%N; JNull; JBool false] in
  canonical v /\ JSON_parse (JSON_stringify v) = Some v.
Proof.
  cbv zeta.
  assert (C : canonical
                (JArr [JObj [(lit "a", JArr []); (lit "b", JObj [(lit "c", JNum (-12))])];
                       JStr [34; 55357; 10]%N; JNull; JBool false])).
  { apply canonical_arr. repeat apply Forall_cons; try apply Forall_nil;
      try constructor.
    - cbn. repeat constructor; cbn; intuition discriminate.
    - repeat apply Forall_cons; try apply Forall_nil; (split; [reflexivity | ]).
      + apply canonical_arr. constructor.
      + apply canonical_obj; [cbn; repeat constructor; cbn; tauto | ].
        repeat constructor. }
  split; [exact C | exact (proj1 (JSON_round_trip _ C))].
Defined.

Lemma start_consistent_witness :
  let st := fresh (Some (JSON_stringify (JArr (json_of_memos awkward)))) None in
  holds st awkward
  /\ exists st', start (calm 0 noon) st = Some st' /\ consistent st' /\ lastId st' = 7.
Proof.
  cbv zeta.
  assert (H : holds (fresh (Some (JSON_stringify (JArr (json_of_memos awkward)))) None)
                awkward) by apply JSON_parse_memos.
  split; [exact H | ].
  destruct (start_consistent (calm 0 noon) _ awkward H) as (st' & S & C & L).
  - cbn. repeat constructor; cbn; intuition discriminate.
  - reflexivity.
  - exists st'. auto.
Defined.

(** ** Escaping for the page *)

Local Open Scope N_scope.

Lemma replace_all_app (c : N) (b s t : jsstring) :
  replace_all c b (s ++ t) = replace_all c b s ++ replace_all c b t.
Proof.
  induction s as [| x s IH]; cbn [replace_all app]; [reflexivity | ].
  rewrite IH, app_assoc. reflexivity.
Qed.

Lemma replace_all_one (c : N) (b : jsstring) (x : N) :
  replace_all c b [x] = if x =? c then b else [x].
Proof. cbn. apply app_nil_r. Qed.

(** The five passes amount to one: a character reference written by an
    earlier pass holds none of the characters a later pass replaces. *)
Lemma escapeHtml_string_cons (c : N) (s : jsstring) :
  escapeHtml_string (c :: s) = entity c ++ escapeHtml_string s.
Proof.
  change (c :: s) with ([c] ++ s). unfold escapeHtml_string.
  rewrite !replace_all_app. f_equal. unfold entity.
  rewrite (replace_all_one 38).
  destruct (c =? 38) eqn:E1; [reflexivity | ].
  rewrite (replace_all_one 60).
  destruct (c =? 60) eqn:E2; [reflexivity | ].
  rewrite (replace_all_one 62).
  destruct (c =? 62) eqn:E3; [reflexivity | ].
  rewrite (replace_all_one 34).
  destruct (c =? 34) eqn:E4; [reflexivity | ].
  rewrite (replace_all_one 39).
  destruct (c =? 39) eqn:E5; reflexivity.
Qed.

Lemma entity_no_markup (c : N) : forallb (fun x => negb (markup x)) (entity c) = true.
Proof.
  unfold entity.
  destruct (c =? 38) eqn:E1; [reflexivity | ].
  destruct (c =? 60) eqn:E2; [reflexivity | ].
  destruct (c =? 62) eqn:E3; [reflexivity | ].
  destruct (c =? 34) eqn:E4; [reflexivity | ].
  destruct (c =? 39) eqn:E5; [reflexivity | ].
  cbn. unfold markup. rewrite E2, E3, E4, E5. reflexivity.
Qed.

Lemma escapeHtml_string_no_markup (s : jsstring) :
  forallb (fun x => negb (markup x)) (escapeHtml_string s) = true.
Proof.
  induction s as [| c s IH]; [reflexivity | ].
  rewrite escapeHtml_string_cons, forallb_app, entity_no_markup, IH. reflexivity.
Qed.

Lemma unescape_entity (c : N) (s : jsstring) :
  unescape_from 0 (entity c ++ s) = c :: unescape_from 0 s.
Proof.
  unfold entity.
  destruct (c =? 38) eqn:E1; [apply N.eqb_eq in E1; subst c; reflexivity | ].
  destruct (c =? 60) eqn:E2; [apply N.eqb_eq in E2; subst c; reflexivity | ].
  destruct (c =? 62) eqn:E3; [apply N.eqb_eq in E3; subst c; reflexivity | ].
  destruct (c =? 34) eqn:E4; [apply N.eqb_eq in E4; subst c; reflexivity | ].
  destruct (c =? 39) eqn:E5; [apply N.eqb_eq in E5; subst c; reflexivity | ].
  cbn [app unescape_from]. rewrite E1. reflexivity.
Qed.

Lemma unescape_escape (s : jsstring) : unescapeHtml (escapeHtml_string s) = s.
Proof.
  unfold unescapeHtml. induction s as [| c s IH]; [reflexivity | ].
  rewrite escapeHtml_string_cons, unescape_entity, IH. reflexivity.
Qed.

Lemma entity_length (c : N) :
  (1 <= length (entity c))%nat /\ (special c = true -> 1 < length (entity c))%nat.
Proof.
  unfold entity, special.
  destruct (c =? 38); [cbn; split; lia | ].
  destruct (c =? 60); [cbn; split; lia | ].
  destruct (c =? 62); [cbn; split; lia | ].
  destruct (c =? 34); [cbn; split; lia | ].
  destruct (c =? 39); [cbn; split; lia | ].
  cbn. split; [lia | discriminate].
Qed.

Lemma entity_plain (c : N) : special c = false -> entity c = [c].
Proof.
  unfold entity, special. intros H.
  destruct (c =? 38); [discriminate | ].
  destruct (c =? 60); [discriminate | ].
  destruct (c =? 62); [discriminate | ].
  destruct (c =? 34); [discriminate | ].
  destruct (c =? 39); [discriminate | reflexivity].
Qed.

Lemma entity_special (c : N) : special c = true -> existsb special (entity c) = true.
Proof.
  unfold entity, special.
  destruct (c =? 38); [reflexivity | ].
  destruct (c =? 60); [reflexivity | ].
  destruct (c =? 62); [reflexivity | ].
  destruct (c =? 34); [reflexivity | ].
  destruct (c =? 39); [reflexivity | discriminate].
Qed.

Lemma escapeHtml_string_length (s : jsstring) :
  (length s <= length (escapeHtml_string s))%nat
  /\ (existsb special s = true -> length s < length (escapeHtml_string s))%nat.
Proof.
  induction s as [| c s (IH1 & IH2)]; [cbn; split; [lia | discriminate] | ].
  rewrite escapeHtml_string_cons, length_app. cbn [length existsb].
  destruct (entity_length c) as (L1 & L2).
  split; [lia | ].
  destruct (special c); cbn [orb]; intros H;
    [specialize (L2 eq_refl) | specialize (IH2 H)]; lia.
Qed.

Lemma escapeHtml_string_clean (s : jsstring) :
  existsb special s = false -> escapeHtml_string s = s.
Proof.
  induction s as [| c s IH]; [reflexivity | ].
  cbn [existsb]. intros H. apply orb_false_iff in H as (H1 & H2).
  rewrite escapeHtml_string_cons, (entity_plain c H1), (IH H2). reflexivity.
Qed.

Lemma escapeHtml_string_special (s : jsstring) :
  existsb special s = true -> existsb special (escapeHtml_string s) = true.
Proof.
  induction s as [| c s IH]; [discriminate | ].
  rewrite escapeHtml_string_cons, existsb_app. cbn [existsb].
  destruct (special c) eqn:E; cbn [orb]; intros H.
  - rewrite (entity_special c E). reflexivity.
  - rewrite (IH H). apply orb_true_r.
Qed.

(** What [escapeHtml] returns for a string holds no angle bracket, no
    quotation mark and no apostrophe; a value that is not a string is
    returned unchanged. *)
Theorem escapeHtml_leaves_no_markup (v : json) :
  match escapeHtml v with
  | JStr t => forallb (fun c => negb (markup c)) t = true
  | w => w = v
  end.
Proof.
  destruct v; cbn [escapeHtml]; try reflexivity. apply escapeHtml_string_no_markup.
Qed.

(** Reading the character references back gives the string that was
    escaped, so two different strings are never escaped to the same text. *)
Theorem escapeHtml_is_read_back (s : jsstring) :
  unescapeHtml (escapeHtml_string s) = s
  /\ forall t, escapeHtml_string s = escapeHtml_string t -> s = t.
Proof.
  split; [apply unescape_escape | ].
  intros t E. rewrite <- (unescape_escape s), E. apply unescape_escape.
Qed.

(** [escapeHtml] leaves a string as it is exactly when the string holds
    none of the five characters, and only then does escaping it a second
    time change nothing: text that was escaped once is escaped again. *)
Theorem escapeHtml_twice (s : jsstring) :
  (escapeHtml_string s = s <-> existsb special s = false)
  /\ (escapeHtml_string (escapeHtml_string s) = escapeHtml_string s
      <-> existsb special s = false).
Proof.
  split; split.
  - intros E. destruct (existsb special s) eqn:X; [ | reflexivity].
    pose proof (proj2 (escapeHtml_string_length s) X) as L. rewrite E in L. lia.
  - apply escapeHtml_string_clean.
  - intros E. destruct (existsb special s) eqn:X; [ | reflexivity].
    pose proof (proj2 (escapeHtml_string_length (escapeHtml_string s))
                  (escapeHtml_string_special s X)) as L.
    rewrite E in L. lia.
  - intros X. rewrite (escapeHtml_string_clean s X). apply escapeHtml_string_clean, X.
Qed.

(** ** The memo list of the page *)

Lemma count_escaped (c : N) (s : jsstring) :
  markup c = true -> count_occ N.eq_dec (escapeHtml_string s) c = 0%nat.
Proof.
  intros M. apply count_occ_not_In. intros I.
  pose proof (escapeHtml_string_no_markup s) as F. rewrite forallb_forall in F.
  specialize (F c I). rewrite M in F. discriminate F.
Qed.

Section PageFacts.

Variable toLocaleString : jsstring -> jsstring.

Lemma item_markup (m : memo) (c : N) :
  markup c = true ->
  count_occ N.eq_dec (memo_item_html toLocaleString m) c
  = count_occ N.eq_dec (memo_item_html toLocaleString (without_text m)) c.
Proof.
  intros M. unfold memo_item_html.
  cbn [without_text memo_id memo_title memo_content memo_createdAt memo_updatedAt].
  rewrite !count_occ_app, !(count_escaped c _ M). reflexivity.
Qed.

Lemma items_markup (ms : list memo) (c : N) :
  markup c = true ->
  count_occ N.eq_dec (List.concat (map (memo_item_html toLocaleString) ms)) c
  = count_occ N.eq_dec
      (List.concat (map (memo_item_html toLocaleString) (map without_text ms))) c.
Proof.
  intros M. induction ms as [| m ms IH]; [reflexivity | ].
  cbn [map List.concat]. rewrite !count_occ_app, IH, (item_markup m c M). reflexivity.
Qed.

(** In the memo list of the improved server's page, the angle brackets,
    quotation marks and apostrophes are those of the template: there are as
    many of each as when every title and content is empty, whatever the
    memos say. *)
Theorem page_markup_independent_of_text (ms : list memo) (c : N) :
  markup c = true ->
  count_occ N.eq_dec (memo_list_html toLocaleString ms) c
  = count_occ N.eq_dec (memo_list_html toLocaleString (map without_text ms)) c.
Proof.
  intros M. destruct ms as [| m0 ms0]; [reflexivity | ].
  apply (items_markup (m0 :: ms0) c M).
Qed.

(** In the basic server's page every character of a title and of a content
    is put into the page twice as it is, angle brackets and quotation marks
    included. *)
Theorem basic_page_carries_text (m : memo) (c : N) :
  count_occ N.eq_dec (BasicPage.memo_item_html toLocaleString m) c
  = (count_occ N.eq_dec (BasicPage.memo_item_html toLocaleString (without_text m)) c
     + 2 * count_occ N.eq_dec (memo_title m) c
     + 2 * count_occ N.eq_dec (memo_content m) c)%nat.
Proof.
  unfold BasicPage.memo_item_html.
  cbn [without_text memo_id memo_title memo_content memo_createdAt memo_updatedAt].
  rewrite !count_occ_app. cbn [count_occ]. lia.
Qed.

End PageFacts.

Lemma page_markup_independent_of_text_witness :
  markup 60 = true
  /\ count_occ N.eq_dec
       (memo_list_html as_written [created (calm 0 noon) scripted 0]) 60
     = count_occ N.eq_dec
         (memo_list_html as_written [without_text (created (calm 0 noon) scripted 0)]) 60.
Proof.
  split; [reflexivity | ].
  exact (page_markup_independent_of_text as_written
           [created (calm 0 noon) scripted 0] 60 eq_refl).
Defined.

(** ** The id of the path *)

Lemma whitespace_not_digit (c : N) : is_digit c = true -> isWhiteSpace c = false.
Proof.
  unfold is_digit, isWhiteSpace. intros H. apply andb_prop in H as (A & B).
  apply N.leb_le in A, B.
  repeat match goal with
         | |- context [?x =? ?y] =>
             replace (x =? y) with false by (symmetry; apply N.eqb_neq; lia)
         end.
  replace (8192 <=? c) with false by (symmetry; apply N.leb_gt; lia). reflexivity.
Qed.

Lemma of_lu_push (c : N) (d : Decimal.uint) :
  is_digit c = true ->
  DecimalPos.Unsigned.of_lu (push_digit c d) = (c - 48) + 10 * DecimalPos.Unsigned.of_lu d.
Proof.
  unfold is_digit, push_digit. intros H. apply andb_prop in H as (A & B).
  apply N.leb_le in A, B.
  assert (E : c = 48 \/ c = 49 \/ c = 50 \/ c = 51 \/ c = 52 \/ c = 53 \/ c = 54 \/ c = 55
              \/ c = 56 \/ c = 57) by lia.
  repeat (destruct E as [-> | E];
          [cbn [N.eqb Pos.eqb]; cbv iota;
           rewrite DecimalPos.Unsigned.of_lu_eqn; reflexivity | ]).
  subst c. cbn [N.eqb Pos.eqb]. cbv iota.
  rewrite DecimalPos.Unsigned.of_lu_eqn. reflexivity.
Qed.

Lemma read_digits_all (s : jsstring) :
  forallb is_digit s = true ->
  snd (read_digits s) = []
  /\ (s <> [] -> fst (read_digits s) <> Decimal.Nil)
  /\ forall acc,
       DecimalPos.Unsigned.of_lu (Decimal.revapp (fst (read_digits s)) acc)
       = decimal_value (DecimalPos.Unsigned.of_lu acc) s.
Proof.
  induction s as [| c s IH]; [cbn; repeat split; congruence | ].
  cbn [forallb]. intros H. apply andb_prop in H as (D & H).
  destruct (IH H) as (IH1 & IH2 & IH3).
  cbn [read_digits]. rewrite D. destruct (read_digits s) as [d r] eqn:R.
  cbn [fst snd] in *. split; [exact IH1 | ]. split.
  - intros _. unfold push_digit.
    repeat match goal with
           | |- context [if ?b then _ else _] => destruct b; [discriminate | ]
           end.
    discriminate.
  - intros acc. cbn [decimal_value].
    assert (P : Decimal.revapp (push_digit c d) acc = Decimal.revapp d (push_digit c acc)).
    { unfold push_digit.
      repeat match goal with
             | |- context [if ?b then _ else _] => destruct b; [reflexivity | ]
             end.
      reflexivity. }
    rewrite P, IH3, (of_lu_push c acc D). f_equal. lia.
Qed.

Lemma parseInt_checked (p : jsstring) :
  idParamSchema p = true -> parseInt p = Some (Z.of_N (decimal_value 0 p)).
Proof.
  unfold idParamSchema. destruct p as [| c r]; [discriminate | ]. intros H.
  destruct (read_digits_all (c :: r) H) as (R1 & R2 & R3).
  specialize (R2 ltac:(discriminate)). specialize (R3 Decimal.Nil).
  cbn [forallb] in H. apply andb_prop in H as (D & Hr).
  unfold parseInt. cbn [trimStart]. rewrite (whitespace_not_digit c D).
  assert (B : 48 <= c <= 57)
    by (unfold is_digit in D; apply andb_prop in D as (A & B);
        apply N.leb_le in A, B; lia).
  unfold read_sign.
  replace (c =? 45) with false by (symmetry; apply N.eqb_neq; lia).
  replace (c =? 43) with false by (symmetry; apply N.eqb_neq; lia).
  assert (V : read_decimal (c :: r) = Some (decimal_value 0 (c :: r))).
  { unfold read_decimal. destruct (read_digits (c :: r)) as [d r'] eqn:E.
    cbn [fst snd] in *.
    change (Decimal.revapp d Decimal.Nil) with (Decimal.rev d) in R3.
    rewrite <- DecimalPos.Unsigned.of_uint_alt in R3.
    destruct d; [congruence | ..]; unfold N.of_uint; rewrite R3; reflexivity. }
  destruct r as [| x r']; [rewrite V; reflexivity | ].
  cbn [forallb] in Hr. apply andb_prop in Hr as (Dx & _).
  assert (Bx : 48 <= x <= 57)
    by (unfold is_digit in Dx; apply andb_prop in Dx as (A & A');
        apply N.leb_le in A, A'; lia).
  replace (x =? 120) with false by (symmetry; apply N.eqb_neq; lia).
  replace (x =? 88) with false by (symmetry; apply N.eqb_neq; lia).
  rewrite andb_false_r, V. reflexivity.
Qed.



(** ** Trimming and the length the schema counts *)

Lemma trimStart_split (s : jsstring) :
  exists ws, s = ws ++ trimStart s /\ forallb isWhiteSpace ws = true
             /\ starts_clean (trimStart s).
Proof.
  induction s as [| c s (ws & E & W & C)]; [exists []; repeat split | ].
  cbn [trimStart]. destruct (isWhiteSpace c) eqn:X.
  - exists (c :: ws). cbn [app forallb]. rewrite X, W. split; [congruence | auto].
  - exists []. cbn. auto.
Qed.

Lemma trimStart_clean (s : jsstring) : starts_clean s -> trimStart s = s.
Proof. destruct s as [| c s]; [reflexivity | ]. cbn. intros ->. reflexivity. Qed.

Lemma starts_clean_app (a b : jsstring) : a <> [] -> starts_clean (a ++ b) -> starts_clean a.
Proof. destruct a; [congruence | cbn; auto]. Qed.

(** [trim] takes white space off both ends and nothing else. *)
Lemma trim_split (s : jsstring) :
  exists ws1 ws2,
    s = ws1 ++ trim s ++ ws2
    /\ forallb isWhiteSpace ws1 = true /\ forallb isWhiteSpace ws2 = true
    /\ starts_clean (trim s) /\ starts_clean (rev (trim s)).
Proof.
  unfold trim.
  destruct (trimStart_split s) as (ws1 & E1 & W1 & C1).
  destruct (trimStart_split (rev (trimStart s))) as (ws2 & E2 & W2 & C2).
  set (t := trimStart s) in *. set (u := trimStart (rev t)) in *.
  assert (Et : t = rev u ++ rev ws2).
  { rewrite <- rev_app_distr, <- E2, rev_involutive. reflexivity. }
  exists ws1, (rev ws2). rewrite <- Et. split; [exact E1 | ]. split; [exact W1 | ].
  split; [rewrite forallb_forall in *; intros x I; apply W2, in_rev, I | ].
  rewrite rev_involutive. split; [ | exact C2].
  destruct (rev u) eqn:R; [exact I | ].
  apply (starts_clean_app _ (rev ws2)); [discriminate | ]. rewrite <- Et. exact C1.
Qed.

Lemma trim_trim (s : jsstring) : trim (trim s) = trim s.
Proof.
  destruct (trim_split s) as (_ & _ & _ & _ & _ & C1 & C2).
  unfold trim at 1. rewrite (trimStart_clean _ C1), (trimStart_clean _ C2).
  apply rev_involutive.
Qed.

Lemma whitespace_not_surrogate (c : N) :
  isWhiteSpace c = true -> is_lead c = false /\ is_trail c = false.
Proof.
  unfold isWhiteSpace, is_lead, is_trail. intros H.
  assert (L : c < 55296 \/ c = 65279).
  { repeat (apply orb_prop in H as [H | H]);
      try (apply N.eqb_eq in H; lia).
    apply andb_prop in H as (A & B). apply N.leb_le in A, B. lia. }
  destruct L as [L | ->]; [ | split; reflexivity].
  replace (55296 <=? c) with false by (symmetry; apply N.leb_gt; lia).
  replace (56320 <=? c) with false by (symmetry; apply N.leb_gt; lia).
  split; reflexivity.
Qed.

Lemma ucs2length_snoc_aux (n : nat) :
  forall s w, (length s <= n)%nat -> is_trail w = false ->
    ucs2length (s ++ [w]) = S (ucs2length s).
Proof.
  induction n as [| n IH]; intros s w L T.
  - destruct s; [ | cbn in L; lia]. cbn. destruct (is_lead w); reflexivity.
  - destruct s as [| c s]; [cbn; destruct (is_lead w); reflexivity | ].
    cbn [app ucs2length]. cbn [length] in L. f_equal.
    destruct (is_lead c); [ | apply IH; [lia | exact T]].
    destruct s as [| d s]; [cbn [app]; rewrite T; cbn; destruct (is_lead w); reflexivity | ].
    cbn [length] in L. change ((d :: s) ++ [w]) with (d :: s ++ [w]). cbv iota.
    destruct (is_trail d).
    + apply IH; [lia | exact T].
    + apply (IH (d :: s)); [cbn [length]; lia | exact T].
Qed.

Lemma ucs2length_snoc (s : jsstring) (w : N) :
  is_trail w = false -> ucs2length (s ++ [w]) = S (ucs2length s).
Proof. apply (ucs2length_snoc_aux (length s)). lia. Qed.

Lemma ucs2length_app_ws (ws : jsstring) :
  forallb isWhiteSpace ws = true ->
  forall s, (ucs2length s <= ucs2length (s ++ ws))%nat.
Proof.
  induction ws as [| w ws IH]; intros W s; [rewrite app_nil_r; lia | ].
  cbn [forallb] in W. apply andb_prop in W as (W1 & W2).
  change (s ++ w :: ws) with (s ++ [w] ++ ws). rewrite app_assoc.
  specialize (IH W2 (s ++ [w])).
  rewrite (ucs2length_snoc s w (proj2 (whitespace_not_surrogate w W1))) in IH. lia.
Qed.

Lemma ucs2length_ws_app (ws : jsstring) (s : jsstring) :
  forallb isWhiteSpace ws = true ->
  (ucs2length s <= ucs2length (ws ++ s))%nat.
Proof.
  induction ws as [| w ws IH]; intros W; [cbn; lia | ].
  cbn [forallb] in W. apply andb_prop in W as (W1 & W2).
  cbn [app ucs2length]. rewrite (proj1 (whitespace_not_surrogate w W1)).
  specialize (IH W2). lia.
Qed.

Lemma ucs2length_trim (s : jsstring) : (ucs2length (trim s) <= ucs2length s)%nat.
Proof.
  destruct (trim_split s) as (ws1 & ws2 & E & W1 & W2 & _).
  rewrite E at 2.
  pose proof (ucs2length_ws_app ws1 (trim s ++ ws2) W1).
  pose proof (ucs2length_app_ws ws2 W2 (trim s)). lia.
Qed.

Lemma no_angle_bracket_trim (s : jsstring) :
  no_angle_bracket s = true -> no_angle_bracket (trim s) = true.
Proof.
  destruct (trim_split s) as (ws1 & ws2 & E & _).
  unfold no_angle_bracket. intros H. rewrite E, !forallb_app in H.
  apply andb_prop in H as (_ & H). apply andb_prop in H as (H & _). exact H.
Qed.

Lemma length_ucs2length_aux (n : nat) :
  forall s, (length s <= n)%nat -> (length s <= 2 * ucs2length s)%nat.
Proof.
  induction n as [| n IH]; intros s L.
  - destruct s; [cbn; lia | cbn in L; lia].
  - destruct s as [| c s]; [cbn; lia | ].
    cbn [length] in L. cbn [ucs2length length].
    destruct (is_lead c); [ | specialize (IH s ltac:(lia)); lia].
    destruct s as [| d s]; [cbn; lia | ].
    cbn [length] in L.
    destruct (is_trail d).
    + specialize (IH s ltac:(lia)). cbn [length]. lia.
    + specialize (IH (d :: s) ltac:(cbn [length]; lia)). lia.
Qed.

(** A string has at most two code units for each character the schema
    counts. *)
Lemma length_ucs2length (s : jsstring) : (length s <= 2 * ucs2length s)%nat.
Proof. apply (length_ucs2length_aux (length s)). lia. Qed.

Lemma schema_of_trimmed (b : body) :
  memoBodySchema b = true ->
  trim (trim (title b)) = trim (title b)
  /\ (ucs2length (trim (title b)) <= 200)%nat
  /\ no_angle_bracket (trim (title b)) = true
  /\ trim (trim (content b)) = trim (content b)
  /\ (ucs2length (trim (content b)) <= 5000)%nat.
Proof.
  unfold memoBodySchema. intros H.
  apply andb_prop in H as (H & C2). apply andb_prop in H as (H & _).
  apply andb_prop in H as (H & A). apply andb_prop in H as (_ & T2).
  apply Nat.leb_le in C2, T2.
  pose proof (ucs2length_trim (title b)). pose proof (ucs2length_trim (content b)).
  split; [apply trim_trim | ]. split; [lia | ].
  split; [apply no_angle_bracket_trim, A | ]. split; [apply trim_trim | lia].
Qed.

Local Close Scope N_scope.

(** ** More on the handlers of the improved server *)

Lemma findIndex_id_found (id : option Z) (memos : list json) :
  forall i, findIndex_id id memos = Ok (Some i) ->
    exists n, id = Some n /\ get_prop (lit "id") (nth i memos JNull) = Ok (Some (JNum n)).
Proof.
  induction memos as [| m memos IH]; intros i H; [discriminate | ].
  cbn [findIndex_id] in H.
  destruct (get_prop (lit "id") m) as [v | x] eqn:G; [ | discriminate].
  destruct (is_number id v) eqn:N.
  - injection H as <-. cbn [nth]. rewrite G.
    destruct id as [n | ]; [ | discriminate].
    destruct v as [[] | ]; try discriminate.
    cbn in N. apply Z.eqb_eq in N. subst. eauto.
  - destruct (findIndex_id id memos) as [[j | ] | x]; try discriminate.
    injection H as <-. cbn [nth]. apply IH. reflexivity.
Qed.

Lemma filter_absent (d : Z) (ms : list memo) :
  ~ In d (map memo_id ms) -> filter (fun m => negb (memo_id m =? d)) ms = ms.
Proof.
  induction ms as [| m ms IH]; [reflexivity | ]. cbn [map In filter]. intros N.
  destruct (memo_id m =? d) eqn:E; [apply Z.eqb_eq in E; tauto | ].
  cbn [negb]. rewrite IH; tauto.
Qed.

Lemma remove_at_filter (d : Z) (ms : list memo) :
  NoDup (map memo_id ms) ->
  forall i, index_of d ms = Some i ->
    remove_at i ms = filter (fun m => negb (memo_id m =? d)) ms.
Proof.
  induction ms as [| m ms IH]; intros D i I; [discriminate | ].
  cbn [map] in D. inversion D as [| x l N D' E]; subst.
  cbn [index_of filter] in *. destruct (memo_id m =? d) eqn:E.
  - injection I as <-. apply Z.eqb_eq in E. subst d. cbn [negb remove_at].
    symmetry. apply filter_absent, N.
  - destruct (index_of d ms) as [j | ]; [ | discriminate]. injection I as <-.
    cbn [negb remove_at]. f_equal. apply IH; [exact D' | reflexivity].
Qed.

Lemma index_of_filter (d : Z) (ms : list memo) :
  index_of d (filter (fun m => negb (memo_id m =? d)) ms) = None.
Proof.
  induction ms as [| m ms IH]; [reflexivity | ]. cbn [filter].
  destruct (memo_id m =? d) eqn:E; cbn [negb]; [exact IH | ].
  cbn [index_of]. rewrite E, IH. reflexivity.
Qed.

Lemma loadData_unreadable (e : env) (st : state) (text : jsstring) :
  data_file st = Some text -> (forall xs, JSON_parse text <> Some (JArr xs)) ->
  exists x l, loadData e st = (Throw x, add_log l st).
Proof.
  intros D N. unfold loadData, readFile. rewrite D.
  destruct (readFile_fails e); [eauto | ].
  destruct (JSON_parse text) as [[] | ]; eauto. exfalso. eapply N. reflexivity.
Qed.

Section MoreHandlerFacts.

Variable cfg : config.

Lemma post_memo_leaves_file (e : env) (b : body) (st : state) :
  writeFile_fails e = false -> ~ succeeded (fst (post_memo cfg e b st)) ->
  data_file (snd (post_memo cfg e b st)) = data_file st
  /\ lastId (snd (post_memo cfg e b st)) = lastId st.
Proof.
  intros W. unfold post_memo. destruct (memoBodySchema b); cbn [negb]; [ | cbn; auto].
  unfold handle, bind, getNextId, ret.
  pose proof (loadData_same e st) as (D & _ & _ & L).
  destruct (loadData e st) as [[xs | x] st1]; cbn [fst snd] in *; [ | cbn; auto].
  rewrite saveData_eq, W. cbn [fst snd].
  intros N. exfalso. apply N. right. reflexivity.
Qed.

Lemma put_memo_leaves_file (e : env) (p : jsstring) (b : body) (st : state) :
  writeFile_fails e = false -> ~ succeeded (fst (put_memo cfg e p b st)) ->
  data_file (snd (put_memo cfg e p b st)) = data_file st
  /\ lastId (snd (put_memo cfg e p b st)) = lastId st.
Proof.
  intros W. unfold put_memo.
  destruct (idParamSchema p && memoBodySchema b); cbn [negb]; [ | cbn; auto].
  unfold handle, bind, lift, ret.
  pose proof (loadData_same e st) as (D & _ & _ & L).
  destruct (loadData e st) as [[xs | x] st1]; cbn [fst snd] in *; [ | cbn; auto].
  destruct (findIndex_id (parseInt p) xs) as [[i | ] | x]; [ | cbn; auto | cbn; auto].
  rewrite saveData_eq, W. cbn [fst snd].
  intros N. exfalso. apply N. left. reflexivity.
Qed.

Lemma delete_memo_leaves_file (e : env) (p : jsstring) (st : state) :
  writeFile_fails e = false -> ~ succeeded (fst (delete_memo cfg e p st)) ->
  data_file (snd (delete_memo cfg e p st)) = data_file st
  /\ lastId (snd (delete_memo cfg e p st)) = lastId st.
Proof.
  intros W. unfold delete_memo. destruct (idParamSchema p); cbn [negb]; [ | cbn; auto].
  unfold handle, bind, lift, ret.
  pose proof (loadData_same e st) as (D & _ & _ & L).
  destruct (loadData e st) as [[xs | x] st1]; cbn [fst snd] in *; [ | cbn; auto].
  destruct (findIndex_id (parseInt p) xs) as [[i | ] | x] eqn:F; [ | cbn; auto | cbn; auto].
  destruct (findIndex_id_found _ _ _ F) as (n & _ & G).
  rewrite saveData_eq, G, W. cbn [fst snd].
  intros N. exfalso. apply N. left.
  match goal with |- context [if ?c then _ else _] => destruct c end; reflexivity.
Qed.

(** A list request, and every request that is answered otherwise than with
    200 or 201 while no write fails, has written nothing: a request the
    schema refuses, an id that is not found, a read that fails, a file that
    cannot be read as a collection all leave the data file and the counter
    exactly as they were, whatever the file holds. *)
Theorem unsuccessful_request_leaves_file (e : env) (rq : request) (st : state) :
  writeFile_fails e = false ->
  rq = GetMemos \/ ~ succeeded (fst (step cfg e rq st)) ->
  data_file (snd (step cfg e rq st)) = data_file st
  /\ lastId (snd (step cfg e rq st)) = lastId st.
Proof.
  intros W H. destruct rq as [| b | p b | p]; cbn [step].
  - destruct (get_memos_same cfg e st) as (D & L & _). auto.
  - destruct H as [H | H]; [discriminate | ]. apply post_memo_leaves_file; assumption.
  - destruct H as [H | H]; [discriminate | ]. apply put_memo_leaves_file; assumption.
  - destruct H as [H | H]; [discriminate | ]. apply delete_memo_leaves_file; assumption.
Qed.

(** The API answers in five ways only: 200 with a value (never to a
    create), 201 with a value (to a create only), 400 with the validation
    message before the handler has run, 404 to an update or a delete, and
    500 with the one general message, after the error was logged, whatever
    it was that failed. *)
Theorem replies_of_the_api (e : env) (rq : request) (st : state) :
  (exists v, fst (step cfg e rq st) = Reply 200 (Json v) /\ ~ is_post rq)
  \/ (exists v, fst (step cfg e rq st) = Reply 201 (Json v) /\ is_post rq)
  \/ (fst (step cfg e rq st) = Reply 400 (ErrorBody MsgValidation) /\ rq <> GetMemos
      /\ snd (step cfg e rq st) = add_log ErrorRequest st)
  \/ (fst (step cfg e rq st) = Reply 404 (ErrorBody MsgNotFound)
      /\ rq <> GetMemos /\ ~ is_post rq)
  \/ (fst (step cfg e rq st) = Reply 500 (ErrorBody MsgServerError)
      /\ exists l, log (snd (step cfg e rq st)) = ErrorRequest :: l).
Proof.
  destruct rq as [| b | p b | p]; cbn [step is_post].
  - unfold get_memos, handle, bind, ret, errorHandler.
    destruct (loadDataWithCache cfg e st) as [[xs | x] st1]; cbn [fst snd].
    + left. eauto.
    + do 4 right. fields. eauto.
  - unfold post_memo. destruct (memoBodySchema b); cbn [negb].
    + unfold handle, bind, getNextId, ret, errorHandler.
      destruct (loadData e st) as [[xs | x] st1]; cbn [fst snd];
        [ | do 4 right; fields; eauto].
      rewrite saveData_eq. destruct (writeFile_fails e); cbn [fst snd].
      * do 4 right. fields. eauto.
      * right. left. eauto.
    + right. right. left. cbn. split; [reflexivity | ]. split; [discriminate | reflexivity].
  - unfold put_memo. destruct (idParamSchema p && memoBodySchema b); cbn [negb].
    + unfold handle, bind, lift, ret, errorHandler.
      destruct (loadData e st) as [[xs | x] st1]; cbn [fst snd];
        [ | do 4 right; fields; eauto].
      destruct (findIndex_id (parseInt p) xs) as [[i | ] | x]; cbn [fst snd].
      * rewrite saveData_eq. destruct (writeFile_fails e); cbn [fst snd].
        -- do 4 right. fields. eauto.
        -- left. eexists. split; [reflexivity | tauto].
      * do 3 right. left. split; [reflexivity | ]. split; [discriminate | tauto].
      * do 4 right. fields. eauto.
    + right. right. left. cbn. split; [reflexivity | ]. split; [discriminate | reflexivity].
  - unfold delete_memo. destruct (idParamSchema p); cbn [negb].
    + unfold handle, bind, lift, ret, errorHandler.
      destruct (loadData e st) as [[xs | x] st1]; cbn [fst snd];
        [ | do 4 right; fields; eauto].
      destruct (findIndex_id (parseInt p) xs) as [[i | ] | x] eqn:F; cbn [fst snd].
      * destruct (findIndex_id_found _ _ _ F) as (n & _ & G).
        rewrite saveData_eq, G. destruct (writeFile_fails e); cbn [fst snd].
        -- do 4 right. fields. eauto.
        -- left. eexists. split; [ | tauto].
           match goal with |- context [if ?c then _ else _] => destruct c end; reflexivity.
      * do 3 right. left. split; [reflexivity | ]. split; [discriminate | tauto].
      * do 4 right. fields. eauto.
    + right. right. left. cbn. split; [reflexivity | ]. split; [discriminate | reflexivity].
Qed.

Lemma post_memo_ok (e : env) (b : body) (st : state) (ms : list memo) :
  holds st ms -> memoBodySchema b = true -> readFile_fails e = false ->
  post_memo cfg e b st =
  if writeFile_fails e then
    (Reply 500 (ErrorBody MsgServerError),
     add_log ErrorRequest
       (add_log ErrorSave
          (backup cfg e (set_lastId (js_succ (lastId st)) (after_load st)))))
  else
    (Reply 201 (Json (json_of_memo (created e b (lastId st)))),
     add_log DebugSaved
       (clearCache
          (set_data_file
             (Some (JSON_stringify (JArr (json_of_memos (ms ++ [created e b (lastId st)])))))
             (backup cfg e (set_lastId (js_succ (lastId st)) (after_load st)))))).
Proof.
  intros H S R. unfold post_memo. rewrite S. cbn [negb].
  unfold handle, bind, getNextId, ret. rewrite (loadData_holds e st ms H), R.
  rewrite saveData_eq. rewrite (proj2 (proj2 (proj2 (after_load_same st)))).
  unfold json_of_memos. rewrite map_app. cbn [map].
  destruct (writeFile_fails e); reflexivity.
Qed.

(** A create whose save fails is answered 500, but the id it took from the
    counter is gone.  Whatever the failed write has left of the file: once
    the file holds a collection again, the next memo created gets the id
    after the one that was lost.  The ids handed out increase, they need not
    be consecutive. *)
Theorem failed_create_uses_up_an_id (e e' : env) (b b' : body) (st : state)
    (ms ms1 : list memo) (left : option jsstring) :
  holds st ms -> memoBodySchema b = true -> readFile_fails e = false ->
  writeFile_fails e = true -> safe (lastId st) -> safe (lastId st + 1) ->
  fst (post_memo cfg e b st) = Reply 500 (ErrorBody MsgServerError)
  /\ lastId (snd (post_memo cfg e b st)) = lastId st + 1
  /\ (holds (set_data_file left (snd (post_memo cfg e b st))) ms1 ->
      memoBodySchema b' = true -> readFile_fails e' = false ->
      writeFile_fails e' = false ->
      exists m,
        fst (post_memo cfg e' b' (set_data_file left (snd (post_memo cfg e b st))))
        = Reply 201 (Json (json_of_memo m))
        /\ memo_id m = lastId st + 2
        /\ holds (snd (post_memo cfg e' b'
                         (set_data_file left (snd (post_memo cfg e b st)))))
             (ms1 ++ [m])).
Proof.
  intros H S R W Sf Sf'.
  rewrite (post_memo_ok e b st ms H S R), W. cbn [fst snd].
  assert (L1 : lastId (add_log ErrorRequest
                         (add_log ErrorSave
                            (backup cfg e (set_lastId (js_succ (lastId st))
                                             (after_load st)))))
               = lastId st + 1).
  { fields. rewrite (proj2 (proj2 (proj2 (backup_same cfg e _)))). fields.
    apply js_succ_safe, Sf. }
  split; [reflexivity | ]. split; [exact L1 | ].
  intros H1 S' R' W'.
  rewrite (post_memo_ok e' b' _ ms1 H1 S' R'), W'. cbn [fst snd]. fields. rewrite L1.
  exists (created e' b' (lastId st + 1)).
  split; [reflexivity | ]. split.
  - cbn [created memo_id]. rewrite (js_succ_safe _ Sf'). lia.
  - unfold holds. fields. apply JSON_parse_memos.
Qed.

Lemma put_memo_missing (e : env) (p : jsstring) (b : body) (st : state) (ms : list memo)
    (d : Z) :
  holds st ms -> idParamSchema p = true -> memoBodySchema b = true ->
  readFile_fails e = false -> parseInt p = Some d -> index_of d ms = None ->
  put_memo cfg e p b st = (Reply 404 (ErrorBody MsgNotFound), after_load st).
Proof.
  intros H Sp Sb R P I. unfold put_memo. rewrite Sp, Sb. cbn [andb negb].
  unfold handle, bind, lift, ret. rewrite (loadData_holds e st ms H), R, P.
  rewrite findIndex_id_memos, I. reflexivity.
Qed.

Lemma delete_memo_missing (e : env) (p : jsstring) (st : state) (ms : list memo) (d : Z) :
  holds st ms -> idParamSchema p = true ->
  readFile_fails e = false -> parseInt p = Some d -> index_of d ms = None ->
  delete_memo cfg e p st = (Reply 404 (ErrorBody MsgNotFound), after_load st).
Proof.
  intros H Sp R P I. unfold delete_memo. rewrite Sp. cbn [negb].
  unfold handle, bind, lift, ret. rewrite (loadData_holds e st ms H), R, P.
  rewrite findIndex_id_memos, I. reflexivity.
Qed.

Lemma delete_memo_checked (e : env) (p : jsstring) (st : state) :
  succeeded (fst (delete_memo cfg e p st)) -> idParamSchema p = true.
Proof.
  unfold delete_memo. destruct (idParamSchema p); [reflexivity | ].
  cbn. intros [C | C]; discriminate C.
Qed.

(** When the ids in the file are pairwise distinct, a delete that is
    answered 200 answers with the memo of that id and leaves the other
    memos, all of them, in their order; an update or a second delete of the
    same id is then answered 404. *)
Theorem delete_removes_the_memo (e : env) (p : jsstring) (st : state) (ms : list memo)
    (d : Z) :
  holds st ms -> NoDup (map memo_id ms) -> parseInt p = Some d ->
  succeeded (fst (delete_memo cfg e p st)) ->
  (exists m, In m ms /\ memo_id m = d
             /\ fst (delete_memo cfg e p st) = Reply 200 (Json (json_of_memo m)))
  /\ holds (snd (delete_memo cfg e p st)) (filter (fun m => negb (memo_id m =? d)) ms)
  /\ (forall e' b, memoBodySchema b = true -> readFile_fails e' = false ->
        fst (put_memo cfg e' p b (snd (delete_memo cfg e p st)))
        = Reply 404 (ErrorBody MsgNotFound))
  /\ (forall e', readFile_fails e' = false ->
        fst (delete_memo cfg e' p (snd (delete_memo cfg e p st)))
        = Reply 404 (ErrorBody MsgNotFound)).
Proof.
  intros H D P S.
  pose proof (delete_memo_checked e p st S) as Sp.
  destruct (delete_memo_effect cfg e p st ms H) as (ms' & Ef & H' & _).
  pose proof (effect_succeeded _ _ _ _ _ _ _ Ef ltac:(discriminate) S)
    as (i & m & P' & I & Hm & Er & ->).
  assert (memo_id m = d) as Em by congruence.
  rewrite Em in I. rewrite (remove_at_filter d ms D i I) in H'.
  split; [exists m; split; [apply (nth_error_In _ _ Hm) | split; [exact Em | exact Er]] | ].
  split; [exact H' | ]. split.
  - intros e' b Sb R.
    rewrite (put_memo_missing e' p b _ _ d H' Sp Sb R P (index_of_filter d ms)).
    reflexivity.
  - intros e' R.
    rewrite (delete_memo_missing e' p _ _ d H' Sp R P (index_of_filter d ms)).
    reflexivity.
Qed.

(** With the cache enabled, a list request that read the file keeps
    answering with what it read for as long as the cache duration has not
    passed, even when the file has been changed, removed or damaged in the
    meantime by something other than the server; once the duration has
    passed, the next list request reads the file again. *)
Theorem list_may_be_stale (e1 e2 : env) (st : state) (ms : list memo)
    (changed : option jsstring) :
  cacheEnabled cfg = true -> cache_empty st -> holds st ms -> readFile_fails e1 = false ->
  Date_now e1 <> 0 ->
  fst (get_memos cfg e1 st) = Reply 200 (Json (JArr (json_of_memos ms)))
  /\ (Date_now e2 - Date_now e1 < cacheDuration cfg ->
      fst (get_memos cfg e2 (set_data_file changed (snd (get_memos cfg e1 st))))
      = Reply 200 (Json (JArr (json_of_memos ms))))
  /\ (cacheDuration cfg <= Date_now e2 - Date_now e1 ->
      forall ms2, holds (set_data_file changed (snd (get_memos cfg e1 st))) ms2 ->
        readFile_fails e2 = false ->
        fst (get_memos cfg e2 (set_data_file changed (snd (get_memos cfg e1 st))))
        = Reply 200 (Json (JArr (json_of_memos ms2)))).
Proof.
  intros En (C & T) H R Nz.
  assert (G : get_memos cfg e1 st =
              (Reply 200 (Json (JArr (json_of_memos ms))),
               set_cache (Some (json_of_memos ms)) (Some (Date_now e1))
                 (after_load (add_log DebugFromFile st)))).
  { unfold get_memos, handle, loadDataWithCache, cache_hit. unfold bind, ret, modify.
    rewrite En, C. cbn [negb]. cbv iota.
    rewrite (loadData_holds e1 (add_log DebugFromFile st) ms) by exact H.
    rewrite R. reflexivity. }
  rewrite G. cbn [fst snd]. split; [reflexivity | ].
  unfold get_memos, handle, loadDataWithCache, cache_hit. unfold bind, ret, modify.
  rewrite En. cbn [negb]. fields.
  assert ((Date_now e1 =? 0) = false) as -> by (apply Z.eqb_neq; exact Nz).
  cbn [negb andb]. split.
  - intros Lt. apply Z.ltb_lt in Lt. rewrite Lt. reflexivity.
  - intros Ge ms2 H2 R2.
    assert ((Date_now e2 - Date_now e1 <? cacheDuration cfg) = false) as ->
        by (apply Z.ltb_ge; exact Ge).
    rewrite (loadData_holds e2 _ ms2) by exact H2.
    rewrite R2. reflexivity.
Qed.

(** The memo a create or an update stores and answers with has the trimmed
    title and content of the request; they are unchanged by another trim,
    the title has at most 200 characters (400 code units) and no angle
    bracket, the content at most 5000 characters. *)
Theorem stored_text_is_trimmed_and_bounded (e : env) (rq : request) (b : body)
    (st : state) (ms : list memo) :
  holds st ms -> (rq = PostMemo b \/ exists p, rq = PutMemo p b) ->
  succeeded (fst (step cfg e rq st)) ->
  exists m ms',
    fst (step cfg e rq st) = Reply (code (fst (step cfg e rq st))) (Json (json_of_memo m))
    /\ holds (snd (step cfg e rq st)) ms' /\ In m ms'
    /\ memo_title m = trim (title b) /\ memo_content m = trim (content b)
    /\ trim (memo_title m) = memo_title m /\ trim (memo_content m) = memo_content m
    /\ (ucs2length (memo_title m) <= 200)%nat /\ (length (memo_title m) <= 400)%nat
    /\ no_angle_bracket (memo_title m) = true
    /\ (ucs2length (memo_content m) <= 5000)%nat.
Proof.
  intros H Rq S.
  assert (Sb : memoBodySchema b = true).
  { destruct Rq as [-> | (p & ->)]; cbn [step] in S.
    - unfold post_memo in S. destruct (memoBodySchema b); [reflexivity | ].
      cbn in S. destruct S as [C | C]; discriminate C.
    - unfold put_memo in S. destruct (memoBodySchema b); [reflexivity | ].
      rewrite andb_false_r in S. cbn in S. destruct S as [C | C]; discriminate C. }
  destruct (schema_of_trimmed b Sb) as (T1 & T2 & T3 & C1 & C2).
  pose proof (length_ucs2length (trim (title b))) as T4.
  destruct (step_effect cfg e rq st ms H) as (ms' & Ef & H' & _).
  assert (W : rq <> GetMemos) by (destruct Rq as [-> | (p & ->)]; discriminate).
  pose proof (effect_succeeded _ _ _ _ _ _ _ Ef W S) as X.
  destruct Rq as [-> | (p & ->)].
  - destruct X as (Er & ->).
    exists (created e b (lastId st)), (ms ++ [created e b (lastId st)]).
    rewrite Er. cbn [code created memo_title memo_content].
    split; [reflexivity | ]. split; [exact H' | ].
    split; [apply in_or_app; right; left; reflexivity | ].
    repeat split; try assumption; lia.
  - destruct X as (i & m & _ & _ & Hm & Er & ->).
    exists (edited e b m), (update_at i (edited e b) ms).
    rewrite Er. cbn [code edited memo_title memo_content].
    split; [reflexivity | ]. split; [exact H' | ].
    split; [apply (nth_error_In _ i), update_at_nth_error, Hm | ].
    repeat split; try assumption; lia.
Qed.

(** While the data file holds text that is not a JSON array, the server
    does not start; a server that is running answers every create, update
    and delete with 400 or 500, a list request as well unless it is served
    from the cache, and leaves the file as it is. *)
Theorem unreadable_file_is_left_alone (e : env) (rq : request) (st : state)
    (text : jsstring) :
  data_file st = Some text -> (forall xs, JSON_parse text <> Some (JArr xs)) ->
  start e st = None
  /\ data_file (snd (step cfg e rq st)) = Some text
  /\ (rq <> GetMemos \/ cache_empty st ->
      fst (step cfg e rq st) = Reply 400 (ErrorBody MsgValidation)
      \/ fst (step cfg e rq st) = Reply 500 (ErrorBody MsgServerError)).
Proof.
  intros D N.
  destruct (loadData_unreadable e st text D N) as (x & l & E).
  split; [unfold start, initializeLastId, bind; rewrite E; reflexivity | ].
  destruct rq as [| b | p b | p]; cbn [step].
  - split; [rewrite (proj1 (get_memos_same cfg e st)); exact D | ].
    intros [W | (C & _)]; [congruence | ]. right.
    unfold get_memos, handle, loadDataWithCache, cache_hit. unfold bind, ret, modify.
    destruct (cacheEnabled cfg); cbn [negb].
    + rewrite C. cbv iota.
      destruct (loadData_unreadable e (add_log DebugFromFile st) text D N) as (x' & l' & E').
      rewrite E'. reflexivity.
    + rewrite E. reflexivity.
  - unfold post_memo. destruct (memoBodySchema b); cbn [negb]; [ | cbn; auto].
    unfold handle, bind. rewrite E. cbn. auto.
  - unfold put_memo. destruct (idParamSchema p && memoBodySchema b); cbn [negb]; [ | cbn; auto].
    unfold handle, bind. rewrite E. cbn. auto.
  - unfold delete_memo. destruct (idParamSchema p); cbn [negb]; [ | cbn; auto].
    unfold handle, bind. rewrite E. cbn. auto.
Qed.

End MoreHandlerFacts.

Lemma unsuccessful_request_leaves_file_witness :
  writeFile_fails (no_read 3000 noon) = false
  /\ ~ succeeded (fst (step default_config (no_read 3000 noon) (PostMemo laundry) two_memos))
  /\ data_file (snd (step default_config (no_read 3000 noon) (PostMemo laundry) two_memos))
     = data_file two_memos
  /\ lastId (snd (step default_config (no_read 3000 noon) (PostMemo laundry) two_memos))
     = lastId two_memos.
Proof.
  assert (N : ~ succeeded (fst (step default_config (no_read 3000 noon)
                                  (PostMemo laundry) two_memos))).
  { intros [C | C]; vm_compute in C; discriminate C. }
  split; [reflexivity | ]. split; [exact N | ].
  exact (unsuccessful_request_leaves_file default_config (no_read 3000 noon)
           (PostMemo laundry) two_memos eq_refl (or_intror N)).
Defined.

Lemma failed_create_uses_up_an_id_witness :
  holds two_memos two_list /\ lastId two_memos = 2
  /\ lastId (snd (post_memo default_config (disk_full 3000 noon) laundry two_memos))
     = lastId two_memos + 1
  /\ exists m,
       fst (post_memo default_config (calm 4000 evening) shopping
              (set_data_file (Some (lit "[]"))
                 (snd (post_memo default_config (disk_full 3000 noon) laundry
                         two_memos))))
       = Reply 201 (Json (json_of_memo m))
       /\ memo_id m = lastId two_memos + 2.
Proof.
  split; [exact two_memos_holds | ]. split; [reflexivity | ].
  destruct (failed_create_uses_up_an_id default_config (disk_full 3000 noon)
              (calm 4000 evening) laundry shopping two_memos two_list []
              (Some (lit "[]")) two_memos_holds eq_refl eq_refl eq_refl
              two_memos_safe ltac:(split; reflexivity)) as (_ & L & N).
  split; [exact L | ].
  destruct (N eq_refl eq_refl eq_refl eq_refl) as (m & R & I & _).
  exists m. split; [exact R | exact I].
Defined.

Lemma delete_removes_the_memo_witness :
  holds two_memos two_list /\ NoDup (map memo_id two_list)
  /\ succeeded (fst (delete_memo default_config (calm 3000 noon) (lit "1") two_memos))
  /\ holds (snd (delete_memo default_config (calm 3000 noon) (lit "1") two_memos))
       [created (calm 2000 noon) cleaning 1].
Proof.
  assert (D : NoDup (map memo_id two_list)).
  { cbn. repeat constructor; cbn; intuition discriminate. }
  assert (S : succeeded (fst (delete_memo default_config (calm 3000 noon) (lit "1")
                                two_memos))).
  { left. vm_compute. reflexivity. }
  split; [exact two_memos_holds | ]. split; [exact D | ]. split; [exact S | ].
  exact (proj1 (proj2 (delete_removes_the_memo default_config (calm 3000 noon) (lit "1")
                         two_memos two_list 1 two_memos_holds D eq_refl S))).
Defined.

Lemma list_may_be_stale_witness :
  cache_empty two_memos /\ holds two_memos two_list
  /\ fst (get_memos default_config (calm 3000 noon)
            (set_data_file (Some (lit "[]"))
               (snd (get_memos default_config (calm 2500 noon) two_memos))))
     = Reply 200 (Json (JArr (json_of_memos two_list))).
Proof.
  assert (C : cache_empty two_memos) by (split; reflexivity).
  split; [exact C | ]. split; [exact two_memos_holds | ].
  apply (proj1 (proj2 (list_may_be_stale default_config (calm 2500 noon) (calm 3000 noon)
                         two_memos two_list (Some (lit "[]")) eq_refl C two_memos_holds
                         eq_refl ltac:(discriminate)))).
  reflexivity.
Defined.

Lemma stored_text_is_trimmed_and_bounded_witness :
  holds two_memos two_list
  /\ succeeded (fst (step default_config (calm 3000 noon) (PostMemo laundry) two_memos))
  /\ exists m,
       fst (step default_config (calm 3000 noon) (PostMemo laundry) two_memos)
       = Reply 201 (Json (json_of_memo m))
       /\ (ucs2length (memo_title m) <= 200)%nat.
Proof.
  assert (S : succeeded (fst (step default_config (calm 3000 noon) (PostMemo laundry)
                                two_memos))).
  { right. vm_compute. reflexivity. }
  split; [exact two_memos_holds | ]. split; [exact S | ].
  destruct (stored_text_is_trimmed_and_bounded default_config (calm 3000 noon)
              (PostMemo laundry) laundry two_memos two_list two_memos_holds
              (or_introl eq_refl) S)
    as (m & ms' & R & _ & _ & _ & _ & _ & _ & L & _).
  exists m. split; [exact R | exact L].
Defined.

Lemma unreadable_file_is_left_alone_witness :
  data_file cut_short = Some (lit "[1, 2")
  /\ JSON_parse (lit "[1, 2") = None
  /\ start (calm 0 noon) cut_short = None
  /\ data_file (snd (step default_config (calm 0 noon) (PostMemo laundry) cut_short))
     = Some (lit "[1, 2").
Proof.
  assert (N : forall xs, JSON_parse (lit "[1, 2") <> Some (JArr xs)).
  { intros xs C. vm_compute in C. discriminate C. }
  split; [reflexivity | ]. split; [reflexivity | ].
  destruct (unreadable_file_is_left_alone default_config (calm 0 noon) (PostMemo laundry)
              cut_short (lit "[1, 2") eq_refl N) as (S & D & _).
  split; [exact S | exact D].
Defined.

(** ** More on the basic server *)

Lemma blank_trim (s : jsstring) : Basic.blank s = false -> trim s <> [].
Proof.
  unfold Basic.blank. destruct s as [| c s]; [discriminate | ].
  destruct (trim (c :: s)); [discriminate | discriminate].
Qed.

Lemma Math_max_In (x : Z) (xs : list Z) : In (Math_max x xs) (x :: xs).
Proof.
  unfold Math_max. revert x. induction xs as [| y ys IH]; intros x; cbn [fold_left].
  - left. reflexivity.
  - destruct (IH (Z.max x y)) as [E | I].
    + rewrite <- E. destruct (Z.max_spec x y) as [(_ & ->) | (_ & ->)]; cbn; auto.
    + right. right. exact I.
Qed.

Lemma Math_max_lt (x : Z) (xs : list Z) :
  Forall safe (x :: xs) ->
  js_succ (Math_max x xs) = Math_max x xs + 1
  /\ Forall (fun y => y < js_succ (Math_max x xs)) (x :: xs).
Proof.
  intros Sf.
  assert (E : js_succ (Math_max x xs) = Math_max x xs + 1).
  { apply js_succ_safe. rewrite Forall_forall in Sf. apply Sf, Math_max_In. }
  split; [exact E | ]. rewrite E.
  destruct (Math_max_ge x xs) as (A & B).
  constructor; [lia | ].
  apply (Forall_impl _ (P := fun y => y <= Math_max x xs)); [ | exact B].
  intros y. cbv beta. lia.
Qed.

Lemma basic_loadData_empty (e : env) (st : state) :
  readFile_fails e = true
  \/ (exists text, data_file st = Some text /\ JSON_parse text = None) ->
  Basic.loadData e st = (Ok (JArr []), st).
Proof.
  unfold Basic.loadData, readFile. intros [R | (text & D & P)].
  - rewrite R. reflexivity.
  - rewrite D. destruct (readFile_fails e); cbv iota beta; [reflexivity | ].
    rewrite P. reflexivity.
Qed.

(** The basic server creates a memo for every title and content that are
    not blank, whatever their length and whatever markup they hold.  When
    the ids in the file are among the integers a number holds exactly, the
    new memo gets one more than the largest of them, an id above every id in
    the file, and is added at the end; its title and content are the trimmed
    ones of the request and are never empty. *)
Theorem basic_post_creates (e : env) (b : body) (st : state) (ms : list memo) :
  holds st ms -> Forall (fun m => safe (memo_id m)) ms ->
  Basic.blank (title b) = false -> Basic.blank (content b) = false ->
  readFile_fails e = false -> writeFile_fails e = false ->
  exists m,
    fst (Basic.post_memo e b st) = Reply 201 (Json (json_of_memo m))
    /\ holds (snd (Basic.post_memo e b st)) (ms ++ [m])
    /\ memo_id m = match map memo_id ms with
                   | x :: xs => Math_max x xs + 1
                   | [] => 1
                   end
    /\ Forall (fun m' => memo_id m' < memo_id m) ms
    /\ memo_title m = trim (title b) /\ memo_title m <> []
    /\ memo_content m = trim (content b) /\ memo_content m <> []
    /\ memo_createdAt m = Date_iso e /\ memo_updatedAt m = Date_iso e.
Proof.
  intros H Sf Bt Bc R W. unfold Basic.post_memo. rewrite Bt, Bc.
  unfold Basic.handle, bind, lift, ret.
  rewrite (basic_loadData_holds e st ms H R). cbn [Basic.as_array].
  rewrite ids_of_memos. unfold Basic.saveData. rewrite W. cbn [fst snd].
  eexists. split; [reflexivity | ].
  cbn [memo_id memo_title memo_content memo_createdAt memo_updatedAt].
  split.
  { unfold holds. cbn [data_file set_data_file].
    change [json_of_memo ?m] with (json_of_memos [m]).
    unfold json_of_memos. rewrite <- map_app. apply JSON_parse_memos. }
  assert (X : match ms with
              | [] => True
              | m0 :: ms0 =>
                  js_succ (Math_max (memo_id m0) (map memo_id ms0))
                  = Math_max (memo_id m0) (map memo_id ms0) + 1
                  /\ Forall (fun m' => memo_id m'
                                       < js_succ (Math_max (memo_id m0) (map memo_id ms0)))
                       (m0 :: ms0)
              end).
  { destruct ms as [| m0 ms0]; [exact I | ].
    assert (Sf' : Forall safe (memo_id m0 :: map memo_id ms0)).
    { change (memo_id m0 :: map memo_id ms0) with (map memo_id (m0 :: ms0)).
      rewrite Forall_map. exact Sf. }
    destruct (Math_max_lt _ _ Sf') as (E & F). split; [exact E | ].
    change (memo_id m0 :: map memo_id ms0) with (map memo_id (m0 :: ms0)) in F.
    rewrite Forall_map in F. exact F. }
  split; [destruct ms as [| m0 ms0]; [reflexivity | exact (proj1 X)] | ].
  split; [destruct ms as [| m0 ms0]; [constructor | exact (proj2 X)] | ].
  split; [reflexivity | ]. split; [apply blank_trim, Bt | ].
  split; [reflexivity | ]. split; [apply blank_trim, Bc | ]. split; reflexivity.
Qed.

Lemma basic_post_creates_witness :
  holds two_memos two_list /\ Forall (fun m => safe (memo_id m)) two_list
  /\ Basic.blank (title scripted) = false /\ Basic.blank (content scripted) = false
  /\ exists m,
       fst (Basic.post_memo (calm 3000 noon) scripted two_memos)
       = Reply 201 (Json (json_of_memo m))
       /\ memo_title m = title scripted /\ memo_id m = 3.
Proof.
  assert (Sf : Forall (fun m => safe (memo_id m)) two_list)
    by (repeat constructor; split; reflexivity).
  split; [exact two_memos_holds | ]. split; [exact Sf | ].
  split; [reflexivity | ]. split; [reflexivity | ].
  destruct (basic_post_creates (calm 3000 noon) scripted two_memos two_list
              two_memos_holds Sf eq_refl eq_refl eq_refl eq_refl)
    as (m & R & _ & I & _ & T & _).
  exists m. split; [exact R | ]. split; [rewrite T; reflexivity | rewrite I; reflexivity].
Defined.

(** When the basic server cannot read the file, or the file is not JSON, a
    create is answered 201 all the same: the new memo gets id 1 and the
    file is written anew with this memo alone, so that what the file held
    before is lost. *)
Theorem basic_post_replaces_unreadable_file (e : env) (b : body) (st : state) :
  readFile_fails e = true
  \/ (exists text, data_file st = Some text /\ JSON_parse text = None) ->
  Basic.blank (title b) = false -> Basic.blank (content b) = false ->
  writeFile_fails e = false ->
  exists m,
    fst (Basic.post_memo e b st) = Reply 201 (Json (json_of_memo m))
    /\ memo_id m = 1 /\ memo_title m = trim (title b) /\ memo_content m = trim (content b)
    /\ data_file (snd (Basic.post_memo e b st))
       = Some (JSON_stringify (JArr [json_of_memo m]))
    /\ holds (snd (Basic.post_memo e b st)) [m].
Proof.
  intros U Bt Bc W.
  assert (L : Basic.loadData e st = (Ok (JArr []), st)).
  { apply basic_loadData_empty, U. }
  unfold Basic.post_memo. rewrite Bt, Bc.
  unfold Basic.handle, bind, lift, ret. rewrite L. cbn [Basic.as_array ids_of app].
  unfold Basic.saveData. rewrite W. cbn [fst snd].
  eexists. split; [reflexivity | ]. cbn [memo_id memo_title memo_content].
  do 4 (split; [reflexivity | ]).
  unfold holds. cbn [data_file set_data_file].
  change [json_of_memo ?m] with (json_of_memos [m]). apply JSON_parse_memos.
Qed.

Lemma basic_post_replaces_unreadable_file_witness :
  data_file cut_short = Some (lit "[1, 2") /\ JSON_parse (lit "[1, 2") = None
  /\ exists m,
       fst (Basic.post_memo (calm 0 noon) laundry cut_short)
       = Reply 201 (Json (json_of_memo m))
       /\ memo_id m = 1
       /\ holds (snd (Basic.post_memo (calm 0 noon) laundry cut_short)) [m].
Proof.
  split; [reflexivity | ]. split; [reflexivity | ].
  destruct (basic_post_replaces_unreadable_file (calm 0 noon) laundry cut_short
              (or_intror (ex_intro _ (lit "[1, 2") (conj eq_refl eq_refl)))
              eq_refl eq_refl eq_refl)
    as (m & R & I & _ & _ & _ & H).
  exists m. auto.
Defined.

(** When the file of the basic server holds JSON that is not an array, a
    list request answers with an object the file holds as it is, and every
    create, update and delete is answered 500 and leaves the file alone. *)
Theorem basic_file_that_is_no_array (e : env) (st : state) (text : jsstring) (v : json) :
  data_file st = Some text -> JSON_parse text = Some v -> (forall xs, v <> JArr xs) ->
  readFile_fails e = false ->
  (forall fs, v = JObj fs -> fst (Basic.get_memos e st) = Reply 200 (Json v))
  /\ (forall b, Basic.blank (title b) = false -> Basic.blank (content b) = false ->
        Basic.post_memo e b st
        = (Reply 500 (ErrorBody MsgInternal), add_log ErrorRequest st))
  /\ (forall p b, Basic.blank (title b) = false -> Basic.blank (content b) = false ->
        Basic.put_memo e p b st
        = (Reply 500 (ErrorBody MsgInternal), add_log ErrorRequest st))
  /\ (forall p, Basic.delete_memo e p st
                = (Reply 500 (ErrorBody MsgInternal), add_log ErrorRequest st)).
Proof.
  intros D P N R.
  assert (L : Basic.loadData e st = (Ok v, st)).
  { unfold Basic.loadData, readFile. rewrite R, D, P. reflexivity. }
  assert (A : Basic.as_array v = Throw ErrType).
  { destruct v; try reflexivity. exfalso. eapply N. reflexivity. }
  split; [intros fs _; unfold Basic.get_memos, Basic.handle, bind, ret; rewrite L;
          reflexivity | ].
  split; [ | split].
  - intros b Bt Bc. unfold Basic.post_memo. rewrite Bt, Bc.
    unfold Basic.handle, bind, lift. rewrite L, A. reflexivity.
  - intros p b Bt Bc. unfold Basic.put_memo. rewrite Bt, Bc.
    unfold Basic.handle, bind, lift. rewrite L, A. reflexivity.
  - intros p. unfold Basic.delete_memo.
    unfold Basic.handle, bind, lift. rewrite L, A. reflexivity.
Qed.

Lemma basic_file_that_is_no_array_witness :
  data_file object_file = Some (lit "{}") /\ JSON_parse (lit "{}") = Some (JObj [])
  /\ fst (Basic.get_memos (calm 0 noon) object_file) = Reply 200 (Json (JObj []))
  /\ Basic.delete_memo (calm 0 noon) (lit "1") object_file
     = (Reply 500 (ErrorBody MsgInternal), add_log ErrorRequest object_file).
Proof.
  split; [reflexivity | ]. split; [reflexivity | ].
  destruct (basic_file_that_is_no_array (calm 0 noon) object_file (lit "{}") (JObj [])
              eq_refl eq_refl ltac:(discriminate) eq_refl) as (G & _ & _ & X).
  split; [exact (G [] eq_refl) | exact (X (lit "1"))].
Defined.

(** ** The configuration *)

Lemma parseInt_or_nonzero (v : option jsstring) (d : Z) : d <> 0 -> parseInt_or v d <> 0.
Proof.
  intros N. unfold parseInt_or. destruct v as [s | ]; [ | exact N].
  destruct (parseInt s) as [n | ]; [ | exact N].
  destruct (n =? 0) eqn:E; [exact N | apply Z.eqb_neq, E].
Qed.

(** The cache duration and the port read from the environment are never 0:
    a variable that is not set, is no number or is 0 gives 5000 and 3000,
    so that a duration of 0 cannot be asked for.  A negative duration is
    taken as it is, and then no list request is served from the cache as
    long as the clock does not go back. *)
Theorem cache_duration_of_env (penv : process_env) :
  cacheDuration (config_of_env penv) <> 0
  /\ port_of_env penv <> 0
  /\ (forall s, penv (lit "CACHE_DURATION") = Some s ->
        parseInt s = None \/ parseInt s = Some 0 ->
        cacheDuration (config_of_env penv) = 5000)
  /\ (penv (lit "CACHE_DURATION") = None -> cacheDuration (config_of_env penv) = 5000)
  /\ (forall s n, penv (lit "CACHE_DURATION") = Some s -> parseInt s = Some n -> n <> 0 ->
        cacheDuration (config_of_env penv) = n)
  /\ (forall now st,
        cacheDuration (config_of_env penv) < 0 ->
        (forall t, cacheTimestamp st = Some t -> t <= now) ->
        cache_hit (config_of_env penv) now st = None).
Proof.
  split; [apply parseInt_or_nonzero; discriminate | ].
  split; [apply parseInt_or_nonzero; discriminate | ].
  split.
  { intros s E [P | P]; cbn [config_of_env cacheDuration]; unfold parseInt_or;
      rewrite E, P; reflexivity. }
  split; [intros E; cbn [config_of_env cacheDuration]; rewrite E; reflexivity | ].
  split.
  { intros s n E P N. cbn [config_of_env cacheDuration]. unfold parseInt_or.
    rewrite E, P. apply Z.eqb_neq in N. rewrite N. reflexivity. }
  intros now st Neg Mono. unfold cache_hit.
  destruct (memosCache st) as [c | ]; [ | reflexivity].
  destruct (cacheTimestamp st) as [t | ]; [ | reflexivity].
  specialize (Mono t eq_refl).
  assert ((now - t <? cacheDuration (config_of_env penv)) = false) as ->
      by (apply Z.ltb_ge; lia).
  rewrite andb_false_r. reflexivity.
Qed.

(** ** The script of the page *)

Local Open Scope N_scope.

Lemma uint_units_digits (d : Decimal.uint) : forallb is_digit (uint_units d) = true.
Proof. induction d; cbn [uint_units forallb]; try rewrite IHd; reflexivity. Qed.

Lemma uint_units_nil (d : Decimal.uint) : uint_units d = [] -> d = Decimal.Nil.
Proof. destruct d; cbn; congruence. Qed.

Lemma decimal_value_uint_units (d : Decimal.uint) :
  decimal_value 0 (uint_units d) = N.of_uint d.
Proof.
  pose proof (read_digits_all (uint_units d) (uint_units_digits d)) as (_ & _ & R).
  specialize (R Decimal.Nil).
  pose proof (read_digits_uint_units d [] I) as E. rewrite app_nil_r in E.
  rewrite E in R. cbn [fst] in R.
  change (Decimal.revapp d Decimal.Nil) with (Decimal.rev d) in R.
  rewrite <- DecimalPos.Unsigned.of_uint_alt in R. symmetry. exact R.
Qed.

Lemma number_to_string_checked (n : Z) :
  (0 <= n)%Z ->
  idParamSchema (number_to_string n) = true /\ parseInt (number_to_string n) = Some n.
Proof.
  intros H. destruct n as [| p | p]; [split; reflexivity | | lia].
  assert (S : idParamSchema (number_to_string (Z.pos p)) = true).
  { unfold idParamSchema, number_to_string.
    destruct (uint_units (Pos.to_uint p)) eqn:E.
    - apply uint_units_nil in E. exfalso. exact (DecimalPos.Unsigned.to_uint_nonnil p E).
    - rewrite <- E. apply uint_units_digits. }
  split; [exact S | ].
  rewrite (parseInt_checked _ S). unfold number_to_string.
  rewrite decimal_value_uint_units. unfold N.of_uint.
  rewrite DecimalPos.Unsigned.of_to. reflexivity.
Qed.

Local Close Scope N_scope.

Lemma submit_form_sends (t c : jsstring) (rq : request) :
  submit_form t c = Some rq ->
  rq = PostMemo {| title := trim t; content := trim c |} /\ trim t <> [] /\ trim c <> [].
Proof.
  unfold submit_form. destruct (trim t) as [| x a]; [discriminate | ].
  destruct (trim c) as [| y b]; [discriminate | ].
  intros E. injection E as <-. repeat split; discriminate.
Qed.

Lemma updateMemo_sends (id : Z) (t c : jsstring) (rq : request) :
  updateMemo id t c = Some rq ->
  rq = PutMemo (number_to_string id) {| title := trim t; content := trim c |}
  /\ trim t <> [] /\ trim c <> [].
Proof.
  unfold updateMemo. destruct (trim t) as [| x a]; [discriminate | ].
  destruct (trim c) as [| y b]; [discriminate | ].
  intros E. injection E as <-. repeat split; discriminate.
Qed.

Section ScriptFacts.

Variable cfg : config.

Lemma delete_memo_ok (e : env) (p : jsstring) (st : state) (ms : list memo)
    (i : nat) (m : memo) :
  holds st ms -> idParamSchema p = true ->
  parseInt p = Some (memo_id m) -> index_of (memo_id m) ms = Some i ->
  nth_error ms i = Some m -> readFile_fails e = false -> writeFile_fails e = false ->
  fst (delete_memo cfg e p st) = Reply 200 (Json (json_of_memo m)).
Proof.
  intros H Sp P I Hm R W. unfold delete_memo. rewrite Sp. cbn [negb].
  unfold handle, bind, lift, ret. rewrite (loadData_holds e st ms H), R, P.
  rewrite findIndex_id_memos, I, remove_memos, saveData_eq, W, (nth_map_memo i ms m Hm).
  change (get_prop (lit "id") (json_of_memo m))
    with (@Ok (option json) (Some (JNum (memo_id m)))).
  cbn [is_number fst snd].
  match goal with |- context [if ?c then _ else _] => destruct c end; reflexivity.
Qed.

(** What the form and the edit form of the improved page send is stored
    with a title and a content that are not empty: the script trims the
    fields and sends nothing when one of them is then empty. *)
Theorem page_never_stores_empty_text (e : env) (rq : request) (st : state)
    (ms : list memo) (t c : jsstring) :
  holds st ms ->
  (submit_form t c = Some rq \/ exists id, updateMemo id t c = Some rq) ->
  succeeded (fst (step cfg e rq st)) ->
  exists m,
    fst (step cfg e rq st) = Reply (code (fst (step cfg e rq st))) (Json (json_of_memo m))
    /\ memo_title m = trim t /\ memo_title m <> []
    /\ memo_content m = trim c /\ memo_content m <> [].
Proof.
  intros H Rq S.
  destruct (step_effect cfg e rq st ms H) as (ms' & Ef & _ & _).
  destruct Rq as [Rq | (id & Rq)].
  - destruct (submit_form_sends t c rq Rq) as (-> & Nt & Nc).
    pose proof (effect_succeeded _ _ _ _ _ _ _ Ef ltac:(discriminate) S) as (Er & _).
    eexists. rewrite Er. cbn [code]. split; [reflexivity | ].
    cbn [created memo_title memo_content title content]. rewrite !trim_trim. auto.
  - destruct (updateMemo_sends id t c rq Rq) as (-> & Nt & Nc).
    pose proof (effect_succeeded _ _ _ _ _ _ _ Ef ltac:(discriminate) S)
      as (i & m & _ & _ & _ & Er & _).
    eexists. rewrite Er. cbn [code]. split; [reflexivity | ].
    cbn [edited memo_title memo_content title content]. rewrite !trim_trim. auto.
Qed.

(** The buttons the page renders for a memo address that memo: when its id
    is not negative and below 2^53, the delete the script sends for this id
    is answered with the memo, and the update it sends, if the schema
    accepts the trimmed fields, with the memo as edited.  For a negative id
    above -2^53, which only a file written by hand can hold, what the script
    sends is refused by the schema of the path. *)
Theorem page_buttons_address_their_memo (e : env) (st : state) (ms : list memo)
    (i : nat) (m : memo) :
  holds st ms -> index_of (memo_id m) ms = Some i -> nth_error ms i = Some m ->
  readFile_fails e = false -> writeFile_fails e = false ->
  (0 <= memo_id m < 2 ^ 53 ->
   (exists rq, deleteMemo (memo_id m) true = Some rq
               /\ fst (step cfg e rq st) = Reply 200 (Json (json_of_memo m)))
   /\ (forall t c,
         trim t <> [] -> trim c <> [] ->
         memoBodySchema {| title := trim t; content := trim c |} = true ->
         exists rq, updateMemo (memo_id m) t c = Some rq
                    /\ fst (step cfg e rq st)
                       = Reply 200 (Json (json_of_memo
                                            (edited e {| title := t; content := c |} m)))))
  /\ (- 2 ^ 53 < memo_id m < 0 ->
      forall rq, deleteMemo (memo_id m) true = Some rq
                 \/ (exists t c, updateMemo (memo_id m) t c = Some rq) ->
        fst (step cfg e rq st) = Reply 400 (ErrorBody MsgValidation)).
Proof.
  intros H I Hm R W. split.
  - intros (Pos & _).
    destruct (number_to_string_checked (memo_id m) Pos) as (Sp & P). split.
    + eexists. split; [reflexivity | ]. cbn [step].
      apply (delete_memo_ok e _ st ms i m); assumption.
    + intros t c Nt Nc Sb. unfold updateMemo.
      destruct (trim t) as [| x a] eqn:Et; [congruence | ].
      destruct (trim c) as [| y b] eqn:Ec; [congruence | ].
      eexists. split; [reflexivity | ]. cbn [step].
      rewrite (put_memo_ok cfg e _ _ st ms i m H Sp Sb P I Hm R W). cbn [fst].
      unfold edited. cbn [title content]. rewrite <- Et, <- Ec, !trim_trim. reflexivity.
  - intros (_ & Neg) rq Rq.
    assert (Sp : idParamSchema (number_to_string (memo_id m)) = false).
    { destruct (memo_id m); [lia | lia | reflexivity]. }
    destruct Rq as [Rq | (t & c & Rq)].
    + injection Rq as <-. cbn [step]. unfold delete_memo. rewrite Sp. reflexivity.
    + destruct (updateMemo_sends _ t c rq Rq) as (-> & _). cbn [step].
      unfold put_memo. rewrite Sp. reflexivity.
Qed.

End ScriptFacts.

Lemma page_never_stores_empty_text_witness :
  holds two_memos two_list
  /\ submit_form (lit "  tea ") (lit " milk")
     = Some (PostMemo {| title := lit "tea"; content := lit "milk" |})
  /\ exists m,
       fst (step default_config (calm 3000 noon)
              (PostMemo {| title := lit "tea"; content := lit "milk" |}) two_memos)
       = Reply 201 (Json (json_of_memo m))
       /\ memo_title m = lit "tea".
Proof.
  assert (S : succeeded (fst (step default_config (calm 3000 noon)
                                (PostMemo {| title := lit "tea"; content := lit "milk" |})
                                two_memos))).
  { right. vm_compute. reflexivity. }
  split; [exact two_memos_holds | ]. split; [reflexivity | ].
  destruct (page_never_stores_empty_text default_config (calm 3000 noon) _ two_memos
              two_list (lit "  tea ") (lit " milk") two_memos_holds
              (or_introl eq_refl) S) as (m & R & T & _).
  exists m. split; [exact R | exact T].
Defined.

Lemma page_buttons_address_their_memo_witness :
  holds two_memos two_list
  /\ 0 <= memo_id (created (calm 2000 noon) cleaning 1) < 2 ^ 53
  /\ deleteMemo 2 true = Some (DeleteMemo (lit "2"))
  /\ fst (step default_config (calm 3000 noon) (DeleteMemo (lit "2")) two_memos)
     = Reply 200 (Json (json_of_memo (created (calm 2000 noon) cleaning 1))).
Proof.
  split; [exact two_memos_holds | ].
  split; [split; [discriminate | reflexivity] | ]. split; [reflexivity | ].
  destruct (proj1 (page_buttons_address_their_memo default_config (calm 3000 noon)
                     two_memos two_list 1 (created (calm 2000 noon) cleaning 1)
                     two_memos_holds eq_refl eq_refl eq_refl eq_refl)
              ltac:(split; [discriminate | reflexivity])) as ((rq & E & R) & _).
  injection E as <-. exact R.
Defined.

(** ** The id of the path in the basic server *)

Local Open Scope N_scope.

Lemma read_digits_app (p rest : jsstring) :
  forallb is_digit p = true -> ends_number rest ->
  read_digits (p ++ rest) = (fst (read_digits p), rest).
Proof.
  intros D E. induction p as [| c p IH].
  - cbn [app]. destruct rest as [| j r]; [reflexivity | ].
    cbn [read_digits]. cbn in E. destruct E as (-> & _). reflexivity.
  - cbn [forallb] in D. apply andb_prop in D as (Dc & D).
    cbn [app read_digits]. rewrite Dc, (IH D).
    destruct (read_digits p) as [d r]. reflexivity.
Qed.

Lemma trimStart_ws (ws s : jsstring) :
  forallb isWhiteSpace ws = true -> starts_clean s -> trimStart (ws ++ s) = s.
Proof.
  intros W C. induction ws as [| w ws IH]; [apply trimStart_clean, C | ].
  cbn [forallb] in W. apply andb_prop in W as (W1 & W2).
  cbn [app trimStart]. rewrite W1. apply IH, W2.
Qed.

Lemma parseInt_loose (ws p rest : jsstring) :
  forallb isWhiteSpace ws = true -> idParamSchema p = true -> ends_number rest ->
  parseInt (ws ++ p ++ rest) = Some (Z.of_N (decimal_value 0 p)).
Proof.
  unfold idParamSchema. destruct p as [| c r]; [discriminate | ]. intros W H E.
  destruct (read_digits_all (c :: r) H) as (R1 & R2 & R3).
  specialize (R2 ltac:(discriminate)). specialize (R3 Decimal.Nil).
  pose proof (read_digits_app (c :: r) rest H E) as A.
  cbn [forallb] in H. apply andb_prop in H as (D & Hr).
  unfold parseInt.
  rewrite (trimStart_ws ws ((c :: r) ++ rest) W) by (cbn; apply whitespace_not_digit, D).
  assert (B : 48 <= c <= 57)
    by (unfold is_digit in D; apply andb_prop in D as (X & Y);
        apply N.leb_le in X, Y; lia).
  unfold read_sign. cbn [app].
  replace (c =? 45) with false by (symmetry; apply N.eqb_neq; lia).
  replace (c =? 43) with false by (symmetry; apply N.eqb_neq; lia).
  assert (V : read_decimal (c :: r ++ rest) = Some (decimal_value 0 (c :: r))).
  { unfold read_decimal. change (c :: r ++ rest) with ((c :: r) ++ rest). rewrite A.
    destruct (read_digits (c :: r)) as [d r'] eqn:Ed. cbn [fst snd] in *.
    change (Decimal.revapp d Decimal.Nil) with (Decimal.rev d) in R3.
    rewrite <- DecimalPos.Unsigned.of_uint_alt in R3.
    destruct d; [congruence | ..]; unfold N.of_uint; rewrite R3; reflexivity. }
  assert (X : forall x t, r ++ rest = x :: t -> (x =? 120) || (x =? 88) = false).
  { intros x t Ex. destruct r as [| y r'].
    - cbn [app] in Ex. subst rest. cbn in E. destruct E as (_ & E1 & E2).
      apply N.eqb_neq in E1, E2. rewrite E1, E2. reflexivity.
    - cbn [app] in Ex. injection Ex as <- _.
      cbn [forallb] in Hr. apply andb_prop in Hr as (Dy & _).
      unfold is_digit in Dy. apply andb_prop in Dy as (Y1 & Y2). apply N.leb_le in Y1, Y2.
      replace (y =? 120) with false by (symmetry; apply N.eqb_neq; lia).
      replace (y =? 88) with false by (symmetry; apply N.eqb_neq; lia). reflexivity. }
  destruct (r ++ rest) as [| x t] eqn:Ex; [rewrite V; reflexivity | ].
  rewrite (X x t eq_refl), andb_false_r, V. reflexivity.
Qed.

Lemma idParamSchema_loose (ws p rest : jsstring) :
  forallb isWhiteSpace ws = true -> idParamSchema p = true -> ends_number rest ->
  ws <> [] \/ rest <> [] -> idParamSchema (ws ++ p ++ rest) = false.
Proof.
  intros W S E N. unfold idParamSchema.
  destruct (ws ++ p ++ rest) as [| a l] eqn:A; [reflexivity | ]. rewrite <- A.
  destruct (forallb is_digit (ws ++ p ++ rest)) eqn:F; [exfalso | reflexivity].
  rewrite !forallb_app in F. apply andb_prop in F as (F1 & F2).
  apply andb_prop in F2 as (_ & F3).
  destruct N as [N | N].
  - destruct ws as [| w ws']; [congruence | ]. cbn [forallb] in W, F1.
    apply andb_prop in W as (W1 & _). apply andb_prop in F1 as (D1 & _).
    rewrite (whitespace_not_digit w D1) in W1. discriminate W1.
  - destruct rest as [| j r]; [congruence | ]. cbn [forallb] in F3. cbn in E.
    destruct E as (E & _). rewrite E in F3. discriminate F3.
Qed.

(** The basic server does not check the id of the path and reads it with
    [parseInt]: white space before the digits and whatever follows them are
    passed over, so that such a path addresses the memo the digits name.
    The improved server refuses the same path with 400. *)
Theorem basic_id_is_read_loosely (ws p rest : jsstring) :
  forallb isWhiteSpace ws = true -> idParamSchema p = true -> ends_number rest ->
  parseInt (ws ++ p ++ rest) = parseInt p
  /\ (forall e b st, Basic.put_memo e (ws ++ p ++ rest) b st = Basic.put_memo e p b st)
  /\ (forall e st, Basic.delete_memo e (ws ++ p ++ rest) st = Basic.delete_memo e p st)
  /\ (ws <> [] \/ rest <> [] ->
      forall cfg e b st,
        put_memo cfg e (ws ++ p ++ rest) b st = validationError st
        /\ delete_memo cfg e (ws ++ p ++ rest) st = validationError st).
Proof.
  intros W S E.
  assert (P : parseInt (ws ++ p ++ rest) = parseInt p).
  { rewrite (parseInt_loose ws p rest W S E), (parseInt_checked p S). reflexivity. }
  split; [exact P | ].
  split; [intros e b st; unfold Basic.put_memo; rewrite P; reflexivity | ].
  split; [intros e st; unfold Basic.delete_memo; rewrite P; reflexivity | ].
  intros N cfg e b st. unfold put_memo, delete_memo.
  rewrite (idParamSchema_loose ws p rest W S E N). split; reflexivity.
Qed.

Lemma basic_id_is_read_loosely_witness :
  forallb isWhiteSpace (lit " ") = true /\ idParamSchema (lit "2") = true
  /\ ends_number (lit "nd")
  /\ parseInt (lit " 2nd") = Some 2%Z
  /\ fst (Basic.delete_memo (calm 3000 noon) (lit " 2nd") two_memos)
     = fst (Basic.delete_memo (calm 3000 noon) (lit "2") two_memos).
Proof.
  assert (E : ends_number (lit "nd")) by (cbn; repeat split; discriminate).
  split; [reflexivity | ]. split; [reflexivity | ]. split; [exact E | ].
  destruct (basic_id_is_read_loosely (lit " ") (lit "2") (lit "nd") eq_refl eq_refl E)
    as (P & _ & D & _).
  split; [exact P | ]. exact (f_equal fst (D (calm 3000 noon) two_memos)).
Defined.

Local Close Scope N_scope.

(** ** The stored text over a run *)

Lemma Forall_update_at {A : Type} (P : A -> Prop) (f : A -> A) (i : nat) (l : list A) :
  Forall P l -> (forall x, P (f x)) -> Forall P (update_at i f l).
Proof.
  intros F Pf. revert i. induction F as [| x l Px F IH]; intros i; [destruct i; constructor | ].
  destruct i; cbn [update_at]; constructor; auto.
Qed.

Lemma Forall_remove_at {A : Type} (P : A -> Prop) (i : nat) (l : list A) :
  Forall P l -> Forall P (remove_at i l).
Proof.
  intros F. revert i. induction F as [| x l Px F IH]; intros i; [destruct i; constructor | ].
  destruct i; cbn [remove_at]; [exact F | constructor; auto].
Qed.

Section RunText.

Variable cfg : config.

Lemma succeeded_checked (e : env) (rq : request) (b : body) (st : state) :
  (rq = PostMemo b \/ exists p, rq = PutMemo p b) ->
  succeeded (fst (step cfg e rq st)) -> memoBodySchema b = true.
Proof.
  intros Rq S. destruct Rq as [-> | (p & ->)]; cbn [step] in S.
  - unfold post_memo in S. destruct (memoBodySchema b); [reflexivity | ].
    cbn in S. destruct S as [C | C]; discriminate C.
  - unfold put_memo in S. destruct (memoBodySchema b); [reflexivity | ].
    rewrite andb_false_r in S. cbn in S. destruct S as [C | C]; discriminate C.
Qed.

Lemma step_keeps_text (e : env) (rq : request) (st : state) (ms : list memo) :
  holds st ms -> Forall within_schema ms ->
  exists ms', holds (snd (step cfg e rq st)) ms' /\ Forall within_schema ms'.
Proof.
  intros H F. destruct (step_effect cfg e rq st ms H) as (ms' & Ef & H' & _).
  exists ms'. split; [exact H' | ].
  remember (fst (step cfg e rq st)) as r eqn:Er.
  remember (lastId (snd (step cfg e rq st))) as last' eqn:El.
  destruct Ef as [r C | rq r W C | b r C | b | p b i m P I Hm | p i m P I Hm];
    try exact F.
  - assert (S : succeeded (fst (step cfg e (PostMemo b) st))).
    { right. rewrite <- Er. reflexivity. }
    destruct (schema_of_trimmed b (succeeded_checked e _ b st (or_introl eq_refl) S))
      as (T1 & T2 & T3 & C1 & C2).
    apply Forall_app. split; [exact F | ]. constructor; [ | constructor].
    unfold within_schema. cbn [created memo_title memo_content]. auto.
  - assert (S : succeeded (fst (step cfg e (PutMemo p b) st))).
    { left. rewrite <- Er. reflexivity. }
    destruct (schema_of_trimmed b
                (succeeded_checked e _ b st (or_intror (ex_intro _ p eq_refl)) S))
      as (T1 & T2 & T3 & C1 & C2).
    apply Forall_update_at; [exact F | ]. intros x.
    unfold within_schema. cbn [edited memo_title memo_content]. auto.
  - apply Forall_remove_at, F.
Qed.

(** What the schema promises of the stored text, emptiness apart, is kept by
    every run of requests in which every write is carried out, whatever is
    refused and whichever read fails on the way: if every memo in the file
    has a trimmed title of at most 200 characters without angle bracket and
    a trimmed content of at most 5000 characters, so has every memo in the
    file afterwards. *)
Theorem run_keeps_text_within_schema (evs : list (env * request)) (st : state)
    (ms : list memo) :
  writes_complete evs -> holds st ms -> Forall within_schema ms ->
  exists ms', holds (snd (run cfg evs st)) ms' /\ Forall within_schema ms'.
Proof.
  intros _. revert st ms. induction evs as [| [e rq] evs IH]; intros st ms H F.
  - exists ms. auto.
  - cbn [run]. destruct (step_keeps_text e rq st ms H F) as (ms1 & H1 & F1).
    destruct (step cfg e rq st) as [r st1]. cbn [snd] in H1.
    destruct (IH st1 ms1 H1 F1) as (ms2 & H2 & F2).
    destruct (run cfg evs st1) as [rs st2]. cbn [snd] in *. eauto.
Qed.

End RunText.

Lemma run_keeps_text_within_schema_witness :
  writes_complete [(calm 1000 noon, PostMemo shopping);
                   (no_read 2000 noon, PostMemo cleaning);
                   (calm 3000 noon, PutMemo (lit "1") laundry)]
  /\ holds (fresh None None) [] /\ Forall within_schema []
  /\ exists ms',
       holds (snd (run default_config
                     [(calm 1000 noon, PostMemo shopping);
                      (no_read 2000 noon, PostMemo cleaning);
                      (calm 3000 noon, PutMemo (lit "1") laundry)]
                     (fresh None None))) ms'
       /\ Forall within_schema ms'.
Proof.
  assert (W : writes_complete [(calm 1000 noon, PostMemo shopping);
                               (no_read 2000 noon, PostMemo cleaning);
                               (calm 3000 noon, PutMemo (lit "1") laundry)])
    by (repeat constructor).
  split; [exact W | ]. split; [reflexivity | ]. split; [constructor | ].
  exact (run_keeps_text_within_schema default_config _ (fresh None None) []
           W eq_refl (Forall_nil _)).
Defined.
